(** * Contract management: document versioning, content hashes, audit trail

    A shallow embedding of [app.py]: the SQLite tables are lists of rows in
    rowid order, every [with get_db() as conn:] block is one transaction on
    the database value, the upload directory is a finite map from path
    strings to file contents, and the request handlers are functions from
    the world before the request to an outcome and the world after it. *)

From Stdlib Require Import ZArith List Ascii String Bool Lia.
From Stdlib Require Import DecimalString DecimalZ.
From Stdlib.Strings Require Import Byte.
From Stdlib Require Import Sorted Permutation.
From stdpp Require Import base option list sorting gmap strings.

Local Open Scope Z_scope.

(** ** Python strings

    A Python [str] is modelled as a Rocq [string] whose characters are the
    code points below 256. *)

Module PyStr.

(** [str.isspace] on the code points below 256: TAB..CR, FS..US, SPACE,
    NEL and NBSP. *)
Definition isspace (c : ascii) : bool :=
  let n := N_of_ascii c in
  ((9 <=? n) && (n <=? 13) || (28 <=? n) && (n <=? 32)
   || (n =? 133) || (n =? 160))%N.

(** [s.lstrip(chars)], [s.rstrip(chars)] and [s.strip(chars)], the
    characters to remove given as a predicate. *)
Fixpoint lstrip_with (p : ascii -> bool) (s : string) : string :=
  match s with
  | EmptyString => EmptyString
  | String c s' => if p c then lstrip_with p s' else s
  end.

Fixpoint rstrip_with (p : ascii -> bool) (s : string) : string :=
  match s with
  | EmptyString => EmptyString
  | String c s' =>
      match rstrip_with p s' with
      | EmptyString => if p c then EmptyString else String c EmptyString
      | r => String c r
      end
  end.

Definition strip_with (p : ascii -> bool) (s : string) : string :=
  rstrip_with p (lstrip_with p s).

(** [s.strip()] removes white space. *)
Definition strip (s : string) : string := strip_with isspace s.

(** Truth value of a string: [not s] holds for the empty string only. *)
Definition truthy (s : string) : bool := negb (String.eqb s "").

(** [s.split(sep)] for a one-character separator. *)
Fixpoint split (sep : ascii) (s : string) : list string :=
  match s with
  | EmptyString => [EmptyString]
  | String c s' =>
      if Ascii.eqb c sep then EmptyString :: split sep s'
      else match split sep s' with
           | [] => [String c EmptyString]
           | part :: parts => String c part :: parts
           end
  end.

(** [s.split()]: the maximal runs of characters that are not white space. *)
Fixpoint words_go (cur : string) (s : string) : list string :=
  match s with
  | EmptyString =>
      match cur with EmptyString => [] | _ => [String.rev cur] end
  | String c s' =>
      if isspace c
      then match cur with
           | EmptyString => words_go EmptyString s'
           | _ => String.rev cur :: words_go EmptyString s'
           end
      else words_go (String c cur) s'
  end.
Definition words (s : string) : list string := words_go EmptyString s.

(** [s.replace(old, new)] for one-character [old] and [new]. *)
Fixpoint replace (old new : ascii) (s : string) : string :=
  match s with
  | EmptyString => EmptyString
  | String c s' => String (if Ascii.eqb c old then new else c) (replace old new s')
  end.

(** [s.startswith(p)] *)
Fixpoint startswith (p s : string) : bool :=
  match p, s with
  | EmptyString, _ => true
  | String a p', String b s' => Ascii.eqb a b && startswith p' s'
  | String _ _, EmptyString => false
  end.

(** [s.endswith(c)] for a one-character suffix. *)
Fixpoint endswith (c : ascii) (s : string) : bool :=
  match s with
  | EmptyString => false
  | String d EmptyString => Ascii.eqb d c
  | String _ s' => endswith c s'
  end.

(** The characters of a string kept by a filter, as [re.sub] with a
    negated character class removes the others. *)
Fixpoint keep (p : ascii -> bool) (s : string) : string :=
  match s with
  | EmptyString => EmptyString
  | String c s' => if p c then String c (keep p s') else keep p s'
  end.

(** [str(z)] for an integer: its decimal digits, with a sign when
    negative. *)
Definition str_of_int (z : Z) : string :=
  DecimalString.NilZero.string_of_int (Z.to_int z).

(** [sep.join(parts)] *)
Definition join (sep : string) (parts : list string) : string :=
  String.concat sep parts.

End PyStr.

(** ** Exceptions and results *)

Inductive exn :=
  | OperationalError   (* sqlite3: database is locked, disk full, ... *)
  | TypeError          (* subscripting the None of an empty fetchone() *)
  | IntegrityError     (* sqlite3: NOT NULL constraint failed *)
  | OSError.           (* file write or read failure *)

Inductive result (A : Type) :=
  | Ok (a : A)
  | Raised (e : exn).
Arguments Ok {A} a.
Arguments Raised {A} e.

(** ** The database *)

Record vendor_row := {
  vendor_id : Z;
  vendor_name : string;
  vendor_risk_profile : option string;
  vendor_status : option string;
  vendor_created_at : string }.

(** [vendor_id] and [notice_period_days] hold the text the form sent; the
    conversion SQLite applies to it in an INTEGER column is not modelled. *)
Record contract_row := {
  contract_id : Z;
  contract_title : string;
  contract_vendor_id : option string;
  contract_owner : string;
  contract_state : string;
  contract_effective_date : option string;
  contract_termination_date : option string;
  contract_notice_period_days : option string;
  contract_renewal_intent : option string;
  contract_sensitive : Z;
  contract_created_at : string;
  contract_updated_at : string }.

Record document_row := {
  document_id : Z;
  document_contract_id : Z;
  document_filename : string;
  document_storage_path : string;
  document_version : Z;
  document_uploaded_at : string;
  document_sha256 : string }.

Record extraction_row := {
  extraction_id : Z;
  extraction_contract_id : Z;
  extraction_extracted_fields : string;
  extraction_status : string;
  extraction_approver : option string;
  extraction_created_at : string }.

Record tag_row := {
  tag_id : Z;
  tag_name : string }.

Record contract_tag_row := {
  ct_contract_id : Z;
  ct_tag_id : Z }.

Record audit_row := {
  audit_id : Z;
  audit_contract_id : option Z;
  audit_action : string;
  audit_actor : string;
  audit_created_at : string;
  audit_details : string }.

Global Instance contract_tag_row_eq_dec : EqDecision contract_tag_row.
Proof. solve_decision. Defined.

(** Each table is the list of its rows in rowid order; the [_seq] fields are
    the [sqlite_sequence] entries of the AUTOINCREMENT tables. *)
Record database := {
  vendors : list vendor_row;
  vendors_seq : Z;
  contracts : list contract_row;
  contracts_seq : Z;
  documents : list document_row;
  documents_seq : Z;
  extractions : list extraction_row;
  extractions_seq : Z;
  tags : list tag_row;
  tags_seq : Z;
  contract_tags : list contract_tag_row;
  audit_events : list audit_row;
  audit_events_seq : Z }.

(** [init_db] on a fresh file: every table exists and is empty. *)
Definition init_db : database :=
  {| vendors := []; vendors_seq := 0;
     contracts := []; contracts_seq := 0;
     documents := []; documents_seq := 0;
     extractions := []; extractions_seq := 0;
     tags := []; tags_seq := 0;
     contract_tags := [];
     audit_events := []; audit_events_seq := 0 |}.

Definition put_vendors (rows : list vendor_row) (seq : Z) (db : database) :=
  {| vendors := rows; vendors_seq := seq;
     contracts := contracts db; contracts_seq := contracts_seq db;
     documents := documents db; documents_seq := documents_seq db;
     extractions := extractions db; extractions_seq := extractions_seq db;
     tags := tags db; tags_seq := tags_seq db;
     contract_tags := contract_tags db;
     audit_events := audit_events db; audit_events_seq := audit_events_seq db |}.

Definition put_contracts (rows : list contract_row) (seq : Z) (db : database) :=
  {| vendors := vendors db; vendors_seq := vendors_seq db;
     contracts := rows; contracts_seq := seq;
     documents := documents db; documents_seq := documents_seq db;
     extractions := extractions db; extractions_seq := extractions_seq db;
     tags := tags db; tags_seq := tags_seq db;
     contract_tags := contract_tags db;
     audit_events := audit_events db; audit_events_seq := audit_events_seq db |}.

Definition put_documents (rows : list document_row) (seq : Z) (db : database) :=
  {| vendors := vendors db; vendors_seq := vendors_seq db;
     contracts := contracts db; contracts_seq := contracts_seq db;
     documents := rows; documents_seq := seq;
     extractions := extractions db; extractions_seq := extractions_seq db;
     tags := tags db; tags_seq := tags_seq db;
     contract_tags := contract_tags db;
     audit_events := audit_events db; audit_events_seq := audit_events_seq db |}.

Definition put_extractions (rows : list extraction_row) (seq : Z) (db : database) :=
  {| vendors := vendors db; vendors_seq := vendors_seq db;
     contracts := contracts db; contracts_seq := contracts_seq db;
     documents := documents db; documents_seq := documents_seq db;
     extractions := rows; extractions_seq := seq;
     tags := tags db; tags_seq := tags_seq db;
     contract_tags := contract_tags db;
     audit_events := audit_events db; audit_events_seq := audit_events_seq db |}.

Definition put_tags (rows : list tag_row) (seq : Z) (db : database) :=
  {| vendors := vendors db; vendors_seq := vendors_seq db;
     contracts := contracts db; contracts_seq := contracts_seq db;
     documents := documents db; documents_seq := documents_seq db;
     extractions := extractions db; extractions_seq := extractions_seq db;
     tags := rows; tags_seq := seq;
     contract_tags := contract_tags db;
     audit_events := audit_events db; audit_events_seq := audit_events_seq db |}.

Definition put_contract_tags (rows : list contract_tag_row) (db : database) :=
  {| vendors := vendors db; vendors_seq := vendors_seq db;
     contracts := contracts db; contracts_seq := contracts_seq db;
     documents := documents db; documents_seq := documents_seq db;
     extractions := extractions db; extractions_seq := extractions_seq db;
     tags := tags db; tags_seq := tags_seq db;
     contract_tags := rows;
     audit_events := audit_events db; audit_events_seq := audit_events_seq db |}.

Definition put_audit_events (rows : list audit_row) (seq : Z) (db : database) :=
  {| vendors := vendors db; vendors_seq := vendors_seq db;
     contracts := contracts db; contracts_seq := contracts_seq db;
     documents := documents db; documents_seq := documents_seq db;
     extractions := extractions db; extractions_seq := extractions_seq db;
     tags := tags db; tags_seq := tags_seq db;
     contract_tags := contract_tags db;
     audit_events := rows; audit_events_seq := seq |}.

(** The rowid an [INTEGER PRIMARY KEY AUTOINCREMENT] column gives the next
    row: one more than the largest rowid the table ever held. *)
Definition max_id (ids : list Z) : Z := foldr Z.max 0 ids.
Definition next_rowid (seq : Z) (ids : list Z) : Z := Z.max seq (max_id ids) + 1.

(** [ORDER BY] without an index: SQLite scans the rows in rowid order and
    sorts them with a stable sort, so rows that compare equal stay in scan
    order.  [le x y] tells that [x] may come before [y]. *)
Fixpoint insert_by {A} (le : A -> A -> bool) (x : A) (l : list A) : list A :=
  match l with
  | [] => [x]
  | y :: l' => if le x y then x :: l else y :: insert_by le x l'
  end.

Definition order_by {A} (le : A -> A -> bool) (l : list A) : list A :=
  foldr (insert_by le) [] l.

Definition asc {A} (key : A -> string) (x y : A) : bool :=
  String.leb (key x) (key y).
Definition desc {A} (key : A -> string) (x y : A) : bool :=
  String.leb (key y) (key x).
Definition desc_int {A} (key : A -> Z) (x y : A) : bool :=
  key y <=? key x.

(** ** Tags *)

Section Tags.

(** SQLite does not promise whether an [INSERT OR IGNORE] that is ignored
    consumes the rowid it had reserved; both behaviours are covered. *)
Variable ignored_insert_consumes_rowid : bool.

(** [INSERT OR IGNORE INTO tags (name) VALUES (?)]; [name] is UNIQUE. *)
Definition insert_or_ignore_tag (name : string) (db : database) : database :=
  let rowid := next_rowid (tags_seq db) (tag_id <$> tags db) in
  if bool_decide (name ∈ tag_name <$> tags db)
  then put_tags (tags db)
         (if ignored_insert_consumes_rowid then rowid else tags_seq db) db
  else put_tags (tags db ++ [{| tag_id := rowid; tag_name := name |}]) rowid db.

(** [SELECT id FROM tags WHERE name = ?] followed by [fetchone()] *)
Definition select_tag_id (name : string) (db : database) : option Z :=
  tag_id <$> head (filter (fun t => tag_name t = name) (tags db)).

(** [INSERT OR IGNORE INTO contract_tags (contract_id, tag_id) VALUES (?, ?)];
    the pair is the primary key. *)
Definition insert_or_ignore_contract_tag (cid tid : Z) (db : database) : database :=
  let row := {| ct_contract_id := cid; ct_tag_id := tid |} in
  if bool_decide (row ∈ contract_tags db) then db
  else put_contract_tags (contract_tags db ++ [row]) db.

(** [DELETE FROM contract_tags WHERE contract_id = ?] *)
Definition delete_contract_tags (cid : Z) (db : database) : database :=
  put_contract_tags (filter (fun r => ct_contract_id r ≠ cid) (contract_tags db)) db.

(** The body of the [for name in tag_names] loop of [upsert_tags]. *)
Fixpoint upsert_tags_loop (cid : Z) (tag_names : list string) (db : database)
  : result database :=
  match tag_names with
  | [] => Ok db
  | name :: rest =>
      let cleaned := PyStr.strip name in
      if negb (PyStr.truthy cleaned) then upsert_tags_loop cid rest db
      else
        let db1 := insert_or_ignore_tag cleaned db in
        match select_tag_id cleaned db1 with
        | None => Raised TypeError
        | Some tid =>
            upsert_tags_loop cid rest (insert_or_ignore_contract_tag cid tid db1)
        end
  end.

(** [upsert_tags] opens a connection of its own and commits when its
    [with] block ends; an exception rolls everything back.  [busy] tells
    that another connection holds an uncommitted write on the database
    file, in which case the first write statement waits for the busy
    timeout and raises [OperationalError] (database is locked). *)
Definition upsert_tags (busy : bool) (cid : Z) (tag_names : list string)
    (db : database) : result database :=
  if busy then Raised OperationalError
  else upsert_tags_loop cid tag_names (delete_contract_tags cid db).

(** [get_contract_tags]: the join of [tags] and [contract_tags] for one
    contract, ordered by tag name. *)
Definition get_contract_tags (cid : Z) (db : database) : list string :=
  order_by (asc id)
    (t ← tags db;
     ct ← contract_tags db;
     if bool_decide (ct_tag_id ct = tag_id t ∧ ct_contract_id ct = cid)
     then [tag_name t] else []).

(** The tag names [upsert_tags] keeps: trimmed, empties dropped. *)
Definition cleaned_names (tag_names : list string) : list string :=
  filter (fun s => s ≠ "") (PyStr.strip <$> tag_names).

(** The vocabulary: the names in the [tags] table. *)
Definition vocabulary (db : database) : list string := tag_name <$> tags db.

End Tags.

(** ** SHA-256 ([hashlib.sha256(data).hexdigest()])

    Words are integers below [2^32]; the message is a list of bytes. *)

Module SHA256.

Definition w32 (x : Z) : Z := x mod 2 ^ 32.
Definition add32 (x y : Z) : Z := w32 (x + y).
Definition rotr (n x : Z) : Z :=
  Z.lor (Z.shiftr x n) (w32 (Z.shiftl x (32 - n))).
Definition not32 (x : Z) : Z := 2 ^ 32 - 1 - x.

Definition Ch (x y z : Z) : Z := Z.lxor (Z.land x y) (Z.land (not32 x) z).
Definition Maj (x y z : Z) : Z :=
  Z.lxor (Z.lxor (Z.land x y) (Z.land x z)) (Z.land y z).
Definition Sigma0 (x : Z) : Z := Z.lxor (Z.lxor (rotr 2 x) (rotr 13 x)) (rotr 22 x).
Definition Sigma1 (x : Z) : Z := Z.lxor (Z.lxor (rotr 6 x) (rotr 11 x)) (rotr 25 x).
Definition sigma0 (x : Z) : Z := Z.lxor (Z.lxor (rotr 7 x) (rotr 18 x)) (Z.shiftr x 3).
Definition sigma1 (x : Z) : Z := Z.lxor (Z.lxor (rotr 17 x) (rotr 19 x)) (Z.shiftr x 10).

(** The constants of FIPS 180-4 by their definition: the first 32 bits of
    the fractional parts of the cube roots (for [K]) and of the square
    roots (for the initial hash value) of the first primes. *)
Definition is_prime (p : Z) : bool :=
  forallb (fun d => negb (p mod d =? 0)) (seqZ 2 (p - 2)).

Definition primes : list Z := List.filter is_prime (seqZ 2 310).

Fixpoint cube_root_from (bits : nat) (n r : Z) : Z :=
  match bits with
  | O => r
  | S bits' =>
      let r' := r + 2 ^ Z.of_nat bits' in
      cube_root_from bits' n (if r' * r' * r' <=? n then r' else r)
  end.

Definition frac_cube_root (p : Z) : Z := w32 (cube_root_from 40 (p * 2 ^ 96) 0).
Definition frac_square_root (p : Z) : Z := w32 (Z.sqrt (p * 2 ^ 64)).

Definition K : list Z := frac_cube_root <$> primes.

Record state := {
  ha : Z; hb : Z; hc : Z; hd : Z; he : Z; hf : Z; hg : Z; hh : Z }.

Definition initial : state :=
  {| ha := frac_square_root 2; hb := frac_square_root 3;
     hc := frac_square_root 5; hd := frac_square_root 7;
     he := frac_square_root 11; hf := frac_square_root 13;
     hg := frac_square_root 17; hh := frac_square_root 19 |}.

(** Padding: a [0x80] byte, zero bytes up to 56 modulo 64, then the bit
    length of the message as a 64-bit big-endian integer. *)
Definition big_endian (width : nat) (x : Z) : list Z :=
  (fun i => Z.land (Z.shiftr x (8 * Z.of_nat i)) 255) <$> rev (seq 0 width).

Definition pad (msg : list Z) : list Z :=
  let len := Z.of_nat (length msg) in
  let zeros := Z.to_nat ((55 - len) mod 64) in
  msg ++ [128] ++ repeat 0 zeros ++ big_endian 8 ((8 * len) mod 2 ^ 64).

(** The big-endian words of a block of bytes. *)
Fixpoint words (bs : list Z) : list Z :=
  match bs with
  | b0 :: b1 :: b2 :: b3 :: rest =>
      (((b0 * 256 + b1) * 256 + b2) * 256 + b3) :: words rest
  | _ => []
  end.

(** The message schedule: [W] holds the words computed so far, newest
    first. *)
Fixpoint schedule (n : nat) (W : list Z) : list Z :=
  match n with
  | O => W
  | S n' =>
      let w2 := nth 1 W 0 in
      let w7 := nth 6 W 0 in
      let w15 := nth 14 W 0 in
      let w16 := nth 15 W 0 in
      schedule n' (add32 (add32 (sigma1 w2) w7) (add32 (sigma0 w15) w16) :: W)
  end.

Definition round (s : state) (kw : Z * Z) : state :=
  let t1 := add32 (add32 (add32 (hh s) (Sigma1 (he s))) (Ch (he s) (hf s) (hg s)))
                  (add32 (fst kw) (snd kw)) in
  let t2 := add32 (Sigma0 (ha s)) (Maj (ha s) (hb s) (hc s)) in
  {| ha := add32 t1 t2; hb := ha s; hc := hb s; hd := hc s;
     he := add32 (hd s) t1; hf := he s; hg := hf s; hh := hg s |}.

Definition compress (s : state) (block : list Z) : state :=
  let W := rev (schedule 48 (rev (words block))) in
  let r := fold_left round (combine K W) s in
  {| ha := add32 (ha s) (ha r); hb := add32 (hb s) (hb r);
     hc := add32 (hc s) (hc r); hd := add32 (hd s) (hd r);
     he := add32 (he s) (he r); hf := add32 (hf s) (hf r);
     hg := add32 (hg s) (hg r); hh := add32 (hh s) (hh r) |}.

Fixpoint blocks (n : nat) (bs : list Z) : list (list Z) :=
  match n with
  | O => []
  | S n' => take 64 bs :: blocks n' (drop 64 bs)
  end.

Definition digest (msg : list Z) : state :=
  let p := pad msg in
  fold_left compress (blocks (length p / 64) p) initial.

Definition hex_digit (n : Z) : ascii :=
  if n <? 10 then ascii_of_N (Z.to_N (48 + n)) else ascii_of_N (Z.to_N (87 + n)).

Definition hex8 (w : Z) : string :=
  string_of_list_ascii
    ((fun i => hex_digit (Z.land (Z.shiftr w (4 * i)) 15)) <$> [7; 6; 5; 4; 3; 2; 1; 0]).

Definition hex (s : state) : string :=
  hex8 (ha s) +:+ hex8 (hb s) +:+ hex8 (hc s) +:+ hex8 (hd s) +:+
  hex8 (he s) +:+ hex8 (hf s) +:+ hex8 (hg s) +:+ hex8 (hh s).

(** [hashlib.sha256(data).hexdigest()] *)
Definition hexdigest (data : list byte) : string :=
  hex (digest ((fun b => Z.of_N (Byte.to_N b)) <$> data)).

End SHA256.

(** The bytes of an ASCII literal, for examples. *)
Definition bytes_of (s : string) : list byte := list_byte_of_string s.

(** ** Paths ([posixpath]) *)

Module PosixPath.

(** One step of the component loop of [normpath]: [new_comps] is the list
    built so far. *)
Definition normpath_step (initial_slashes : nat) (new_comps : list string)
    (comp : string) : list string :=
  if bool_decide (comp = "" \/ comp = ".") then new_comps
  else if bool_decide (comp <> ".."
                       \/ (initial_slashes = 0%nat /\ new_comps = [])
                       \/ (new_comps <> [] /\ last new_comps = Some ".."))
  then new_comps ++ [comp]
  else removelast new_comps.

(** [posixpath.normpath] *)
Definition normpath (path : string) : string :=
  if bool_decide (path = "") then "."
  else
    let initial_slashes :=
      if PyStr.startswith "/" path
      then if PyStr.startswith "//" path && negb (PyStr.startswith "///" path)
           then 2%nat else 1%nat
      else 0%nat in
    let comps := PyStr.split "/" path in
    let new_comps := fold_left (normpath_step initial_slashes) comps [] in
    let path' := PyStr.join "/" new_comps in
    let path' := PyStr.join "" (repeat "/" initial_slashes) +:+ path' in
    if bool_decide (path' = "") then "." else path'.

(** [posixpath.isabs] *)
Definition isabs (path : string) : bool := PyStr.startswith "/" path.

(** [posixpath.join(a, b)]; also [str(Path(a) / b)] when [a] is the string
    of a [Path]. *)
Definition join (a b : string) : string :=
  if PyStr.startswith "/" b then b
  else if bool_decide (a = "") || PyStr.endswith "/" a then a +:+ b
  else a +:+ "/" +:+ b.

End PosixPath.

(** ** Werkzeug helpers used by the handlers *)

Module Werkzeug.

(** The character class [A-Za-z0-9_.-] of [_filename_ascii_strip_re]. *)
Definition filename_char (c : ascii) : bool :=
  let n := N_of_ascii c in
  ((65 <=? n) && (n <=? 90) || (97 <=? n) && (n <=? 122)
   || (48 <=? n) && (n <=? 57) || (n =? 95) || (n =? 46) || (n =? 45))%N.

Definition dot_or_underscore (c : ascii) : bool :=
  (Ascii.eqb c "." || Ascii.eqb c "_")%char.

(** [secure_filename].  [ascii_nfkd] stands for its first two lines, the
    NFKD normalisation followed by the re-encoding that drops what is not
    ASCII; the Unicode tables are not part of the program. *)
Definition secure_filename (ascii_nfkd : string -> string) (filename : string)
  : string :=
  let filename := ascii_nfkd filename in
  let filename := PyStr.replace "/" " " filename in
  PyStr.strip_with dot_or_underscore
    (PyStr.keep filename_char (PyStr.join "_" (PyStr.words filename))).

(** [safe_join(directory, filename)] on a POSIX system, where there is no
    alternative separator. *)
Definition safe_join (directory filename : string) : option string :=
  let directory := if bool_decide (directory = "") then "." else directory in
  let filename :=
    if bool_decide (filename <> "") then PosixPath.normpath filename
    else filename in
  if PosixPath.isabs filename
     || bool_decide (filename = "..")
     || PyStr.startswith "../" filename
  then None
  else Some (PosixPath.join directory filename).

End Werkzeug.

(** ** Requests, responses and the world *)

Inductive http_method := GET | POST.

Record file_storage := {
  upload_filename : string;
  upload_content : list byte }.

Record request := {
  req_method : http_method;
  req_form : gmap string string;
  req_files : gmap string file_storage }.

Inductive endpoint :=
  | Index
  | ContractDetail (contract_id : Z)
  | VendorList
  | RequestUrl.

Inductive response :=
  | Redirect (flash : string) (target : endpoint)
  | Render (template : string)
  | SendFile (content : list byte)
  | NotFound
  | InternalServerError (e : exn).

Global Instance byte_eq_dec : EqDecision byte := Byte.byte_eq_dec.
Global Instance exn_eq_dec : EqDecision exn.
Proof. solve_decision. Defined.
Global Instance endpoint_eq_dec : EqDecision endpoint.
Proof. solve_decision. Defined.
Global Instance response_eq_dec : EqDecision response.
Proof. solve_decision. Defined.

(** The database file and the file system. *)
Record world := {
  db : database;
  files : gmap string (list byte) }.

Definition put_db (d : database) (w : world) : world :=
  {| db := d; files := files w |}.
Definition put_files (f : gmap string (list byte)) (w : world) : world :=
  {| db := db w; files := f |}.

(** [x or default] on the result of [form.get]. *)
Definition or_default (x : option string) (default : string) : string :=
  match x with
  | Some s => if PyStr.truthy s then s else default
  | None => default
  end.

(** [x or None] *)
Definition or_none (x : option string) : option string :=
  match x with
  | Some s => if PyStr.truthy s then Some s else None
  | None => None
  end.

(** ** Audit events *)

(** [record_audit]: one [INSERT INTO audit_events], committed on its own
    connection; [now] is the reading of [now_ts()]. *)
Definition record_audit (now : string) (contract_id : option Z)
    (action actor details : string) (d : database) : database :=
  let rowid := next_rowid (audit_events_seq d) (audit_id <$> audit_events d) in
  put_audit_events
    (audit_events d ++
       [{| audit_id := rowid; audit_contract_id := contract_id;
           audit_action := action; audit_actor := actor;
           audit_created_at := now; audit_details := details |}])
    rowid d.

(** [audit_log]: every audit event with the title of its contract, if any,
    [ORDER BY audit_events.created_at DESC]. *)
Definition audit_log (d : database) : list (audit_row * option string) :=
  order_by (desc (fun r => audit_created_at (fst r)))
    (a ← audit_events d;
     match filter (fun c => Some (contract_id c) = audit_contract_id a) (contracts d) with
     | [] => [(a, None)]
     | cs => (fun c => (a, Some (contract_title c))) <$> cs
     end).

(** The audit query of [contract_detail]:
    [WHERE contract_id = ? ORDER BY created_at DESC]. *)
Definition contract_audits (cid : Z) (d : database) : list audit_row :=
  order_by (desc audit_created_at)
    (filter (fun a => audit_contract_id a = Some cid) (audit_events d)).

(** The document query of [contract_detail]:
    [WHERE contract_id = ? ORDER BY version DESC]. *)
Definition contract_documents (cid : Z) (d : database) : list document_row :=
  order_by (desc_int document_version)
    (filter (fun r => document_contract_id r = cid) (documents d)).

(** The extraction query of [contract_detail]:
    [WHERE contract_id = ? ORDER BY created_at DESC]. *)
Definition contract_extractions (cid : Z) (d : database) : list extraction_row :=
  order_by (desc extraction_created_at)
    (filter (fun r => extraction_contract_id r = cid) (extractions d)).

(** [get_contract]: the contract row with that id, if any.  The
    [vendor_name] column that the left join adds to it is left out. *)
Definition get_contract (cid : Z) (d : database) : option contract_row :=
  head (filter (fun c => contract_id c = cid) (contracts d)).



(** ** Documents *)

(** [SELECT COALESCE(MAX(version), 0) + 1 FROM documents WHERE contract_id = ?] *)
Definition next_version (cid : Z) (d : database) : Z :=
  match document_version <$> filter (fun r => document_contract_id r = cid) (documents d) with
  | [] => 0 + 1
  | v :: vs => foldr Z.max v vs + 1
  end.

(** The [INSERT INTO documents] of [document_new]. *)
Definition insert_document (cid : Z) (filename stored_name : string) (version : Z)
    (now sha256 : string) (d : database) : database :=
  let rowid := next_rowid (documents_seq d) (document_id <$> documents d) in
  put_documents
    (documents d ++
       [{| document_id := rowid; document_contract_id := cid;
           document_filename := filename; document_storage_path := stored_name;
           document_version := version; document_uploaded_at := now;
           document_sha256 := sha256 |}])
    rowid d.

(** Where an upload can be made to fail by its environment: the database
    (locked, full) or the file system.  A failed [file.save] may leave a
    file with part of the content behind. *)
Inductive fault_point :=
  | FailSelectVersion
  | FailSave (partial : option (list byte))
  | FailReadBytes
  | FailInsert
  | FailAudit.

Global Instance fault_point_eq_dec : EqDecision fault_point.
Proof. solve_decision. Defined.

Section Handlers.

(** [str(BASE_DIR)], the directory of [app.py]: an absolute path, so that
    joining the root path of the application to it changes nothing. *)
Variable BASE_DIR : string.

(** [str(UPLOAD_DIR)], also the value of [app.config["UPLOAD_FOLDER"]]. *)
Definition UPLOAD_DIR : string := PosixPath.join BASE_DIR "uploads".
Variable ascii_nfkd : string -> string.
Variable ignored_insert_consumes_rowid : bool.

Definition secure_filename := Werkzeug.secure_filename ascii_nfkd.

(** [f"{contract_id}_{version}_{filename}"] *)
Definition stored_name_of (cid version : Z) (filename : string) : string :=
  PyStr.str_of_int cid +:+ "_" +:+ PyStr.str_of_int version +:+ "_" +:+ filename.

(** [document_new].  [now] is the clock when the document row is written
    and [now'] when the audit event is; [fault] is the step the
    environment makes fail, if any. *)
Definition document_new (now now' : string) (fault : option fault_point)
    (cid : Z) (req : request) (w : world) : response * world :=
  match get_contract cid (db w) with
  | None => (Redirect "Contract not found." Index, w)
  | Some _ =>
    match req_method req with
    | GET => (Render "document_form.html", w)
    | POST =>
      let actor := or_default (req_form req !! "actor") "system" in
      match req_files req !! "document" with
      | None => (Redirect "Select a document to upload." RequestUrl, w)
      | Some file =>
        if negb (PyStr.truthy (upload_filename file))
        then (Redirect "Select a document to upload." RequestUrl, w)
        else
          let filename := secure_filename (upload_filename file) in
          if bool_decide (fault = Some FailSelectVersion)
          then (InternalServerError OperationalError, w)
          else
            let version := next_version cid (db w) in
            let stored_name := stored_name_of cid version filename in
            let storage_path := PosixPath.join UPLOAD_DIR stored_name in
            match fault with
            | Some (FailSave partial) =>
                (InternalServerError OSError,
                 match partial with
                 | Some bytes => put_files (<[storage_path := bytes]> (files w)) w
                 | None => w
                 end)
            | _ =>
              let w1 := put_files (<[storage_path := upload_content file]> (files w)) w in
              if bool_decide (fault = Some FailReadBytes)
              then (InternalServerError OSError, w1)
              else
                match files w1 !! storage_path with
                | None => (InternalServerError OSError, w1)
                | Some bytes =>
                  let sha256 := SHA256.hexdigest bytes in
                  if bool_decide (fault = Some FailInsert)
                  then (InternalServerError OperationalError, w1)
                  else
                    let w2 :=
                      put_db (insert_document cid filename stored_name version
                                now sha256 (db w1)) w1 in
                    if bool_decide (fault = Some FailAudit)
                    then (InternalServerError OperationalError, w2)
                    else
                      (Redirect "Document uploaded." (ContractDetail cid),
                       put_db (record_audit now' (Some cid) "Uploaded document" actor
                                 ("Document " +:+ filename +:+ " v"
                                  +:+ PyStr.str_of_int version) (db w2)) w2)
                end
            end
      end
    end
  end.

(** [document_download]: [send_from_directory] joins the name to the
    upload folder with [safe_join] and sends the file found there. *)
Definition document_download (filename : string) (w : world) : response :=
  match Werkzeug.safe_join UPLOAD_DIR filename with
  | None => NotFound
  | Some path =>
      match files w !! path with
      | None => NotFound
      | Some bytes => SendFile bytes
      end
  end.

(** ** Vendors *)

Definition vendor_new (now now' : string) (req : request) (d : database)
  : response * database :=
  match req_method req with
  | GET => (Render "vendor_form.html", d)
  | POST =>
      let form := req_form req in
      match form !! "name" with
      | None => (InternalServerError IntegrityError, d)
      | Some name =>
          let vendor_id := next_rowid (vendors_seq d) (vendor_id <$> vendors d) in
          let d1 :=
            put_vendors
              (vendors d ++
                 [{| vendor_id := vendor_id; vendor_name := name;
                     vendor_risk_profile := or_none (form !! "risk_profile");
                     vendor_status := or_none (form !! "status");
                     vendor_created_at := now |}])
              vendor_id d in
          (Redirect "Vendor created." VendorList,
           record_audit now' None "Created vendor" (or_default (form !! "actor") "system")
             ("Vendor " +:+ PyStr.str_of_int vendor_id) d1)
      end
  end.

Definition vendor_edit (now' : string) (vid : Z) (req : request) (d : database)
  : response * database :=
  match head (filter (fun v => vendor_id v = vid) (vendors d)) with
  | None => (Redirect "Vendor not found." VendorList, d)
  | Some vendor =>
    match req_method req with
    | GET => (Render "vendor_form.html", d)
    | POST =>
        let form := req_form req in
        match form !! "name" with
        | None => (InternalServerError IntegrityError, d)
        | Some name =>
            let d1 :=
              put_vendors
                ((fun v =>
                    if bool_decide (vendor_id v = vid)
                    then {| vendor_id := vendor_id v; vendor_name := name;
                            vendor_risk_profile := or_none (form !! "risk_profile");
                            vendor_status := or_none (form !! "status");
                            vendor_created_at := vendor_created_at v |}
                    else v) <$> vendors d)
                (vendors_seq d) d in
            (Redirect "Vendor updated." VendorList,
             record_audit now' None "Updated vendor" (or_default (form !! "actor") "system")
               ("Vendor " +:+ PyStr.str_of_int vid) d1)
        end
    end
  end.

(** ** Extractions *)

Definition extraction_new (now now' : string) (cid : Z) (req : request) (d : database)
  : response * database :=
  match get_contract cid d with
  | None => (Redirect "Contract not found." Index, d)
  | Some _ =>
    match req_method req with
    | GET => (Render "extraction_form.html", d)
    | POST =>
        let form := req_form req in
        match form !! "extracted_fields", form !! "status" with
        | Some extracted_fields, Some status =>
            let rowid := next_rowid (extractions_seq d) (extraction_id <$> extractions d) in
            let d1 :=
              put_extractions
                (extractions d ++
                   [{| extraction_id := rowid; extraction_contract_id := cid;
                       extraction_extracted_fields := extracted_fields;
                       extraction_status := status;
                       extraction_approver := or_none (form !! "approver");
                       extraction_created_at := now |}])
                rowid d in
            (Redirect "Extraction logged." (ContractDetail cid),
             record_audit now' (Some cid) "Logged extraction"
               (or_default (form !! "actor") "system") "" d1)
        | _, _ => (InternalServerError IntegrityError, d)
        end
    end
  end.

(** ** Contracts *)

(** [[tag for tag in form.get("tags", "").split(",") if tag.strip()]] *)
Definition form_tags (form : gmap string string) : list string :=
  filter (fun tag => PyStr.truthy (PyStr.strip tag) = true)
    (PyStr.split "," (default "" (form !! "tags"))).

(** The column values of the contract forms; [None] when a NOT NULL
    column would get no value. *)
Definition contract_of_form (form : gmap string string) (id : Z)
    (created_at updated_at : string) : option contract_row :=
  title ← form !! "title";
  owner ← form !! "owner";
  state ← form !! "state";
  Some {| contract_id := id; contract_title := title;
          contract_vendor_id := or_none (form !! "vendor_id");
          contract_owner := owner; contract_state := state;
          contract_effective_date := or_none (form !! "effective_date");
          contract_termination_date := or_none (form !! "termination_date");
          contract_notice_period_days := or_none (form !! "notice_period_days");
          contract_renewal_intent := or_none (form !! "renewal_intent");
          contract_sensitive := if PyStr.truthy (default "" (form !! "sensitive")) then 1 else 0;
          contract_created_at := created_at;
          contract_updated_at := updated_at |}.

(** [contract_new].  Its [INSERT] is still uncommitted when [upsert_tags]
    opens a second connection and tries to write, so that call finds the
    database busy; its exception leaves the [with] block of the handler,
    which rolls the [INSERT] back. *)
Definition contract_new (now now' : string) (req : request) (d : database)
  : response * database :=
  match req_method req with
  | GET => (Render "contract_form.html", d)
  | POST =>
      let form := req_form req in
      let tags := form_tags form in
      let contract_id := next_rowid (contracts_seq d) (contract_id <$> contracts d) in
      match contract_of_form form contract_id now now with
      | None => (InternalServerError IntegrityError, d)
      | Some row =>
          match upsert_tags ignored_insert_consumes_rowid true contract_id tags d with
          | Raised e => (InternalServerError e, d)
          | Ok d1 =>
              let d2 := put_contracts (contracts d1 ++ [row]) contract_id d1 in
              (Redirect "Contract created." (ContractDetail contract_id),
               record_audit now' (Some contract_id) "Created contract"
                 (or_default (form !! "actor") "system") "" d2)
          end
      end
  end.

(** [contract_edit]: as [contract_new], with an [UPDATE] for the
    [INSERT]. *)
Definition contract_edit (now now' : string) (cid : Z) (req : request) (d : database)
  : response * database :=
  match get_contract cid d with
  | None => (Redirect "Contract not found." Index, d)
  | Some contract =>
    match req_method req with
    | GET => (Render "contract_form.html", d)
    | POST =>
        let form := req_form req in
        let tags := form_tags form in
        match contract_of_form form cid (contract_created_at contract) now with
        | None => (InternalServerError IntegrityError, d)
        | Some row =>
            match upsert_tags ignored_insert_consumes_rowid true cid tags d with
            | Raised e => (InternalServerError e, d)
            | Ok d1 =>
                let d2 :=
                  put_contracts
                    ((fun c => if bool_decide (contract_id c = cid) then row else c)
                       <$> contracts d1)
                    (contracts_seq d1) d1 in
                (Redirect "Contract updated." (ContractDetail cid),
                 record_audit now' (Some cid) "Updated contract"
                   (or_default (form !! "actor") "system") "" d2)
            end
        end
    end
  end.

(** ** Interleaved uploads

    [document_new] commits three times (the version query, the document
    insert, the audit insert) and touches the file system in between, so
    a second request can run between any two of these steps.  A caller is
    a program counter over the steps of [document_new]. *)

Inductive upload_pc :=
  | AtStart
  | Checked (actor filename : string) (content : list byte)
  | Versioned (actor filename : string) (content : list byte) (version : Z)
  | Saved (actor filename : string) (version : Z)
  | Hashed (actor filename : string) (version : Z) (sha256 : string)
  | Inserted (actor filename : string) (version : Z)
  | Finished (r : response).

Definition upload_step (now now' : string) (fault : option fault_point)
    (cid : Z) (req : request) (pc : upload_pc) (w : world) : upload_pc * world :=
  match pc with
  | AtStart =>
      match get_contract cid (db w) with
      | None => (Finished (Redirect "Contract not found." Index), w)
      | Some _ =>
        match req_method req with
        | GET => (Finished (Render "document_form.html"), w)
        | POST =>
          let actor := or_default (req_form req !! "actor") "system" in
          match req_files req !! "document" with
          | None => (Finished (Redirect "Select a document to upload." RequestUrl), w)
          | Some file =>
            if negb (PyStr.truthy (upload_filename file))
            then (Finished (Redirect "Select a document to upload." RequestUrl), w)
            else (Checked actor (secure_filename (upload_filename file))
                    (upload_content file), w)
          end
        end
      end
  | Checked actor filename content =>
      if bool_decide (fault = Some FailSelectVersion)
      then (Finished (InternalServerError OperationalError), w)
      else (Versioned actor filename content (next_version cid (db w)), w)
  | Versioned actor filename content version =>
      let storage_path := PosixPath.join UPLOAD_DIR (stored_name_of cid version filename) in
      match fault with
      | Some (FailSave partial) =>
          (Finished (InternalServerError OSError),
           match partial with
           | Some bytes => put_files (<[storage_path := bytes]> (files w)) w
           | None => w
           end)
      | _ => (Saved actor filename version,
              put_files (<[storage_path := content]> (files w)) w)
      end
  | Saved actor filename version =>
      let storage_path := PosixPath.join UPLOAD_DIR (stored_name_of cid version filename) in
      if bool_decide (fault = Some FailReadBytes)
      then (Finished (InternalServerError OSError), w)
      else
        match files w !! storage_path with
        | None => (Finished (InternalServerError OSError), w)
        | Some bytes => (Hashed actor filename version (SHA256.hexdigest bytes), w)
        end
  | Hashed actor filename version sha256 =>
      if bool_decide (fault = Some FailInsert)
      then (Finished (InternalServerError OperationalError), w)
      else (Inserted actor filename version,
            put_db (insert_document cid filename (stored_name_of cid version filename)
                      version now sha256 (db w)) w)
  | Inserted actor filename version =>
      if bool_decide (fault = Some FailAudit)
      then (Finished (InternalServerError OperationalError), w)
      else (Finished (Redirect "Document uploaded." (ContractDetail cid)),
            put_db (record_audit now' (Some cid) "Uploaded document" actor
                      ("Document " +:+ filename +:+ " v" +:+ PyStr.str_of_int version)
                      (db w)) w)
  | Finished r => (Finished r, w)
  end.

(** One caller: its request and what its environment does to it. *)
Record caller := {
  caller_now : string;
  caller_now' : string;
  caller_fault : option fault_point;
  caller_contract : Z;
  caller_request : request }.

Definition caller_step (c : caller) : upload_pc -> world -> upload_pc * world :=
  upload_step (caller_now c) (caller_now' c) (caller_fault c)
    (caller_contract c) (caller_request c).

(** Two callers under a schedule: [true] lets the first one take its next
    step, [false] the second. *)
Fixpoint interleave (a b : caller) (schedule : list bool)
    (st : upload_pc * upload_pc * world) : upload_pc * upload_pc * world :=
  match schedule with
  | [] => st
  | turn :: rest =>
      let '(pa, pb, w) := st in
      if turn : bool
      then let '(pa', w') := caller_step a pa w in interleave a b rest (pa', pb, w')
      else let '(pb', w') := caller_step b pb w in interleave a b rest (pa, pb', w')
  end.

(** The versions recorded for a contract, in rowid order. *)
Definition versions_of (cid : Z) (d : database) : list Z :=
  document_version <$> filter (fun r => document_contract_id r = cid) (documents d).

(** A sequence of uploads to one contract, each made after the previous
    one returned; [None] as soon as one of them is not answered with the
    redirect of a successful upload. *)
Record upload := {
  upload_now : string;
  upload_now' : string;
  upload_fault : option fault_point;
  upload_request : request }.

Definition uploaded (cid : Z) : response :=
  Redirect "Document uploaded." (ContractDetail cid).

Fixpoint upload_all (cid : Z) (us : list upload) (w : world) : option world :=
  match us with
  | [] => Some w
  | u :: rest =>
      let '(r, w') :=
        document_new (upload_now u) (upload_now' u) (upload_fault u) cid
          (upload_request u) w in
      if bool_decide (r = uploaded cid) then upload_all cid rest w' else None
  end.

(** ** Calls

    The operations of the application, made one after the other: the
    requests to the handlers, and [upsert_tags] and [record_audit] called
    on their own. *)

Inductive call :=
  | DocumentNew (now now' : string) (fault : option fault_point) (cid : Z)
      (req : request)
  | DocumentDownload (filename : string)
  | VendorNew (now now' : string) (req : request)
  | VendorEdit (now' : string) (vid : Z) (req : request)
  | ContractNew (now now' : string) (req : request)
  | ContractEdit (now now' : string) (cid : Z) (req : request)
  | ExtractionNew (now now' : string) (cid : Z) (req : request)
  | UpsertTags (cid : Z) (tag_names : list string)
  | RecordAudit (now : string) (cid : option Z) (action actor details : string).

Inductive outcome :=
  | Responded (r : response)
  | Returned
  | Raise (e : exn).

Definition on_db (f : database -> response * database) (w : world)
  : outcome * world :=
  let '(r, d) := f (db w) in (Responded r, put_db d w).

Definition perform (c : call) (w : world) : outcome * world :=
  match c with
  | DocumentNew now now' fault cid req =>
      let '(r, w') := document_new now now' fault cid req w in (Responded r, w')
  | DocumentDownload filename => (Responded (document_download filename w), w)
  | VendorNew now now' req => on_db (vendor_new now now' req) w
  | VendorEdit now' vid req => on_db (vendor_edit now' vid req) w
  | ContractNew now now' req => on_db (contract_new now now' req) w
  | ContractEdit now now' cid req => on_db (contract_edit now now' cid req) w
  | ExtractionNew now now' cid req => on_db (extraction_new now now' cid req) w
  | UpsertTags cid tag_names =>
      match upsert_tags ignored_insert_consumes_rowid false cid tag_names (db w) with
      | Ok d => (Returned, put_db d w)
      | Raised e => (Raise e, w)
      end
  | RecordAudit now cid action actor details =>
      (Returned, put_db (record_audit now cid action actor details (db w)) w)
  end.

Definition run (calls : list call) (w : world) : world :=
  fold_left (fun w c => snd (perform c w)) calls w.

(** The flash messages of the handlers that changed a document, a vendor,
    a contract or an extraction. *)
Definition success_messages : list string :=
  ["Document uploaded."; "Vendor created."; "Vendor updated.";
   "Contract created."; "Contract updated."; "Extraction logged."].

(** A call that has to leave one audit event: a request answered with one
    of the success messages, or [record_audit] itself. *)
Definition audited (c : call) (o : outcome) : bool :=
  match c, o with
  | RecordAudit _ _ _ _ _, _ => true
  | _, Responded (Redirect flash _) => bool_decide (flash ∈ success_messages)
  | _, _ => false
  end.

Fixpoint count_audited (calls : list call) (w : world) : nat :=
  match calls with
  | [] => 0
  | c :: rest =>
      let '(o, w') := perform c w in
      ((if audited c o then 1 else 0) + count_audited rest w')%nat
  end.

End Handlers.

(** ** Notions used in the statements and in their proofs *)

(** [before le T x y]: a stable sort by [le] of rows listed in the order [T]
    may put [x] right before [y]. *)
Definition before {A} (le : A -> A -> bool) (T : A -> A -> Prop) (x y : A) : Prop :=
  le x y = true /\ (le y x = true -> T x y).

(** The schema constraints of the tag tables: [tags.id] is the primary key,
    [tags.name] is UNIQUE, and so is the pair of a [contract_tags] row. *)
Definition tags_wf (d : database) : Prop :=
  NoDup (tag_id <$> tags d) /\ NoDup (tag_name <$> tags d) /\ NoDup (contract_tags d).

(** The [tags] rows after [INSERT OR IGNORE INTO tags]. *)
Definition tags_after (name : string) (rows : list tag_row) (seq : Z) : list tag_row :=
  if bool_decide (name ∈ tag_name <$> rows) then rows
  else rows ++ [{| tag_id := next_rowid seq (tag_id <$> rows); tag_name := name |}].

(** The id that [SELECT id FROM tags WHERE name = ?] finds. *)
Definition first_id (name : string) (rows : list tag_row) : option Z :=
  tag_id <$> head (filter (fun t => tag_name t = name) rows).

(** The [contract_tags] rows after [INSERT OR IGNORE INTO contract_tags]. *)
Definition link_after (cid tid : Z) (rows : list contract_tag_row) :=
  if bool_decide ({| ct_contract_id := cid; ct_tag_id := tid |} ∈ rows) then rows
  else rows ++ [{| ct_contract_id := cid; ct_tag_id := tid |}].

(** The contract is associated with the tag that the name selects. *)
Definition linked (cid : Z) (name : string) (d : database) : Prop :=
  exists tid, first_id name (tags d) = Some tid
              /\ {| ct_contract_id := cid; ct_tag_id := tid |} ∈ contract_tags d.

(** The associations of a contract are those of the given names. *)
Definition associations (cid : Z) (names : list string) (d : database) : Prop :=
  (forall tid, {| ct_contract_id := cid; ct_tag_id := tid |} ∈ contract_tags d ->
               exists n, n ∈ names /\ first_id n (tags d) = Some tid)
  /\ (forall n, n ∈ names -> linked cid n d).

(** One iteration of the loop for a cleaned, non-empty name. *)
Definition iteration (bump : bool) (cid : Z) (cleaned : string) (d : database) : database :=
  match select_tag_id cleaned (insert_or_ignore_tag bump cleaned d) with
  | Some tid => insert_or_ignore_contract_tag cid tid (insert_or_ignore_tag bump cleaned d)
  | None => d
  end.

(** [audit_events.id] grows with the rowid order of the table. *)
Definition audit_ids_ascending (d : database) : Prop :=
  StronglySorted (fun a b => audit_id a < audit_id b) (audit_events d).

(** [contracts.id] is the primary key. *)
Definition contracts_wf (d : database) : Prop :=
  NoDup (contract_id <$> contracts d).

(** Newest first, for the order by [created_at] with ties broken by [id]:
    the event listed first is the newer of the two. *)
Definition newer (a b : audit_row) : Prop :=
  String.ltb (audit_created_at b) (audit_created_at a) = true
  \/ (audit_created_at a = audit_created_at b /\ audit_id b < audit_id a).

(** What the listings keep to: [created_at] does not grow, and events with
    the same [created_at] come in the order of their ids. *)
Definition listed_before (a b : audit_row) : Prop :=
  String.leb (audit_created_at b) (audit_created_at a) = true
  /\ (audit_created_at a = audit_created_at b -> audit_id a < audit_id b).

(** The file name under which an upload to the contract is stored, the
    database after its [INSERT INTO documents], and the database after its
    audit event. *)
Definition upload_stored_name (ascii_nfkd : string -> string) (cid : Z)
    (file : file_storage) (d : database) : string :=
  stored_name_of cid (next_version cid d)
    (secure_filename ascii_nfkd (upload_filename file)).

Definition upload_inserted (ascii_nfkd : string -> string) (now : string) (cid : Z)
    (file : file_storage) (d : database) : database :=
  insert_document cid (secure_filename ascii_nfkd (upload_filename file))
    (upload_stored_name ascii_nfkd cid file d) (next_version cid d) now
    (SHA256.hexdigest (upload_content file)) d.

Definition upload_audited (ascii_nfkd : string -> string) (now now' : string) (cid : Z)
    (req : request) (file : file_storage) (d : database) : database :=
  record_audit now' (Some cid) "Uploaded document"
    (or_default (req_form req !! "actor") "system")
    ("Document " +:+ secure_filename ascii_nfkd (upload_filename file) +:+ " v"
     +:+ PyStr.str_of_int (next_version cid d))
    (upload_inserted ascii_nfkd now cid file d).

(** The answers of [document_new] when no document row is written. *)
Definition upload_refusals : list response :=
  [Redirect "Contract not found." Index;
   Render "document_form.html";
   Redirect "Select a document to upload." RequestUrl;
   InternalServerError OperationalError;
   InternalServerError OSError].

(** The characters of a string. *)
Definition chars (s : string) : list ascii := list_ascii_of_string s.
Global Arguments chars : simpl never.

(** A path component that cannot leave the directory it is looked up in. *)
Definition stays_inside (comp : string) : Prop :=
  comp <> ".." /\ "/"%char ∉ chars comp.

(** The characters of a decimal numeral: the digits and the sign. *)
Definition decimal_char (c : ascii) : bool :=
  let n := N_of_ascii c in ((48 <=? n) && (n <=? 57) || (n =? 45))%N.

(** What [normpath] keeps of a relative path while it reads its components:
    either the list starts with [..], or no component is [..]. *)
Definition normalised (comps : list string) : Prop :=
  Forall (fun c => "/"%char ∉ chars c) comps
  /\ (head comps = Some ".." \/ Forall (fun c => c <> "..") comps).

(** The directory [safe_join] joins to, and the path of the file that a
    list of components names under it. *)
Definition root_of (directory : string) : string :=
  if bool_decide (directory = "") then "." else directory.

Definition under (directory : string) (comps : list string) : string :=
  root_of directory
  +:+ (if PyStr.endswith "/" (root_of directory) then "" else "/")
  +:+ PyStr.join "/" comps.

(** Every document row names a file of the upload directory that holds the
    bytes its hash was computed from; the name is the one [document_new]
    derives from the contract, the version and a sanitised file name. *)
Definition stored_intact (BASE_DIR : string) (w : world) : Prop :=
  forall r, r ∈ documents (db w) ->
    (exists f, ("/"%char ∉ chars f)
               /\ document_storage_path r =
                  stored_name_of (document_contract_id r) (document_version r) f)
    /\ exists bytes,
         files w !! PosixPath.join (UPLOAD_DIR BASE_DIR) (document_storage_path r)
         = Some bytes
         /\ SHA256.hexdigest bytes = document_sha256 r.

(** A caller left alone for [n] steps. *)
Fixpoint run_alone (BASE_DIR : string) (ascii_nfkd : string -> string) (c : caller)
    (n : nat) (pc : upload_pc) (w : world) : upload_pc * world :=
  match n with
  | O => (pc, w)
  | S n' =>
      let '(pc', w') := caller_step BASE_DIR ascii_nfkd c pc w in
      run_alone BASE_DIR ascii_nfkd c n' pc' w'
  end.

(** Where a caller stands with respect to its version query and its
    insert. *)
Definition before_read (pc : upload_pc) : Prop :=
  match pc with
  | AtStart | Checked _ _ _ => True
  | _ => False
  end.

Definition past_insert (pc : upload_pc) : Prop :=
  match pc with
  | Inserted _ _ _ | Finished _ => True
  | _ => False
  end.

(** The version a caller holds between its query and its insert is above
    every version the contract has. *)
Definition holds_fresh_version (cid : Z) (pc : upload_pc) (d : database) : Prop :=
  match pc with
  | Versioned _ _ _ v | Saved _ _ v | Hashed _ _ v _ =>
      forall x, x ∈ versions_of cid d -> x < v
  | _ => True
  end.

(** ** A small installation, for the examples

    The application lives in [/srv/app]; the database holds one contract
    and nothing else, and the upload directory is empty. *)

Module Example.

Definition base_dir : string := "/srv/app".

Definition contract : contract_row :=
  {| contract_id := 1; contract_title := "Master services agreement";
     contract_vendor_id := None; contract_owner := "legal";
     contract_state := "Active"; contract_effective_date := None;
     contract_termination_date := None; contract_notice_period_days := None;
     contract_renewal_intent := None; contract_sensitive := 0;
     contract_created_at := "2024-05-01T09:00:00";
     contract_updated_at := "2024-05-01T09:00:00" |}.

Definition db0 : database := put_contracts [contract] 1 init_db.

Definition w0 : world := {| db := db0; files := ∅ |}.

(** A POST of a file to [/contracts/1/documents/new]. *)
Definition post (filename : string) (content : string) : request :=
  {| req_method := POST;
     req_form := {["actor" := "alice"]};
     req_files := {["document" := {| upload_filename := filename;
                                     upload_content := bytes_of content |}]} |}.

Definition upload (filename content : string) : upload :=
  {| upload_now := "2024-05-02T10:00:00"; upload_now' := "2024-05-02T10:00:00";
     upload_fault := None; upload_request := post filename content |}.

Definition caller (filename content : string) : caller :=
  {| caller_now := "2024-05-02T10:00:00"; caller_now' := "2024-05-02T10:00:00";
     caller_fault := None; caller_contract := 1;
     caller_request := post filename content |}.

(** The world after [msa.pdf] with the bytes [abc] was uploaded. *)
Definition w1 : world :=
  (document_new base_dir id "2024-05-02T10:00:00" "2024-05-02T10:00:00" None 1
     (post "msa.pdf" "abc") w0).2.

(** Both callers run their version query before either inserts. *)
Definition racing_schedule : list bool :=
  [true; true; false; false; true; true; true; true; false; false; false; false].

(** Two audit events written within the same second. *)
Definition two_events : database :=
  record_audit "2024-05-02T10:00:00" (Some 1) "Uploaded document" "alice" "Document msa.pdf v1"
    (record_audit "2024-05-02T10:00:00" (Some 1) "Created contract" "alice" "" db0).

End Example.

(** The constraints that the schema and the rowid allocation keep. *)
Definition db_wf (d : database) : Prop :=
  tags_wf d /\ contracts_wf d /\ audit_ids_ascending d.

(** ** The clock, the listings and the forms

    The parts of [app.py] that the handlers above take as given: the text
    of a time stamp, the queries behind the vendor list and the dashboard,
    and the tag field of the contract form. *)

(** The fields of the naive [datetime] that [datetime.utcnow()] returns;
    the microseconds are dropped by [timespec="seconds"]. *)
Record datetime := {
  year : Z;
  month : Z;
  day : Z;
  hour : Z;
  minute : Z;
  second : Z }.

(** The ranges that the [datetime] constructor checks; the day is checked
    against the longest month only. *)
Definition datetime_ok (t : datetime) : Prop :=
  1 <= year t <= 9999 /\ 1 <= month t <= 12 /\ 1 <= day t <= 31
  /\ 0 <= hour t < 24 /\ 0 <= minute t < 60 /\ 0 <= second t < 60.

(** The conversion [%0<width>d] of a number that is not negative: its
    decimal digits, with zeros before them up to the width. *)
Definition zero_padded (width : nat) (n : Z) : string :=
  let digits := PyStr.str_of_int n in
  PyStr.join "" (repeat "0" (width - String.length digits)) +:+ digits.

(** [t.isoformat(timespec="seconds")] *)
Definition isoformat_seconds (t : datetime) : string :=
  zero_padded 4 (year t) +:+ "-" +:+ zero_padded 2 (month t) +:+ "-"
  +:+ zero_padded 2 (day t) +:+ "T" +:+ zero_padded 2 (hour t) +:+ ":"
  +:+ zero_padded 2 (minute t) +:+ ":" +:+ zero_padded 2 (second t).

(** [now_ts], given the reading of the clock. *)
Definition now_ts (utcnow : datetime) : string := isoformat_seconds utcnow.

(** The order of two readings of the clock. *)
Definition earlier (a b : datetime) : Prop :=
  year a < year b
  \/ (year a = year b
      /\ (month a < month b
          \/ (month a = month b
              /\ (day a < day b
                  \/ (day a = day b
                      /\ (hour a < hour b
                          \/ (hour a = hour b
                              /\ (minute a < minute b
                                  \/ (minute a = minute b
                                      /\ second a < second b))))))))).

(** [list_vendors]: [SELECT * FROM vendors ORDER BY name]; [vendor_list]
    hands the rows to its template, and the contract forms offer them. *)
Definition list_vendors (d : database) : list vendor_row :=
  order_by (asc vendor_name) (vendors d).

(** The second query of [index]: the number of contracts in each state,
    [GROUP BY state ORDER BY state].  A group is a state that some contract
    has, and its total the number of the contracts that have it. *)
Definition index_stats (d : database) : list (string * Z) :=
  order_by (asc fst)
    ((fun state =>
        (state, Z.of_nat (length (filter (fun c => contract_state c = state)
                                    (contracts d)))))
       <$> remove_dups (contract_state <$> contracts d)).

(** The [tags] field of the form that [contract_edit] renders on a GET:
    [", ".join(get_contract_tags(contract_id))]. *)
Definition contract_edit_tags (cid : Z) (d : database) : string :=
  PyStr.join ", " (get_contract_tags cid d).

(** The title that the left join of [audit_log] puts beside an event. *)
Definition contract_title_of (a : audit_row) (d : database) : option string :=
  cid ← audit_contract_id a; contract_title <$> get_contract cid d.

(** The request of a call, for the calls that are requests with a method. *)
Definition call_method (c : call) : option http_method :=
  match c with
  | DocumentNew _ _ _ _ req | VendorNew _ _ req | VendorEdit _ _ req
  | ContractNew _ _ req | ContractEdit _ _ _ req | ExtractionNew _ _ _ req =>
      Some (req_method req)
  | DocumentDownload _ => Some GET
  | UpsertTags _ _ | RecordAudit _ _ _ _ _ => None
  end.

(** The form of a call, for the calls that are requests with a form. *)
Definition call_form (c : call) : option (gmap string string) :=
  match c with
  | DocumentNew _ _ _ _ req | VendorNew _ _ req | VendorEdit _ _ req
  | ContractNew _ _ req | ContractEdit _ _ _ req | ExtractionNew _ _ _ req =>
      Some (req_form req)
  | DocumentDownload _ | UpsertTags _ _ | RecordAudit _ _ _ _ _ => None
  end.

(** [FOREIGN KEY (tag_id) REFERENCES tags (id)]: every association names a
    tag of the vocabulary. *)
Definition tags_referenced (d : database) : Prop :=
  forall ct, ct ∈ contract_tags d -> ct_tag_id ct ∈ tag_id <$> tags d.

(** A name as [upsert_tags] stores it: trimmed, and not empty. *)
Definition clean_name (n : string) : Prop := n <> "" /\ PyStr.strip n = n.

(** [vendors.id] is the primary key. *)
Definition vendors_wf (d : database) : Prop := NoDup (vendor_id <$> vendors d).

(** The versions of a contract are [1..n] in the order of the uploads. *)
Definition versions_sequential (cid : Z) (d : database) : Prop :=
  versions_of cid d = Z.of_nat <$> seq 1 (length (versions_of cid d)).

(** A world without documents and without contracts' files: the database of
    [init_db] beside an empty upload directory. *)
Definition fresh_world : world := {| db := init_db; files := ∅ |}.

(** Every document has a file and a storage name of its own, an id of its
    own, and a version that no other document of its contract has. *)
Definition documents_apart (BASE_DIR : string) (w : world) : Prop :=
  stored_intact BASE_DIR w
  /\ NoDup (document_id <$> documents (db w))
  /\ NoDup ((fun r => (document_contract_id r, document_version r)) <$> documents (db w)).

(** What the schema declares and the code relies on. *)
Definition schema_kept (d : database) : Prop :=
  db_wf d /\ vendors_wf d /\ tags_referenced d
  /\ (forall n, n ∈ vocabulary d -> clean_name n).

(** The decimal digits of a number below [10 ^ width], all [width] of them. *)
Definition digit (n : Z) : ascii := ascii_of_N (Z.to_N (48 + n)).

Fixpoint fixed_digits (width : nat) (n : Z) : string :=
  match width with
  | O => ""
  | S w => fixed_digits w (n / 10) +:+ String (digit (n mod 10)) ""
  end.

(** The comparison of two readings of the clock, field by field. *)
Definition then_by (c c' : comparison) : comparison :=
  match c with Eq => c' | _ => c end.

Definition compare_datetime (a b : datetime) : comparison :=
  then_by (year a ?= year b)
    (then_by (month a ?= month b)
       (then_by (day a ?= day b)
          (then_by (hour a ?= hour b)
             (then_by (minute a ?= minute b) (second a ?= second b))))).

(** The version a caller holds between its query and its insert is the one
    the query would return now. *)
Definition holds_next_version (cid : Z) (pc : upload_pc) (d : database) : Prop :=
  match pc with
  | Versioned _ _ _ v | Saved _ _ v | Hashed _ _ v _ => v = next_version cid d
  | _ => True
  end.

(** The installation of the examples with a second contract. *)
Definition two_contracts : world :=
  {| db := put_contracts
             [Example.contract;
              {| contract_id := 2; contract_title := "Statement of work";
                 contract_vendor_id := None; contract_owner := "legal";
                 contract_state := "Draft"; contract_effective_date := None;
                 contract_termination_date := None;
                 contract_notice_period_days := None;
                 contract_renewal_intent := None; contract_sensitive := 0;
                 contract_created_at := "2024-05-01T09:30:00";
                 contract_updated_at := "2024-05-01T09:30:00" |}]
             2 init_db;
     files := ∅ |}.

(** ** Connections and the write lock

    Every [get_db()] opens a connection of its own.  SQLite lets one
    connection write at a time: the first write statement of a transaction
    takes the lock of the database file, and the connection keeps it until
    it commits or rolls back.  A write statement of another connection
    waits for the busy timeout of [sqlite3.connect] and then raises
    [OperationalError] (database is locked); the handlers of a request run
    in one thread, so the lock is not released while they wait.  Reading
    is not hindered by the lock, and sees what is committed.

    The file is what is committed, the connection that holds the lock with
    what it has written, and the number of connections opened so far. *)

Record db_file := {
  committed : database;
  uncommitted : option (nat * database);
  connections : nat }.

(** A computation over the file that returns or raises. *)
Definition sql (A : Type) : Type := db_file -> result A * db_file.

#[global] Instance sql_ret : MRet sql := fun A a f => (Ok a, f).

#[global] Instance sql_bind : MBind sql := fun A B k m f =>
  match m f with
  | (Ok a, f') => k a f'
  | (Raised e, f') => (Raised e, f')
  end.

Definition sql_raise {A} (e : exn) : sql A := fun f => (Raised e, f).

Module Conn.

(** [sqlite3.connect(DB_PATH)] *)
Definition get_db : sql nat := fun f =>
  (Ok (connections f),
   {| committed := committed f; uncommitted := uncommitted f;
      connections := S (connections f) |}).

(** The database as a connection sees it: its own uncommitted writes, and
    otherwise what is committed. *)
Definition view (conn : nat) (f : db_file) : database :=
  match uncommitted f with
  | Some (holder, d) => if bool_decide (holder = conn) then d else committed f
  | None => committed f
  end.

(** Another connection holds the lock. *)
Definition locked_out (conn : nat) (f : db_file) : bool :=
  match uncommitted f with
  | Some (holder, _) => bool_decide (holder <> conn)
  | None => false
  end.

Definition hold (conn : nat) (d : database) (f : db_file) : db_file :=
  {| committed := committed f; uncommitted := Some (conn, d);
     connections := connections f |}.

(** [conn.execute] of a [SELECT], with its [fetchone()] or [fetchall()]. *)
Definition query {A} (conn : nat) (q : database -> A) : sql A := fun f =>
  (Ok (q (view conn f)), f).

(** [conn.execute] of an [INSERT], [UPDATE] or [DELETE]: the statement
    takes the lock, or raises when another connection holds it; a
    statement that fails on a constraint changes nothing. *)
Definition execute (conn : nat) (stmt : database -> result database) : sql unit :=
  fun f =>
    if locked_out conn f then (Raised OperationalError, f)
    else match stmt (view conn f) with
         | Ok d => (Ok tt, hold conn d f)
         | Raised e => (Raised e, hold conn (view conn f) f)
         end.

Definition commit (conn : nat) (f : db_file) : db_file :=
  match uncommitted f with
  | Some (holder, d) =>
      if bool_decide (holder = conn)
      then {| committed := d; uncommitted := None; connections := connections f |}
      else f
  | None => f
  end.

Definition rollback (conn : nat) (f : db_file) : db_file :=
  match uncommitted f with
  | Some (holder, d) =>
      if bool_decide (holder = conn)
      then {| committed := committed f; uncommitted := None;
              connections := connections f |}
      else f
  | None => f
  end.

(** [with conn: body]: commit when the body returns, roll back when it
    raises, and let the exception pass. *)
Definition within {A} (conn : nat) (body : sql A) : sql A := fun f =>
  match body f with
  | (Ok a, f') => (Ok a, commit conn f')
  | (Raised e, f') => (Raised e, rollback conn f')
  end.

Section Requests.

Variable ignored_insert_consumes_rowid : bool.

(** [record_audit] *)
Definition record_audit (now : string) (contract_id : option Z)
    (action actor details : string) : sql unit :=
  conn ← get_db;
  within conn
    (execute conn (fun d => Ok (record_audit now contract_id action actor details d))).

(** [list_vendors] *)
Definition list_vendors : sql (list vendor_row) :=
  conn ← get_db; within conn (query conn list_vendors).

(** [get_contract] *)
Definition get_contract (contract_id : Z) : sql (option contract_row) :=
  conn ← get_db; within conn (query conn (get_contract contract_id)).

(** [get_contract_tags] *)
Definition get_contract_tags (contract_id : Z) : sql (list string) :=
  conn ← get_db; within conn (query conn (get_contract_tags contract_id)).

(** The loop of [upsert_tags], statement by statement. *)
Fixpoint upsert_tags_loop (conn : nat) (contract_id : Z) (tag_names : list string)
  : sql unit :=
  match tag_names with
  | [] => mret tt
  | name :: rest =>
      let cleaned := PyStr.strip name in
      if negb (PyStr.truthy cleaned) then upsert_tags_loop conn contract_id rest
      else
        _ ← execute conn
              (fun d => Ok (insert_or_ignore_tag ignored_insert_consumes_rowid cleaned d));
        row ← query conn (select_tag_id cleaned);
        match row with
        | None => sql_raise TypeError
        | Some tag_id =>
            _ ← execute conn
                  (fun d => Ok (insert_or_ignore_contract_tag contract_id tag_id d));
            upsert_tags_loop conn contract_id rest
        end
  end.

(** [upsert_tags] *)
Definition upsert_tags (contract_id : Z) (tag_names : list string) : sql unit :=
  conn ← get_db;
  within conn
    (_ ← execute conn (fun d => Ok (delete_contract_tags contract_id d));
     upsert_tags_loop conn contract_id tag_names).

(** [contract_new]: [upsert_tags] is called inside the [with] block of
    the handler, after its [INSERT]. *)
Definition contract_new (now now' : string) (req : request) : sql response :=
  _ ← list_vendors;
  match req_method req with
  | POST =>
      let form := req_form req in
      let tags := form_tags form in
      conn ← get_db;
      contract_id ←
        within conn
          (_ ← execute conn
                 (fun d =>
                    let rowid :=
                      next_rowid (contracts_seq d) (contract_id <$> contracts d) in
                    match contract_of_form form rowid now now with
                    | None => Raised IntegrityError
                    | Some row => Ok (put_contracts (contracts d ++ [row]) rowid d)
                    end);
           contract_id ← query conn contracts_seq;   (* cursor.lastrowid *)
           _ ← upsert_tags contract_id tags;
           mret contract_id);
      _ ← record_audit now' (Some contract_id) "Created contract"
            (or_default (form !! "actor") "system") "";
      mret (Redirect "Contract created." (ContractDetail contract_id))
  | GET => mret (Render "contract_form.html")
  end.

(** [contract_edit] *)
Definition contract_edit (now now' : string) (cid : Z) (req : request)
  : sql response :=
  contract ← get_contract cid;
  match contract with
  | None => mret (Redirect "Contract not found." Index)
  | Some contract =>
      _ ← list_vendors;
      match req_method req with
      | POST =>
          let form := req_form req in
          let tags := form_tags form in
          conn ← get_db;
          _ ← within conn
                (_ ← execute conn
                       (fun d =>
                          match contract_of_form form cid
                                  (contract_created_at contract) now with
                          | None => Raised IntegrityError
                          | Some row =>
                              Ok (put_contracts
                                    ((fun c =>
                                        if bool_decide (contract_id c = cid)
                                        then row else c) <$> contracts d)
                                    (contracts_seq d) d)
                          end);
                 upsert_tags cid tags);
          _ ← record_audit now' (Some cid) "Updated contract"
                (or_default (form !! "actor") "system") "";
          mret (Redirect "Contract updated." (ContractDetail cid))
      | GET =>
          _ ← get_contract_tags cid;
          mret (Render "contract_form.html")
      end
  end.

End Requests.

(** What the client gets: the response of the handler, or the error page
    of an exception that nothing caught. *)
Definition serve (handler : sql response) (f : db_file) : response * db_file :=
  match handler f with
  | (Ok r, f') => (r, f')
  | (Raised e, f') => (InternalServerError e, f')
  end.

(** The file at rest: [d] committed and no transaction open. *)
Definition at_rest (d : database) (connections : nat) : db_file :=
  {| committed := d; uncommitted := None; connections := connections |}.

End Conn.

(** * Proofs *)

(** ** Sorting *)

Section OrderBy.
Context {A : Type} (le : A -> A -> bool).

Lemma insert_by_perm x l : insert_by le x l ≡ₚ x :: l.
Proof.
  induction l as [|y l IH]; simpl; [done|].
  destruct (le x y); [done|].
  rewrite IH. apply Permutation_swap.
Qed.

Lemma order_by_perm l : order_by le l ≡ₚ l.
Proof.
  induction l as [|x l IH]; simpl; [done|].
  rewrite insert_by_perm. by rewrite IH.
Qed.

Lemma elem_of_order_by x l : x ∈ order_by le l <-> x ∈ l.
Proof. by rewrite order_by_perm. Qed.

Lemma NoDup_order_by l : NoDup (order_by le l) <-> NoDup l.
Proof. by rewrite order_by_perm. Qed.

Lemma length_order_by l : length (order_by le l) = length l.
Proof. by rewrite order_by_perm. Qed.

(** The sort is stable: where the input is ordered by [T], rows that [le]
    does not tell apart stay in the order [T]. *)
Hypothesis le_total : forall x y, le x y = false -> le y x = true.
Variable T : A -> A -> Prop.
Abbreviation before := (before le T).

Lemma insert_by_HdRel z x l :
  before z x -> HdRel before z l -> HdRel before z (insert_by le x l).
Proof.
  intros Hzx Hl. destruct l as [|y l]; simpl; [by constructor|].
  destruct (le x y); constructor; [done|]. by inv Hl.
Qed.

Lemma insert_by_sorted x l :
  Sorted before l -> Forall (T x) l -> Sorted before (insert_by le x l).
Proof.
  induction l as [|y l IH]; simpl; intros Hs Hx.
  - repeat constructor.
  - inv Hs. inv Hx. destruct (le x y) eqn:E.
    + constructor; [by constructor|]. constructor. by split.
    + constructor; [by apply IH|].
      apply insert_by_HdRel; [|done]. split; [by apply le_total|]. congruence.
Qed.

Lemma order_by_stable l :
  StronglySorted T l -> Sorted before (order_by le l).
Proof.
  induction 1 as [|x l Hl IH Hx]; simpl; [constructor|].
  apply insert_by_sorted; [done|].
  apply Forall_forall. intros y Hy. rewrite Forall_forall in Hx.
  apply Hx. by rewrite <- (elem_of_order_by y l).
Qed.
End OrderBy.

Lemma Sorted_impl {A} (R R' : A -> A -> Prop) l :
  (forall x y, R x y -> R' x y) -> Sorted R l -> Sorted R' l.
Proof.
  intros HR. induction 1 as [|x l Hl IH Hx]; constructor; [done|].
  destruct Hx; constructor; auto.
Qed.

Lemma order_by_sorted {A} (le : A -> A -> bool) l :
  (forall x y, le x y = false -> le y x = true) ->
  Sorted (fun x y => le x y = true) (order_by le l).
Proof.
  intros Htotal.
  apply (Sorted_impl (before le (fun _ _ => True))); [by intros x y [? _]|].
  apply order_by_stable; [done|].
  induction l; constructor; [done|]. by apply Forall_forall.
Qed.

Lemma leb_total_bool s1 s2 : String.leb s1 s2 = false -> String.leb s2 s1 = true.
Proof. destruct (String.leb_total s1 s2); congruence. Qed.

Lemma NoDup_fmap_eq {A B} (f : A -> B) (l : list A) (x y : A) :
  NoDup (f <$> l) -> x ∈ l -> y ∈ l -> f x = f y -> x = y.
Proof.
  induction l as [|z l IH]; [by intros _ ?%elem_of_nil|].
  rewrite fmap_cons, NoDup_cons.
  intros [Hz Hl] [->|Hx]%elem_of_cons [->|Hy]%elem_of_cons E; auto.
  - exfalso. apply Hz. rewrite E. by apply list_elem_of_fmap_2.
  - exfalso. apply Hz. rewrite <- E. by apply list_elem_of_fmap_2.
Qed.

Lemma elem_of_if_singleton {A} (b : bool) (x y : A) :
  x ∈ (if b then [y] else []) <-> b = true /\ x = y.
Proof.
  destruct b.
  - rewrite list_elem_of_singleton. by split; [|intros [_ ?]].
  - rewrite elem_of_nil. by split; [|intros [? _]].
Qed.

(** ** Tags *)

Section TagProofs.
Variable bump : bool.

Abbreviation insert_tag := (insert_or_ignore_tag bump).
Abbreviation loop := (upsert_tags_loop bump).
Abbreviation iteration := (iteration bump).

Lemma tags_insert name d :
  tags (insert_tag name d) = tags_after name (tags d) (tags_seq d).
Proof.
  unfold insert_or_ignore_tag, tags_after. by case_bool_decide.
Qed.

Lemma contract_tags_insert name d :
  contract_tags (insert_tag name d) = contract_tags d.
Proof. unfold insert_or_ignore_tag. by case_bool_decide. Qed.

Lemma first_id_Some name rows :
  name ∈ tag_name <$> rows -> is_Some (first_id name rows).
Proof.
  intros (t & -> & Ht)%list_elem_of_fmap. unfold first_id.
  destruct (filter _ rows) as [|t' ?] eqn:E; [|by eexists].
  exfalso. by eapply (filter_nil_not_elem_of _ _ t E).
Qed.

Lemma first_id_elem name rows tid :
  first_id name rows = Some tid ->
  exists t, t ∈ rows /\ tag_name t = name /\ tag_id t = tid.
Proof.
  unfold first_id. destruct (head _) as [t|] eqn:E; [|done].
  intros [= <-]. apply head_Some_elem_of, list_elem_of_filter in E as [? ?].
  by exists t.
Qed.

Lemma first_id_app name rows more tid :
  first_id name rows = Some tid -> first_id name (rows ++ more) = Some tid.
Proof.
  unfold first_id. rewrite filter_app.
  destruct (filter _ rows); [done|]. by simpl.
Qed.

Lemma first_id_after name m rows seq tid :
  first_id name rows = Some tid -> first_id name (tags_after m rows seq) = Some tid.
Proof.
  intros H. unfold tags_after. case_bool_decide; [done|]. by apply first_id_app.
Qed.

Lemma first_id_after_same name rows seq :
  is_Some (first_id name (tags_after name rows seq)).
Proof.
  apply first_id_Some. unfold tags_after. case_bool_decide; [done|].
  rewrite fmap_app. apply elem_of_app. right. simpl. apply list_elem_of_singleton. done.
Qed.

Lemma select_tag_id_first name d : select_tag_id name d = first_id name (tags d).
Proof. done. Qed.

Lemma contract_tags_link cid tid d :
  contract_tags (insert_or_ignore_contract_tag cid tid d) = link_after cid tid (contract_tags d).
Proof. unfold insert_or_ignore_contract_tag, link_after. by case_bool_decide. Qed.

Lemma tags_link cid tid d :
  tags (insert_or_ignore_contract_tag cid tid d) = tags d.
Proof. unfold insert_or_ignore_contract_tag. by case_bool_decide. Qed.

(** The loop never raises: the name it looks up was just inserted. *)
Lemma loop_total cid names d : exists d', loop cid names d = Ok d'.
Proof.
  revert d. induction names as [|name rest IH]; intros d; simpl; [by eexists|].
  destruct (negb _); [apply IH|].
  rewrite select_tag_id_first, tags_insert.
  destruct (first_id_after_same (PyStr.strip name) (tags d) (tags_seq d)) as [tid ->].
  apply IH.
Qed.


Lemma truthy_false s : negb (PyStr.truthy s) = true <-> s = "".
Proof.
  unfold PyStr.truthy. rewrite negb_involutive. apply String.eqb_eq.
Qed.

Lemma cleaned_names_cons name rest :
  cleaned_names (name :: rest) =
  if negb (PyStr.truthy (PyStr.strip name)) then cleaned_names rest
  else PyStr.strip name :: cleaned_names rest.
Proof.
  unfold cleaned_names. rewrite fmap_cons.
  destruct (negb _) eqn:E.
  - apply truthy_false in E. by rewrite filter_cons_False by (by intros []).
  - rewrite filter_cons_True; [done|]. intros H. apply truthy_false in H. congruence.
Qed.

Lemma cleaned_names_app l1 l2 :
  cleaned_names (l1 ++ l2) = cleaned_names l1 ++ cleaned_names l2.
Proof. unfold cleaned_names. by rewrite fmap_app, filter_app. Qed.

Lemma loop_cons cid name rest d :
  loop cid (name :: rest) d =
  if negb (PyStr.truthy (PyStr.strip name)) then loop cid rest d
  else loop cid rest (iteration cid (PyStr.strip name) d).
Proof.
  simpl. destruct (negb _); [done|]. unfold iteration.
  rewrite select_tag_id_first, tags_insert.
  by destruct (first_id_after_same (PyStr.strip name) (tags d) (tags_seq d)) as [tid ->].
Qed.

Lemma iteration_rows cid n d :
  exists tid,
    first_id n (tags_after n (tags d) (tags_seq d)) = Some tid
    /\ tags (iteration cid n d) = tags_after n (tags d) (tags_seq d)
    /\ contract_tags (iteration cid n d) = link_after cid tid (contract_tags d).
Proof.
  unfold iteration. rewrite select_tag_id_first, tags_insert.
  destruct (first_id_after_same n (tags d) (tags_seq d)) as [tid E].
  exists tid. rewrite E. split; [done|].
  by rewrite tags_link, tags_insert, contract_tags_link, contract_tags_insert.
Qed.

Lemma elem_of_link_after r cid tid rows :
  r ∈ link_after cid tid rows <->
  r ∈ rows \/ r = {| ct_contract_id := cid; ct_tag_id := tid |}.
Proof.
  unfold link_after. case_bool_decide as H.
  - split; [by left|]. by intros [?| ->].
  - rewrite elem_of_app, list_elem_of_singleton. done.
Qed.

Lemma iteration_linked cid n d : linked cid n (iteration cid n d).
Proof.
  destruct (iteration_rows cid n d) as (tid & E & Ht & Hc).
  exists tid. rewrite Ht, Hc. split; [done|]. apply elem_of_link_after. by right.
Qed.

Lemma iteration_keeps_linked cid n m d :
  linked cid n d -> linked cid n (iteration cid m d).
Proof.
  intros (tid & E & Hin).
  destruct (iteration_rows cid m d) as (tid' & _ & Ht & Hc).
  exists tid. rewrite Ht, Hc. split; [by apply first_id_after|].
  apply elem_of_link_after. by left.
Qed.

Lemma first_id_elem_names name rows tid :
  first_id name rows = Some tid -> name ∈ tag_name <$> rows.
Proof.
  intros (t & ? & <- & _)%first_id_elem. by apply list_elem_of_fmap_2.
Qed.

(** An iteration for a name that is already linked changes no row. *)
Lemma iteration_noop cid n d :
  linked cid n d ->
  tags (iteration cid n d) = tags d /\ contract_tags (iteration cid n d) = contract_tags d.
Proof.
  intros (tid & E & Hin).
  destruct (iteration_rows cid n d) as (tid' & E' & Ht & Hc).
  assert (Hsame : tags_after n (tags d) (tags_seq d) = tags d).
  { unfold tags_after. rewrite bool_decide_eq_true_2; [done|].
    by eapply first_id_elem_names. }
  rewrite Hsame in *. rewrite Ht, Hc. split; [done|].
  assert (tid' = tid) as -> by congruence.
  unfold link_after. by rewrite bool_decide_eq_true_2.
Qed.

Lemma linked_rows cid n d d' :
  tags d' = tags d -> contract_tags d' = contract_tags d ->
  linked cid n d -> linked cid n d'.
Proof. unfold linked. by intros -> ->. Qed.


Lemma loop_noop cid names d :
  (forall n, n ∈ cleaned_names names -> linked cid n d) ->
  exists d', loop cid names d = Ok d'
             /\ tags d' = tags d /\ contract_tags d' = contract_tags d.
Proof.
  revert d. induction names as [|name rest IH]; intros d Hall.
  - by exists d.
  - rewrite loop_cons. rewrite cleaned_names_cons in Hall. destruct (negb _).
    + by apply IH.
    + destruct (iteration_noop cid (PyStr.strip name) d) as [Ht Hc].
      { apply Hall. by left. }
      destruct (IH (iteration cid (PyStr.strip name) d)) as (d' & E & Ht' & Hc').
      { intros n Hn. eapply linked_rows; [done..|]. apply Hall. by right. }
      exists d'. split; [done|]. by rewrite Ht', Hc'.
Qed.


(** *** The schema constraints of the tag tables *)

Lemma max_id_ge x ids : x ∈ ids -> x <= max_id ids.
Proof.
  induction ids as [|y ids IH]; [by intros ?%elem_of_nil|].
  intros [->|H]%elem_of_cons; simpl; [lia|]. specialize (IH H). lia.
Qed.

Lemma next_rowid_fresh seq ids : next_rowid seq ids ∉ ids.
Proof. intros H%max_id_ge. unfold next_rowid in H. lia. Qed.

Lemma tags_after_ids n rows seq :
  NoDup (tag_id <$> rows) -> NoDup (tag_id <$> tags_after n rows seq).
Proof.
  intros H. unfold tags_after. case_bool_decide; [done|].
  rewrite fmap_app. apply NoDup_app. split; [done|]. split; [|apply NoDup_singleton].
  intros x Hx ->%list_elem_of_singleton. by apply next_rowid_fresh in Hx.
Qed.

Lemma tags_after_names n rows seq :
  NoDup (tag_name <$> rows) -> NoDup (tag_name <$> tags_after n rows seq).
Proof.
  intros H. unfold tags_after. case_bool_decide as Hn; [done|].
  rewrite fmap_app. apply NoDup_app. split; [done|]. split; [|apply NoDup_singleton].
  by intros x Hx ->%list_elem_of_singleton.
Qed.

Lemma link_after_NoDup cid tid rows : NoDup rows -> NoDup (link_after cid tid rows).
Proof.
  intros H. unfold link_after. case_bool_decide as Hn; [done|].
  apply NoDup_app. split; [done|]. split; [|apply NoDup_singleton].
  by intros x Hx ->%list_elem_of_singleton.
Qed.

Lemma iteration_wf cid n d : tags_wf d -> tags_wf (iteration cid n d).
Proof.
  intros (Hi & Hn & Hc). destruct (iteration_rows cid n d) as (tid & _ & Ht & Hl).
  unfold tags_wf. rewrite Ht, Hl.
  auto using tags_after_ids, tags_after_names, link_after_NoDup.
Qed.

Lemma loop_wf cid names d d' : tags_wf d -> loop cid names d = Ok d' -> tags_wf d'.
Proof.
  revert d. induction names as [|name rest IH]; intros d Hwf.
  - by intros [= <-].
  - rewrite loop_cons. destruct (negb _); [by apply IH|].
    apply IH. by apply iteration_wf.
Qed.

Lemma delete_wf cid d : tags_wf d -> tags_wf (delete_contract_tags cid d).
Proof.
  intros (Hi & Hn & Hc). repeat split; [done..|]. simpl. by apply NoDup_filter.
Qed.

Lemma upsert_tags_wf cid names d d' :
  tags_wf d -> upsert_tags bump false cid names d = Ok d' -> tags_wf d'.
Proof. intros Hwf. unfold upsert_tags. apply loop_wf. by apply delete_wf. Qed.

(** *** The vocabulary only grows *)

Lemma tags_after_prefix n rows seq : rows `prefix_of` tags_after n rows seq.
Proof.
  unfold tags_after. case_bool_decide; [done|]. by apply prefix_app_r.
Qed.

Lemma loop_vocabulary cid names d d' :
  loop cid names d = Ok d' -> tags d `prefix_of` tags d'.
Proof.
  revert d. induction names as [|name rest IH]; intros d.
  - by intros [= <-].
  - rewrite loop_cons. destruct (negb _); [by apply IH|].
    intros H%IH. etrans; [|exact H].
    destruct (iteration_rows cid (PyStr.strip name) d) as (tid & _ & -> & _).
    apply tags_after_prefix.
Qed.

Lemma upsert_tags_vocabulary cid names d d' n :
  upsert_tags bump false cid names d = Ok d' ->
  n ∈ vocabulary d -> n ∈ vocabulary d'.
Proof.
  unfold upsert_tags. intros [more E]%loop_vocabulary. unfold vocabulary.
  rewrite E. simpl. rewrite fmap_app, elem_of_app. by left.
Qed.

Lemma linked_vocabulary cid n d : linked cid n d -> n ∈ vocabulary d.
Proof. intros (tid & E & _). by eapply first_id_elem_names. Qed.

(** *** What a contract is associated with after the loop *)

Lemma iteration_associations cid names m d :
  associations cid names d -> associations cid (names ++ [m]) (iteration cid m d).
Proof.
  intros [Hall Hlinked].
  destruct (iteration_rows cid m d) as (tid' & E' & Ht & Hc). split.
  - intros tid. rewrite Ht, Hc. intros [Hin|[= ->]]%elem_of_link_after.
    + destruct (Hall tid Hin) as (n & Hn & E). exists n.
      split; [apply elem_of_app; by left|]. by apply first_id_after.
    + exists m. split; [|done]. apply elem_of_app. right. by apply list_elem_of_singleton.
  - intros n [Hn| ->%list_elem_of_singleton]%elem_of_app.
    + by apply iteration_keeps_linked, Hlinked.
    + apply iteration_linked.
Qed.

Lemma loop_associations cid todo names d d' :
  associations cid names d -> loop cid todo d = Ok d' ->
  associations cid (names ++ cleaned_names todo) d'.
Proof.
  revert names d. induction todo as [|name rest IH]; intros names d Ha.
  - intros [= <-]. unfold cleaned_names. simpl. by rewrite app_nil_r.
  - rewrite loop_cons, cleaned_names_cons. destruct (negb _); [by apply IH|].
    intros H. rewrite cons_middle, app_assoc.
    eapply IH; [|exact H]. by apply iteration_associations.
Qed.

Lemma delete_associations cid d : associations cid [] (delete_contract_tags cid d).
Proof.
  split.
  - intros tid. simpl. intros [Hne _]%list_elem_of_filter. by simpl in Hne.
  - by intros n ?%elem_of_nil.
Qed.

Lemma elem_of_get_contract_tags n cid d :
  n ∈ get_contract_tags cid d <->
  exists t, t ∈ tags d /\ tag_name t = n
            /\ {| ct_contract_id := cid; ct_tag_id := tag_id t |} ∈ contract_tags d.
Proof.
  unfold get_contract_tags. rewrite elem_of_order_by, list_elem_of_bind. split.
  - intros (t & (r & Hr & Hin)%list_elem_of_bind & Ht).
    apply elem_of_if_singleton in Hr as [[Hid Hcid]%bool_decide_eq_true ->].
    exists t. repeat split; [done|]. destruct r; simpl in *; by subst.
  - intros (t & Ht & <- & Hin). exists t. split; [|done].
    apply list_elem_of_bind. eexists. split; [|exact Hin].
    apply elem_of_if_singleton. split; [|done]. by apply bool_decide_eq_true.
Qed.

Lemma NoDup_get_contract_tags cid d :
  tags_wf d -> NoDup (get_contract_tags cid d).
Proof.
  intros (Hi & Hn & Hc). unfold get_contract_tags. apply NoDup_order_by.
  apply NoDup_bind.
  - intros t1 t2 n Ht1 Ht2 (r1 & H1 & _)%list_elem_of_bind (r2 & H2 & _)%list_elem_of_bind.
    apply elem_of_if_singleton in H1 as [_ ->].
    apply elem_of_if_singleton in H2 as [_ E].
    by eapply (NoDup_fmap_eq tag_name).
  - intros t _. apply NoDup_bind; [| |done].
    + intros r1 r2 n _ _ H1 H2.
      apply elem_of_if_singleton in H1 as [[? ?]%bool_decide_eq_true _].
      apply elem_of_if_singleton in H2 as [[? ?]%bool_decide_eq_true _].
      destruct r1, r2; simpl in *; congruence.
    + intros r _. destruct (bool_decide _); [apply NoDup_singleton|apply NoDup_nil_2].
  - by apply (NoDup_fmap_1 tag_name).
Qed.

Lemma associations_get_contract_tags cid names d n :
  NoDup (tag_id <$> tags d) -> associations cid names d ->
  n ∈ get_contract_tags cid d <-> n ∈ names.
Proof.
  intros Hids [Hall Hlinked]. rewrite elem_of_get_contract_tags. split.
  - intros (t & Ht & <- & Hin).
    destruct (Hall _ Hin) as (m & Hm & (t' & Ht' & <- & Hid)%first_id_elem).
    by rewrite <- (NoDup_fmap_eq tag_id _ _ _ Hids Ht' Ht Hid).
  - intros (tid & (t & Ht & <- & <-)%first_id_elem & Hin)%Hlinked. by exists t.
Qed.

(** After [upsert_tags] the contract has the cleaned names of the list and
    no other tag. *)
Lemma upsert_tags_replaces cid names d :
  tags_wf d ->
  exists d', upsert_tags bump false cid names d = Ok d'
             /\ tags_wf d'
             /\ (forall n, n ∈ get_contract_tags cid d' <-> n ∈ cleaned_names names)
             /\ (forall n, n ∈ cleaned_names names -> n ∈ vocabulary d')
             /\ (forall n, n ∈ vocabulary d -> n ∈ vocabulary d').
Proof.
  intros Hwf. unfold upsert_tags.
  destruct (loop_total cid names (delete_contract_tags cid d)) as [d' E].
  exists d'. split; [done|].
  assert (Hwf' : tags_wf d') by (eapply loop_wf; [|exact E]; by apply delete_wf).
  pose proof (loop_associations _ _ _ _ _ (delete_associations cid d) E) as Ha.
  simpl in Ha. repeat split; try apply Hwf'.
  - by apply associations_get_contract_tags; [apply Hwf'|].
  - intros Hn. eapply associations_get_contract_tags; [apply Hwf'|exact Ha|done].
  - intros n Hn. destruct Ha as [_ Hl]. eapply linked_vocabulary. by apply Hl.
  - intros n Hn. eapply upsert_tags_vocabulary; [|exact Hn]. exact E.
Qed.

Lemma get_contract_tags_sorted cid d : Sorted String.le (get_contract_tags cid d).
Proof.
  unfold get_contract_tags.
  eapply Sorted_impl; [|apply order_by_sorted].
  - intros x y H. unfold asc in H. simpl in H. unfold String.le. by rewrite H.
  - intros x y. apply leb_total_bool.
Qed.

(** A wanted list that is sorted and free of duplicates is what
    [get_contract_tags] returns as soon as it has the same members. *)
Lemma get_contract_tags_eq cid d names :
  tags_wf d -> Sorted String.le names -> NoDup names ->
  (forall n, n ∈ get_contract_tags cid d <-> n ∈ names) ->
  get_contract_tags cid d = names.
Proof.
  intros Hwf Hs Hn Hm.
  apply (Sorted_unique String.le); [apply get_contract_tags_sorted|done|].
  apply NoDup_Permutation; [by apply NoDup_get_contract_tags|done..].
Qed.
End TagProofs.

(** ** Audit events *)

Lemma leb_refl s : String.leb s s = true.
Proof.
  pose proof (reflexivity (R := String.le) s) as H.
  unfold String.le in H. by destruct (String.leb s s).
Qed.

Lemma record_audit_events now cid action actor details d :
  audit_events (record_audit now cid action actor details d) =
  audit_events d ++
    [{| audit_id := next_rowid (audit_events_seq d) (audit_id <$> audit_events d);
        audit_contract_id := cid; audit_action := action; audit_actor := actor;
        audit_created_at := now; audit_details := details |}].
Proof. done. Qed.

Lemma record_audit_ascending now cid action actor details d :
  audit_ids_ascending d ->
  audit_ids_ascending (record_audit now cid action actor details d).
Proof.
  unfold audit_ids_ascending. rewrite record_audit_events. intros H.
  apply StronglySorted_app. split; [|split; [done|repeat constructor]].
  intros a b Ha ->%list_elem_of_singleton. simpl.
  assert (audit_id a <= max_id (audit_id <$> audit_events d)).
  { apply max_id_ge. by apply list_elem_of_fmap_2. }
  unfold next_rowid. lia.
Qed.

Lemma StronglySorted_filter {A} (R : A -> A -> Prop) (P : A -> Prop)
    `{forall x, Decision (P x)} l :
  StronglySorted R l -> StronglySorted R (filter P l).
Proof.
  induction 1 as [|x l Hl IH Hx]; [constructor|].
  rewrite filter_cons. destruct (decide (P x)); [|done].
  constructor; [done|]. apply Forall_forall. intros y [_ Hy]%list_elem_of_filter.
  rewrite Forall_forall in Hx. by apply Hx.
Qed.

(** With a primary key, a lookup by key finds at most one row. *)
Lemma filter_key {A B} `{EqDecision B} (f : A -> B) (k : B) (l : list A) :
  NoDup (f <$> l) ->
  filter (fun x => f x = k) l = [] \/ exists x, filter (fun x => f x = k) l = [x].
Proof.
  induction l as [|y l IH]; [by left|].
  rewrite fmap_cons, NoDup_cons. intros [Hy Hl]. rewrite filter_cons.
  destruct (decide (f y = k)) as [E|E]; [|by apply IH].
  right. exists y. f_equal.
  destruct (filter _ l) as [|z ?] eqn:Ez; [done|]. exfalso. apply Hy.
  assert (Hz : z ∈ filter (fun x => f x = k) l) by (rewrite Ez; by left).
  apply list_elem_of_filter in Hz as [Hz ?]. rewrite E, <- Hz.
  by apply list_elem_of_fmap_2.
Qed.

Lemma bind_singletons {A B} (f : A -> list B) (g : A -> B) (l : list A) :
  (forall a, f a = [g a]) -> l ≫= f = g <$> l.
Proof.
  intros Hf. induction l as [|a l IH]; [done|].
  csimpl. by rewrite Hf, IH.
Qed.

(** The left join of [audit_log] yields one row for each audit event. *)
Lemma audit_join_rows d :
  contracts_wf d ->
  exists title : audit_row -> option string,
    (a ← audit_events d;
     match filter (fun c => Some (contract_id c) = audit_contract_id a) (contracts d) with
     | [] => [(a, None)]
     | cs => (fun c => (a, Some (contract_title c))) <$> cs
     end) = (fun a => (a, title a)) <$> audit_events d.
Proof.
  intros Hwf.
  exists (fun a =>
    contract_title <$>
      head (filter (fun c => Some (contract_id c) = audit_contract_id a) (contracts d))).
  apply bind_singletons. intros a.
  destruct (filter_key (fun c => Some (contract_id c)) (audit_contract_id a) (contracts d))
    as [->|[c ->]]; [|done..].
  rewrite (list_fmap_compose contract_id Some). apply NoDup_fmap_2; [|done].
  by intros ?? [=].
Qed.

Lemma audit_log_events d :
  contracts_wf d -> fst <$> audit_log d ≡ₚ audit_events d.
Proof.
  intros [title E]%audit_join_rows. unfold audit_log. rewrite E.
  rewrite order_by_perm, <- list_fmap_compose. simpl.
  by rewrite list_fmap_id.
Qed.

Lemma before_desc_listed T a b :
  (forall x y : audit_row, T x y -> audit_id x < audit_id y) ->
  before (desc audit_created_at) T a b -> listed_before a b.
Proof.
  intros HT [Hle Hties]. unfold desc in *. split; [done|].
  intros E. apply HT, Hties. rewrite E. apply leb_refl.
Qed.

Lemma desc_total {A} (key : A -> string) x y :
  desc key x y = false -> desc key y x = true.
Proof. unfold desc. apply leb_total_bool. Qed.

Lemma contract_audits_listed cid d :
  audit_ids_ascending d -> Sorted listed_before (contract_audits cid d).
Proof.
  intros Hasc. unfold contract_audits.
  apply (Sorted_impl (before (desc audit_created_at) (fun a b => audit_id a < audit_id b))).
  - intros a b. by apply before_desc_listed.
  - apply order_by_stable; [apply desc_total|]. by apply StronglySorted_filter.
Qed.

Lemma audit_log_listed d :
  audit_ids_ascending d -> contracts_wf d ->
  Sorted listed_before (fst <$> audit_log d).
Proof.
  intros Hasc [title E]%audit_join_rows. unfold audit_log. rewrite E.
  apply (Sorted_fmap fst
           (before (desc (fun r : audit_row * option string => audit_created_at (fst r)))
              (fun x y => audit_id (fst x) < audit_id (fst y)))).
  - intros x y [Hle Hties]. split; [done|]. intros Heq. apply Hties.
    unfold desc. rewrite Heq. apply leb_refl.
  - apply order_by_stable; [apply desc_total|].
    apply (StronglySorted_fmap _ (fun a b => audit_id a < audit_id b)); [done|].
    exact Hasc.
Qed.


Lemma length_bind_ge {A B} (f : A -> list B) (l : list A) :
  (forall a, (1 <= length (f a))%nat) -> (length l <= length (l ≫= f))%nat.
Proof.
  intros Hf. induction l as [|a l IH]; [done|].
  csimpl. rewrite length_app. specialize (Hf a). lia.
Qed.

Lemma length_audit_log d : (length (audit_events d) <= length (audit_log d))%nat.
Proof.
  unfold audit_log. rewrite length_order_by. apply length_bind_ge.
  intros a. destruct (filter _ (contracts d)); simpl; lia.
Qed.

Lemma elem_of_contract_audits a cid d :
  a ∈ contract_audits cid d <-> a ∈ audit_events d /\ audit_contract_id a = Some cid.
Proof.
  unfold contract_audits. rewrite elem_of_order_by, list_elem_of_filter. tauto.
Qed.

Lemma ltb_irrefl s : String.ltb s s = false.
Proof.
  unfold String.ltb. pose proof (leb_refl s) as H. unfold String.leb in H.
  pose proof (String.compare_antisym s s) as Ha.
  destruct (String.compare s s); simpl in *; congruence.
Qed.

(** Two rows of the same second, the one with the smaller id first, are not
    listed newest first. *)
Lemma ties_not_newer a b rest :
  audit_created_at a = audit_created_at b -> audit_id a < audit_id b ->
  ~ Sorted newer (a :: b :: rest).
Proof.
  intros Ht Hid H. apply Sorted_inv in H as [_ H]. apply HdRel_inv in H.
  destruct H as [H|[_ H]]; [|lia]. rewrite Ht, ltb_irrefl in H. done.
Qed.

(** ** Uploads *)

Section UploadProofs.
Variable BASE_DIR : string.
Variable ascii_nfkd : string -> string.

Abbreviation doc_new := (document_new BASE_DIR ascii_nfkd).
Abbreviation stored_name := (upload_stored_name ascii_nfkd).
Abbreviation inserted := (upload_inserted ascii_nfkd).
Abbreviation audited_db := (upload_audited ascii_nfkd).

(** The three ways [document_new] can end. *)
Lemma document_new_cases now now' fault cid req w :
  (exists file,
      req_files req !! "document" = Some file
      /\ get_contract cid (db w) <> None /\ fault = None
      /\ doc_new now now' fault cid req w =
         (uploaded cid,
          {| db := audited_db now now' cid req file (db w);
             files := <[PosixPath.join (UPLOAD_DIR BASE_DIR) (stored_name cid file (db w))
                        := upload_content file]> (files w) |}))
  \/ (exists file,
      req_files req !! "document" = Some file
      /\ fault = Some FailAudit
      /\ doc_new now now' fault cid req w =
         (InternalServerError OperationalError,
          {| db := inserted now cid file (db w);
             files := <[PosixPath.join (UPLOAD_DIR BASE_DIR) (stored_name cid file (db w))
                        := upload_content file]> (files w) |}))
  \/ (exists r w',
      doc_new now now' fault cid req w = (r, w')
      /\ r ∈ upload_refusals /\ r <> uploaded cid /\ db w' = db w
      /\ (files w' = files w
          \/ exists file bytes,
               req_files req !! "document" = Some file
               /\ files w' = <[PosixPath.join (UPLOAD_DIR BASE_DIR) (stored_name cid file (db w))
                               := bytes]> (files w))).
Proof.
  assert (Hin : forall r, r ∈ upload_refusals <-> bool_decide (r ∈ upload_refusals) = true)
    by (intros r; by rewrite bool_decide_eq_true).
  unfold document_new.
  destruct (get_contract cid (db w)) as [c|] eqn:Hc;
    [|right; right; eexists _, _; by repeat split; auto; apply Hin].
  destruct (req_method req);
    [right; right; eexists _, _; by repeat split; auto; apply Hin|].
  destruct (req_files req !! "document") as [file|] eqn:Hf;
    [|right; right; eexists _, _; by repeat split; auto; apply Hin].
  destruct (negb _); [right; right; eexists _, _; by repeat split; auto; apply Hin|].
  case_bool_decide as F1;
    [right; right; eexists _, _; by repeat split; auto; apply Hin|].
  destruct fault as [[|partial| | |]|]; simpl; rewrite ?lookup_insert_eq; simpl.
  - done.
  - right; right. eexists _, _. split; [done|]. split; [by apply Hin|]. split; [done|].
    destruct partial; simpl; [|by auto]. split; [done|]. right. by eexists _, _.
  - right; right. eexists _, _. split; [done|]. split; [by apply Hin|].
    repeat split; [done|]. right. by eexists _, _.
  - right; right. eexists _, _. split; [done|]. split; [by apply Hin|].
    repeat split; [done|]. right. by eexists _, _.
  - right; left. by exists file.
  - left. by exists file.
Qed.

Lemma document_new_uploaded now now' fault cid req w w' :
  doc_new now now' fault cid req w = (uploaded cid, w') ->
  exists file,
    req_files req !! "document" = Some file
    /\ get_contract cid (db w) <> None
    /\ w' = {| db := audited_db now now' cid req file (db w);
               files := <[PosixPath.join (UPLOAD_DIR BASE_DIR) (stored_name cid file (db w))
                          := upload_content file]> (files w) |}.
Proof.
  intros H.
  destruct (document_new_cases now now' fault cid req w)
    as [(file & Hf & Hc & _ & E)|[(file & Hf & _ & E)|(r & w1 & E & _ & Hr & _)]];
    rewrite E in H; simplify_eq.
  by exists file.
Qed.

(** *** Versions *)

Lemma versions_of_insert cid cid' filename stored version now sha d :
  versions_of cid' (insert_document cid filename stored version now sha d) =
  versions_of cid' d ++ (if bool_decide (cid = cid') then [version] else []).
Proof.
  unfold versions_of, insert_document. simpl. rewrite filter_app, fmap_app. f_equal.
  rewrite filter_cons. simpl. case_bool_decide; by destruct (decide _).
Qed.

Lemma versions_of_record_audit cid now c action actor details d :
  versions_of cid (record_audit now c action actor details d) = versions_of cid d.
Proof. done. Qed.

Lemma versions_of_uploaded now now' cid req file d :
  versions_of cid (audited_db now now' cid req file d) =
  versions_of cid d ++ [next_version cid d].
Proof.
  unfold upload_audited, upload_inserted.
  rewrite versions_of_record_audit, versions_of_insert. by rewrite bool_decide_eq_true_2.
Qed.

Lemma next_version_versions cid d :
  next_version cid d =
  match versions_of cid d with
  | [] => 0
  | v :: vs => foldr Z.max v vs
  end + 1.
Proof. unfold next_version, versions_of. by destruct (_ <$> _). Qed.

Lemma foldr_max_ge v vs : v <= foldr Z.max v vs.
Proof. induction vs; simpl; lia. Qed.

Lemma foldr_max_elem v vs x : x ∈ vs -> x <= foldr Z.max v vs.
Proof.
  induction vs as [|y vs IH]; [by intros ?%elem_of_nil|].
  intros [->|H]%elem_of_cons; simpl; [lia|]. specialize (IH H). lia.
Qed.

(** The next version is above every version the contract has. *)
Lemma next_version_above cid d v : v ∈ versions_of cid d -> v < next_version cid d.
Proof.
  rewrite next_version_versions. destruct (versions_of cid d) as [|v0 vs].
  - by intros ?%elem_of_nil.
  - intros [->|H]%elem_of_cons.
    + pose proof (foldr_max_ge v0 vs). lia.
    + pose proof (foldr_max_elem v0 vs v H). lia.
Qed.

Lemma foldr_max_in v vs : foldr Z.max v vs ∈ v :: vs.
Proof.
  induction vs as [|y vs IH]; simpl; [by left|].
  destruct (Z.max_spec y (foldr Z.max v vs)) as [[_ ->]|[_ ->]].
  - apply elem_of_cons in IH as [->|?]; [by left|]. right; by right.
  - right; by left.
Qed.

Lemma next_version_seq cid d k :
  versions_of cid d = Z.of_nat <$> seq 1 k -> next_version cid d = Z.of_nat k + 1.
Proof.
  intros E. rewrite next_version_versions. f_equal.
  destruct (versions_of cid d) as [|v vs] eqn:Ev.
  - destruct k; [done|]. by simpl in E.
  - pose proof (foldr_max_in v vs) as Hin.
    assert (Hk : Z.of_nat k ∈ v :: vs).
    { rewrite E. destruct k as [|k]; [done|]. apply list_elem_of_fmap_2.
      apply elem_of_seq. lia. }
    rewrite E in Hin.
    apply list_elem_of_fmap in Hin as (n & Hn & [_ Hle]%elem_of_seq).
    assert (Z.of_nat k <= foldr Z.max v vs).
    { apply elem_of_cons in Hk as [->|Hk];
        [apply foldr_max_ge|by apply foldr_max_elem]. }
    lia.
Qed.

(** Uploads made one after the other number the documents of a contract
    from where the numbering stood. *)
Lemma upload_all_versions cid us w w' k :
  versions_of cid (db w) = Z.of_nat <$> seq 1 k ->
  upload_all BASE_DIR ascii_nfkd cid us w = Some w' ->
  versions_of cid (db w') = Z.of_nat <$> seq 1 (k + length us).
Proof.
  revert w k. induction us as [|u us IH]; intros w k Hk; simpl.
  - intros [= <-]. by rewrite Nat.add_0_r.
  - destruct (doc_new _ _ _ _ _ _) as [r w1] eqn:E.
    case_bool_decide as Hr; [|done]. subst r.
    apply document_new_uploaded in E as (file & _ & _ & ->).
    intros H. replace (k + S (length us))%nat with (S k + length us)%nat by lia.
    eapply IH; [|exact H].
    cbn [db]. rewrite versions_of_uploaded, (next_version_seq _ _ k Hk), Hk.
    rewrite seq_S, fmap_app. simpl. do 2 f_equal. lia.
Qed.
End UploadProofs.

(** ** Strings and paths *)

Lemma append_cons c a b : String c a +:+ b = String c (a +:+ b).
Proof. done. Qed.

Lemma append_nil b : "" +:+ b = b.
Proof. done. Qed.

Lemma chars_app a b : chars (a +:+ b) = chars a ++ chars b.
Proof.
  induction a as [|c a IH]; [done|].
  rewrite append_cons. unfold chars in *. simpl. by rewrite IH.
Qed.

Lemma chars_cons c s : chars (String c s) = c :: chars s.
Proof. done. Qed.

Lemma chars_inj a b : chars a = chars b -> a = b.
Proof.
  unfold chars. intros H.
  by rewrite <- (string_of_list_ascii_of_string a), H, string_of_list_ascii_of_string.
Qed.

(** Two strings cut at the first separator are equal part by part. *)
Lemma append_sep_inj (sep : ascii) a a' r r' :
  sep ∉ chars a -> sep ∉ chars a' ->
  a +:+ String sep r = a' +:+ String sep r' -> a = a' /\ r = r'.
Proof.
  revert a'. induction a as [|c a IH]; intros [|c' a'] Ha Ha'.
  - rewrite !append_nil. by intros [= ->].
  - rewrite append_nil, append_cons. intros [= -> _].
    exfalso. apply Ha'. rewrite chars_cons. by left.
  - rewrite append_nil, append_cons. intros [= -> _].
    exfalso. apply Ha. rewrite chars_cons. by left.
  - rewrite !append_cons. intros [= -> H].
    rewrite chars_cons, not_elem_of_cons in Ha, Ha'.
    destruct (IH a') as [-> ->]; [apply Ha|apply Ha'|done|done].
Qed.

(** *** Decimal numerals *)

Lemma chars_string_of_uint d c :
  c ∈ chars (DecimalString.NilEmpty.string_of_uint d) -> decimal_char c = true.
Proof.
  induction d; simpl; rewrite ?chars_cons; try (by intros ?%elem_of_nil);
    intros [->|H]%elem_of_cons; auto.
Qed.

Lemma chars_str_of_int z c : c ∈ chars (PyStr.str_of_int z) -> decimal_char c = true.
Proof.
  unfold PyStr.str_of_int, DecimalString.NilZero.string_of_int,
    DecimalString.NilZero.string_of_uint.
  destruct (Z.to_int z) as [d|d]; destruct d; rewrite ?chars_cons;
    repeat (intros [->|H]%elem_of_cons; [done|revert H]);
    try (by intros ?%elem_of_nil); try apply chars_string_of_uint.
Qed.

Lemma str_of_int_no (c : ascii) z : decimal_char c = false -> c ∉ chars (PyStr.str_of_int z).
Proof. intros Hc Hin%chars_str_of_int. congruence. Qed.

Lemma str_of_int_inj z z' : PyStr.str_of_int z = PyStr.str_of_int z' -> z = z'.
Proof.
  unfold PyStr.str_of_int. intros H. apply DecimalZ.to_int_inj.
  assert (Hn : forall z, Z.to_int z <> Decimal.Pos Decimal.Nil
                         /\ Z.to_int z <> Decimal.Neg Decimal.Nil).
  { intros [|p|p]; simpl; split; try done; intros [= E];
      by apply DecimalPos.Unsigned.to_uint_nonnil in E. }
  destruct (Hn z) as [H1 H2], (Hn z') as [H1' H2'].
  pose proof (DecimalString.NilZero.isi _ H1 H2) as E.
  pose proof (DecimalString.NilZero.isi _ H1' H2') as E'.
  rewrite H in E. congruence.
Qed.

(** The stored name tells the contract and the version. *)
Lemma stored_name_of_inj cid v f cid' v' f' :
  stored_name_of cid v f = stored_name_of cid' v' f' -> cid = cid' /\ v = v' /\ f = f'.
Proof.
  unfold stored_name_of. intros H.
  apply (append_sep_inj "_") in H as [?%str_of_int_inj H];
    [|by apply str_of_int_no..].
  apply (append_sep_inj "_") in H as [?%str_of_int_inj H];
    [|by apply str_of_int_no..].
  done.
Qed.

(** *** [split] and [normpath] *)

Lemma split_nonempty sep s : PyStr.split sep s <> [].
Proof.
  destruct s as [|c s]; [done|]. simpl.
  destruct (Ascii.eqb c sep); [done|]. by destruct (PyStr.split sep s).
Qed.

Lemma split_no_sep sep s : sep ∉ chars s -> PyStr.split sep s = [s].
Proof.
  induction s as [|c s IH]; [done|].
  rewrite chars_cons, not_elem_of_cons. intros [Hc Hs]. simpl.
  destruct (Ascii.eqb_spec c sep) as [->|_]; [done|]. by rewrite IH.
Qed.

Lemma split_parts sep s part : part ∈ PyStr.split sep s -> sep ∉ chars part.
Proof.
  revert part. induction s as [|c s IH]; intros part.
  - simpl. intros ->%list_elem_of_singleton. apply not_elem_of_nil.
  - simpl. destruct (Ascii.eqb_spec c sep) as [->|Hne].
    + intros [->|H]%elem_of_cons; [apply not_elem_of_nil|by apply IH].
    + pose proof (split_nonempty sep s) as Hs.
      destruct (PyStr.split sep s) as [|p ps]; [done|].
      intros [->|H]%elem_of_cons.
      * rewrite chars_cons, not_elem_of_cons. split; [congruence|].
        apply IH. by left.
      * apply IH. by right.
Qed.

Lemma Forall_removelast {A} (P : A -> Prop) l : Forall P l -> Forall P (removelast l).
Proof.
  induction 1 as [|x l Hx Hl IH]; [constructor|].
  simpl. destruct l; [constructor|]. by constructor.
Qed.

Lemma head_removelast {A} (l : list A) x :
  head l = Some x -> removelast l <> [] -> head (removelast l) = Some x.
Proof. destruct l as [|y [|z l]]; simpl; try done. Qed.

Lemma last_Forall {A} (P : A -> Prop) l x : Forall P l -> last l = Some x -> P x.
Proof.
  intros H Hl. rewrite Forall_forall in H. apply H.
  apply last_Some in Hl as [l' ->]. apply elem_of_app. right. by left.
Qed.

Lemma normpath_step_normalised comps comp :
  "/"%char ∉ chars comp -> normalised comps ->
  normalised (PosixPath.normpath_step 0 comps comp).
Proof.
  intros Hcomp [Hsl Hdd]. unfold PosixPath.normpath_step.
  case_bool_decide as H1; [done|].
  case_bool_decide as H2.
  - split; [apply Forall_app; split; [done|by constructor]|].
    destruct comps as [|c0 comps]; simpl.
    + destruct (decide (comp = "..")) as [->|Hne]; [by left|].
      right. by constructor.
    + destruct Hdd as [Hh|Hall]; [by left|].
      destruct H2 as [Hne|[[_ [=]]|[_ Hlast]]].
      * right. apply (Forall_app _ (c0 :: comps) [comp]). split; [done|by constructor].
      * exfalso. by apply (last_Forall _ _ _ Hall Hlast).
  - split; [by apply Forall_removelast|].
    destruct Hdd as [Hh|Hall]; [|right; by apply Forall_removelast].
    destruct (decide (removelast comps = [])) as [E|E].
    + right. rewrite E. constructor.
    + left. by apply head_removelast.
Qed.

Lemma normpath_fold_normalised comps parts :
  Forall (fun c => "/"%char ∉ chars c) parts -> normalised comps ->
  normalised (fold_left (PosixPath.normpath_step 0) parts comps).
Proof.
  intros Hparts. revert comps. induction Hparts as [|p parts Hp _ IH]; intros comps H.
  - done.
  - simpl. apply IH. by apply normpath_step_normalised.
Qed.

(** A normalised name is absolute, or leaves the directory through [..], or
    is made of components that stay inside. *)
Lemma normpath_cases path :
  PosixPath.isabs (PosixPath.normpath path) = true
  \/ PosixPath.normpath path = ".."
  \/ PyStr.startswith "../" (PosixPath.normpath path) = true
  \/ exists comps, comps <> [] /\ Forall stays_inside comps
                  /\ PosixPath.normpath path = PyStr.join "/" comps.
Proof.
  unfold PosixPath.normpath.
  case_bool_decide as Hempty.
  { right; right; right. exists ["."]. repeat split; [done|]. repeat constructor; [done|].
    intros [[=]|?%elem_of_nil]%elem_of_cons. done. }
  destruct (PyStr.startswith "/" path) eqn:Habs.
  { left.
    assert (Hk : forall (b : bool) x,
               exists y, PyStr.join "" (repeat "/" (if b then 2%nat else 1%nat)) +:+ x
                         = String "/" y).
    { intros [] x; by eexists. }
    destruct (Hk (PyStr.startswith "//" path && negb (PyStr.startswith "///" path))
                (PyStr.join "/"
                   (fold_left
                      (PosixPath.normpath_step
                         (if PyStr.startswith "//" path
                             && negb (PyStr.startswith "///" path)
                          then 2%nat else 1%nat))
                      (PyStr.split "/" path) []))) as [y ->].
    by case_bool_decide. }
  set (rel := PyStr.join "/" _).
  change (PyStr.join "" (repeat "/" 0) +:+ rel) with rel. subst rel.
  assert (Hn : normalised
                 (fold_left (PosixPath.normpath_step 0) (PyStr.split "/" path) [])).
  { apply normpath_fold_normalised.
    - apply Forall_forall. intros part. apply split_parts.
    - split; [constructor|]. right. constructor. }
  destruct (fold_left _ _ _) as [|c comps]; [|destruct Hn as [Hsl [Hdd|Hall]]].
  - right; right; right. exists ["."]. repeat split; [done|]. repeat constructor; [done|].
    intros [[=]|?%elem_of_nil]%elem_of_cons. done.
  - simpl in Hdd. injection Hdd as ->. right. destruct comps as [|c' comps].
    + by left.
    + right. left. by case_bool_decide.
  - right; right; right. case_bool_decide as Hp.
    + exists ["."]. repeat split; [done|]. repeat constructor; [done|].
      intros [[=]|?%elem_of_nil]%elem_of_cons. done.
    + exists (c :: comps). repeat split; [done|].
      apply Forall_forall. intros x Hx. rewrite Forall_forall in Hsl, Hall. split; auto.
Qed.

Lemma startswith_chars p s c :
  PyStr.startswith p s = true -> c ∈ chars p -> c ∈ chars s.
Proof.
  revert s. induction p as [|a p IH]; intros s; [by intros _ ?%elem_of_nil|].
  destruct s as [|b s]; [done|]. simpl.
  intros [->%Ascii.eqb_eq Hp]%andb_true_iff. rewrite !chars_cons.
  intros [->|Hc]%elem_of_cons; [by left|]. right. by apply IH.
Qed.

Lemma join_relative directory rel :
  PosixPath.isabs rel = false ->
  PosixPath.join (root_of directory) rel =
  root_of directory
  +:+ (if PyStr.endswith "/" (root_of directory) then "" else "/") +:+ rel.
Proof.
  unfold PosixPath.join, PosixPath.isabs. intros ->.
  rewrite bool_decide_eq_false_2; [|unfold root_of; by case_bool_decide].
  simpl. by destruct (PyStr.endswith _ _).
Qed.

(** What [safe_join] accepts names a file under the directory. *)
Lemma safe_join_under directory name path :
  Werkzeug.safe_join directory name = Some path ->
  exists comps, comps <> [] /\ Forall stays_inside comps /\ path = under directory comps.
Proof.
  unfold Werkzeug.safe_join. fold (root_of directory).
  set (filename := if bool_decide (name <> "") then _ else _).
  destruct (PosixPath.isabs filename) eqn:Habs; [done|].
  case_bool_decide as Hdd; [done|].
  destruct (PyStr.startswith "../" filename) eqn:Hup; [done|].
  simpl. intros [= <-]. rewrite (join_relative _ _ Habs). unfold under.
  subst filename. case_bool_decide as Hname.
  - destruct (normpath_cases name) as [H|[H|[H|(comps & Hne & Hin & E)]]];
      [congruence..|].
    exists comps. by rewrite E.
  - assert (name = "") as -> by (destruct (decide (name = "")); [done|by destruct Hname]).
    exists [""]. split; [done|]. split; [|done].
    repeat constructor; [done|]. apply not_elem_of_nil.
Qed.

(** A name made of one component is its own normal form. *)
Lemma normpath_component s :
  "/"%char ∉ chars s -> s <> "" -> s <> "." -> s <> ".." -> PosixPath.normpath s = s.
Proof.
  intros Hs H1 H2 H3. unfold PosixPath.normpath.
  rewrite bool_decide_eq_false_2 by done.
  assert (Habs : PyStr.startswith "/" s = false).
  { destruct (PyStr.startswith "/" s) eqn:E; [|done]. exfalso. apply Hs.
    apply (startswith_chars _ _ _ E). by left. }
  rewrite Habs, split_no_sep by done. cbn [fold_left].
  unfold PosixPath.normpath_step.
  rewrite (bool_decide_eq_false_2 (s = "" \/ s = ".")) by (by intros [|]).
  rewrite (bool_decide_eq_true_2 (_ \/ _ \/ _)) by (by left).
  change (PyStr.join "" (repeat "/" 0) +:+ PyStr.join "/" ([] ++ [s])) with s.
  by rewrite bool_decide_eq_false_2.
Qed.

Lemma safe_join_component directory s :
  "/"%char ∉ chars s -> s <> "" -> s <> "." -> s <> ".." ->
  Werkzeug.safe_join directory s = Some (under directory [s]).
Proof.
  intros Hs H1 H2 H3. unfold Werkzeug.safe_join. fold (root_of directory).
  rewrite bool_decide_eq_true_2, normpath_component by done.
  assert (Habs : PosixPath.isabs s = false).
  { destruct (PosixPath.isabs s) eqn:E; [|done]. exfalso. apply Hs.
    apply (startswith_chars _ _ _ E). by left. }
  assert (Hup : PyStr.startswith "../" s = false).
  { destruct (PyStr.startswith "../" s) eqn:E; [|done]. exfalso. apply Hs.
    apply (startswith_chars _ _ _ E). right; right; by left. }
  rewrite Habs, Hup, bool_decide_eq_false_2 by done. simpl.
  by rewrite join_relative.
Qed.

(** *** Sanitised file names *)

Lemma chars_keep p s c : c ∈ chars (PyStr.keep p s) -> p c = true.
Proof.
  induction s as [|a s IH]; simpl; [by intros ?%elem_of_nil|].
  destruct (p a) eqn:E; [|done].
  rewrite chars_cons. by intros [->|H]%elem_of_cons; [|apply IH].
Qed.

Lemma chars_lstrip p s c : c ∈ chars (PyStr.lstrip_with p s) -> c ∈ chars s.
Proof.
  induction s as [|a s IH]; simpl; [done|].
  destruct (p a); [|done]. rewrite chars_cons. intros H. right. by apply IH.
Qed.

Lemma chars_rstrip p s c : c ∈ chars (PyStr.rstrip_with p s) -> c ∈ chars s.
Proof.
  induction s as [|a s IH]; simpl; [done|].
  rewrite chars_cons. destruct (PyStr.rstrip_with p s) as [|b r].
  - destruct (p a); [by intros ?%elem_of_nil|].
    intros [->|?%elem_of_nil]%elem_of_cons; [by left|done].
  - intros [->|H]%elem_of_cons; [by left|]. right. by apply IH.
Qed.

Lemma secure_filename_chars ascii_nfkd filename c :
  c ∈ chars (secure_filename ascii_nfkd filename) -> Werkzeug.filename_char c = true.
Proof.
  unfold secure_filename, Werkzeug.secure_filename, PyStr.strip_with.
  intros H. by apply chars_rstrip, chars_lstrip, chars_keep in H.
Qed.

Lemma secure_filename_no_slash ascii_nfkd filename :
  "/"%char ∉ chars (secure_filename ascii_nfkd filename).
Proof. by intros H%secure_filename_chars. Qed.

Lemma stored_name_component cid version f :
  "/"%char ∉ chars f ->
  ("/"%char ∉ chars (stored_name_of cid version f))
  /\ stored_name_of cid version f <> ""
  /\ stored_name_of cid version f <> "."
  /\ stored_name_of cid version f <> "..".
Proof.
  intros Hf.
  assert (Hu : "_"%char ∈ chars (stored_name_of cid version f)).
  { unfold stored_name_of. rewrite chars_app, elem_of_app. right.
    rewrite chars_app, elem_of_app. left. by left. }
  split.
  - unfold stored_name_of. rewrite !chars_app, !elem_of_app.
    intros [H|[H|[H|[H|H]]]]; try (by apply str_of_int_no in H); try done.
    + by apply list_elem_of_singleton in H.
    + by apply list_elem_of_singleton in H.
  - repeat split; intros E; rewrite E in Hu;
      repeat (apply elem_of_cons in Hu as [?|Hu]; [done|]);
      by apply elem_of_nil in Hu.
Qed.

(** *** Trimming *)

Lemma lstrip_spec p s :
  exists l,
    s = l +:+ PyStr.lstrip_with p s
    /\ Forall (fun c => p c = true) (chars l)
    /\ forall c, head (chars (PyStr.lstrip_with p s)) = Some c -> p c = false.
Proof.
  induction s as [|a s (l & E & Hl & Hh)]; simpl.
  - exists "". by repeat split.
  - destruct (p a) eqn:Ha.
    + exists (String a l). rewrite append_cons, <- E. repeat split; [|done].
      rewrite chars_cons. by constructor.
    + exists "". repeat split; [constructor|]. rewrite chars_cons. by intros c [= <-].
Qed.

Lemma rstrip_spec p s :
  exists r,
    s = PyStr.rstrip_with p s +:+ r
    /\ Forall (fun c => p c = true) (chars r)
    /\ (forall c, last (chars (PyStr.rstrip_with p s)) = Some c -> p c = false)
    /\ (forall c, head (chars (PyStr.rstrip_with p s)) = Some c -> head (chars s) = Some c).
Proof.
  induction s as [|a s (r & E & Hr & Hl & Hh)]; simpl.
  - exists "". by repeat split.
  - destruct (PyStr.rstrip_with p s) as [|b t] eqn:Et.
    + rewrite append_nil in E. subst r. destruct (p a) eqn:Ha.
      * exists (String a s). repeat split; [|done..].
        rewrite chars_cons. by constructor.
      * exists s. repeat split; [done| |done].
        rewrite chars_cons. by intros c [= <-].
    + exists r. rewrite append_cons, <- E. repeat split; [done| |done].
      intros c. rewrite (chars_cons a). rewrite chars_cons in Hl |- *.
      simpl. apply Hl.
Qed.

(** [strip] cuts white space, and all of it, from both ends. *)
Lemma strip_spec s :
  exists l r,
    s = l +:+ PyStr.strip s +:+ r
    /\ Forall (fun c => PyStr.isspace c = true) (chars l)
    /\ Forall (fun c => PyStr.isspace c = true) (chars r)
    /\ (forall c, head (chars (PyStr.strip s)) = Some c -> PyStr.isspace c = false)
    /\ (forall c, last (chars (PyStr.strip s)) = Some c -> PyStr.isspace c = false).
Proof.
  unfold PyStr.strip, PyStr.strip_with.
  destruct (lstrip_spec PyStr.isspace s) as (l & El & Hl & Hh).
  destruct (rstrip_spec PyStr.isspace (PyStr.lstrip_with PyStr.isspace s))
    as (r & Er & Hr & Hlast & Hhead).
  exists l, r. split; [by rewrite <- Er|]. repeat split; [done..| |done].
  intros c Hc. by apply Hh, Hhead.
Qed.

(** ** Interleaved uploads *)

Section ThreadProofs.
Variable BASE_DIR : string.
Variable ascii_nfkd : string -> string.

Abbreviation step := (caller_step BASE_DIR ascii_nfkd).
Abbreviation sched := (interleave BASE_DIR ascii_nfkd).

(** The steps of a caller that is left alone are [document_new]. *)
Lemma run_alone_document_new c w :
  run_alone BASE_DIR ascii_nfkd c 6 AtStart w =
  (Finished
     (document_new BASE_DIR ascii_nfkd (caller_now c) (caller_now' c) (caller_fault c)
        (caller_contract c) (caller_request c) w).1,
   (document_new BASE_DIR ascii_nfkd (caller_now c) (caller_now' c) (caller_fault c)
      (caller_contract c) (caller_request c) w).2).
Proof.
  destruct c as [now now' fault cid req].
  unfold run_alone, caller_step, document_new, upload_step. cbn [caller_now caller_now' caller_fault caller_contract caller_request].
  destruct (get_contract cid (db w)); [|done].
  destruct (req_method req); [done|].
  destruct (req_files req !! "document") as [file|]; [|done].
  destruct (negb _); [done|].
  case_bool_decide; [done|].
  destruct fault as [[|partial| | |]|]; cbn; rewrite ?lookup_insert_eq; try done.
Qed.

(** A step changes the versions of a contract only by the insert of a
    caller of that contract, which adds the version the caller holds. *)
Lemma step_versions c pc w cid :
  caller_contract c = cid ->
  versions_of cid (db (step c pc w).2) =
  match pc, (step c pc w).1 with
  | Hashed _ _ v _, Inserted _ _ _ => versions_of cid (db w) ++ [v]
  | _, _ => versions_of cid (db w)
  end.
Proof.
  intros <-. destruct c as [now now' fault cid req]. unfold caller_step. cbn.
  destruct pc; cbn; repeat case_match; simplify_eq/=; try done.
  all: try (by rewrite versions_of_insert, bool_decide_eq_true_2).
Qed.

Lemma step_past_insert c pc w cid :
  past_insert pc ->
  past_insert (step c pc w).1
  /\ versions_of cid (db (step c pc w).2) = versions_of cid (db w).
Proof.
  destruct c as [now now' fault cid' req]. unfold caller_step. cbn.
  destruct pc; try done; intros _; cbn; by repeat case_match.
Qed.

Lemma step_fresh c pc w cid :
  caller_contract c = cid ->
  holds_fresh_version cid pc (db w) -> NoDup (versions_of cid (db w)) ->
  holds_fresh_version cid (step c pc w).1 (db (step c pc w).2)
  /\ NoDup (versions_of cid (db (step c pc w).2)).
Proof.
  intros Hc Hv Hn. rewrite (step_versions c pc w cid Hc). subst cid.
  destruct c as [now now' fault cid req]. unfold caller_step. cbn in *.
  destruct pc; cbn in *; repeat case_match; simplify_eq/=; try done.
  - split; [|done]. intros x. apply next_version_above.
  - split; [done|]. apply NoDup_app. split; [done|]. split; [|apply NoDup_singleton].
    intros x Hx ->%list_elem_of_singleton. specialize (Hv _ Hx). lia.
Qed.

(** Once one caller has inserted its document, the other, whatever the
    schedule, gets a version of its own. *)
Lemma serialized_versions a b cid schedule pa pb w :
  caller_contract a = cid -> caller_contract b = cid ->
  past_insert pa -> holds_fresh_version cid pb (db w) ->
  NoDup (versions_of cid (db w)) ->
  NoDup (versions_of cid (db (sched a b schedule (pa, pb, w)).2)).
Proof.
  intros Ha Hb. revert pa pb w.
  induction schedule as [|turn rest IH]; intros pa pb w Hpa Hpb Hn; [done|].
  cbn [interleave]. destruct turn.
  - destruct (step a pa w) as [pa' w'] eqn:E.
    destruct (step_past_insert a pa w cid Hpa) as [Hpa' Hv]. rewrite E in Hpa', Hv.
    cbn in Hpa', Hv.
    apply IH; [done| |by rewrite Hv].
    destruct pb; cbn in *; try done; by rewrite Hv.
  - destruct (step b pb w) as [pb' w'] eqn:E.
    destruct (step_fresh b pb w cid Hb Hpb Hn) as [Hpb' Hn']. rewrite E in Hpb', Hn'.
    cbn in Hpb', Hn'. by apply IH.
Qed.

(** The same with the callers in the other roles. *)
Lemma serialized_versions_sym a b cid schedule pa pb w :
  caller_contract a = cid -> caller_contract b = cid ->
  past_insert pb -> holds_fresh_version cid pa (db w) ->
  NoDup (versions_of cid (db w)) ->
  NoDup (versions_of cid (db (sched a b schedule (pa, pb, w)).2)).
Proof.
  intros Ha Hb. revert pa pb w.
  induction schedule as [|turn rest IH]; intros pa pb w Hpb Hpa Hn; [done|].
  cbn [interleave]. destruct turn.
  - destruct (step a pa w) as [pa' w'] eqn:E.
    destruct (step_fresh a pa w cid Ha Hpa Hn) as [Hpa' Hn']. rewrite E in Hpa', Hn'.
    cbn in Hpa', Hn'. by apply IH.
  - destruct (step b pb w) as [pb' w'] eqn:E.
    destruct (step_past_insert b pb w cid Hpb) as [Hpb' Hv]. rewrite E in Hpb', Hv.
    cbn in Hpb', Hv.
    apply IH; [done| |by rewrite Hv].
    destruct pa; cbn in *; try done; by rewrite Hv.
Qed.

Lemma before_read_fresh cid pc d : before_read pc -> holds_fresh_version cid pc d.
Proof. by destruct pc. Qed.

Lemma interleave_app a b s1 s2 st :
  sched a b (s1 ++ s2) st = sched a b s2 (sched a b s1 st).
Proof.
  revert st. induction s1 as [|turn s1 IH]; intros [[pa pb] w]; [done|].
  cbn [app interleave]. destruct turn.
  - destruct (step a pa w). apply IH.
  - destruct (step b pb w). apply IH.
Qed.

(** While the second caller waits, the first one runs as if alone. *)
Lemma interleave_first_alone a b n pa pb w :
  sched a b (replicate n true) (pa, pb, w) =
  ((run_alone BASE_DIR ascii_nfkd a n pa w).1, pb,
   (run_alone BASE_DIR ascii_nfkd a n pa w).2).
Proof.
  revert pa w. induction n as [|n IH]; intros pa w; [done|].
  cbn [replicate interleave run_alone]. destruct (step a pa w) as [pa' w']. apply IH.
Qed.

Lemma run_alone_versions a cid n pa w :
  caller_contract a = cid ->
  holds_fresh_version cid pa (db w) -> NoDup (versions_of cid (db w)) ->
  NoDup (versions_of cid (db (run_alone BASE_DIR ascii_nfkd a n pa w).2)).
Proof.
  intros Ha. revert pa w. induction n as [|n IH]; intros pa w Hpa Hn; [done|].
  cbn [run_alone]. destruct (step a pa w) as [pa' w'] eqn:E.
  destruct (step_fresh a pa w cid Ha Hpa Hn) as [Hpa' Hn']. rewrite E in Hpa', Hn'.
  by apply IH.
Qed.

(** A call that is answered before the other one starts. *)
Lemma one_after_the_other a b cid rest w :
  caller_contract a = cid -> caller_contract b = cid ->
  NoDup (versions_of cid (db w)) ->
  NoDup (versions_of cid
           (db (sched a b (replicate 6 true ++ rest) (AtStart, AtStart, w)).2)).
Proof.
  intros Ha Hb Hn. rewrite interleave_app, interleave_first_alone.
  apply (serialized_versions a b cid); [done..| | |].
  - by rewrite run_alone_document_new.
  - done.
  - by apply run_alone_versions.
Qed.
End ThreadProofs.

(** *** What each call does to the audit table *)

Section CallProofs.
Variable BASE_DIR : string.
Variable ascii_nfkd : string -> string.
Variable bump : bool.

Abbreviation do_call := (perform BASE_DIR ascii_nfkd bump).
Abbreviation do_run := (run BASE_DIR ascii_nfkd bump).
Abbreviation count := (count_audited BASE_DIR ascii_nfkd bump).

Lemma loop_other_tables cid names d d' :
  upsert_tags_loop bump cid names d = Ok d' ->
  audit_events d' = audit_events d /\ audit_events_seq d' = audit_events_seq d
  /\ documents d' = documents d /\ documents_seq d' = documents_seq d
  /\ contracts d' = contracts d /\ vendors d' = vendors d.
Proof.
  revert d. induction names as [|name rest IH]; intros d.
  - by intros [= <-].
  - rewrite loop_cons. destruct (negb _); [apply IH|].
    intros (-> & -> & -> & -> & -> & ->)%IH. unfold iteration.
    destruct (select_tag_id _ _); [|done].
    unfold insert_or_ignore_contract_tag, insert_or_ignore_tag.
    by repeat case_bool_decide.
Qed.

Lemma upsert_tags_other_tables busy cid names d d' :
  upsert_tags bump busy cid names d = Ok d' ->
  audit_events d' = audit_events d /\ audit_events_seq d' = audit_events_seq d
  /\ documents d' = documents d /\ documents_seq d' = documents_seq d
  /\ contracts d' = contracts d /\ vendors d' = vendors d.
Proof.
  unfold upsert_tags. destruct busy; [done|]. by intros H%loop_other_tables.
Qed.

(** While its own [INSERT] or [UPDATE] is pending, a handler cannot have
    [upsert_tags] write through a second connection. *)
Lemma upsert_tags_busy cid names d :
  upsert_tags bump true cid names d = Raised OperationalError.
Proof. done. Qed.

Lemma contract_new_post now now' req d :
  req_method req = POST ->
  exists e, contract_new bump now now' req d = (InternalServerError e, d).
Proof.
  intros Hm. unfold contract_new. rewrite Hm.
  destruct (contract_of_form _ _ _ _); by eexists.
Qed.

Lemma contract_edit_post now now' cid req d :
  req_method req = POST ->
  exists r, contract_edit bump now now' cid req d = (r, d)
            /\ (r = Redirect "Contract not found." Index \/ exists e, r = InternalServerError e).
Proof.
  intros Hm. unfold contract_edit. rewrite Hm.
  destruct (get_contract _ _); [|by eexists; split; [|left]].
  destruct (contract_of_form _ _ _ _); eexists; (split; [done|]); right; by eexists.
Qed.


Lemma audit_events_uploaded now now' cid req file d :
  exists e,
    audit_events (upload_audited ascii_nfkd now now' cid req file d) = audit_events d ++ [e]
    /\ audit_action e = "Uploaded document" /\ audit_contract_id e = Some cid
    /\ audit_created_at e = now'.
Proof. unfold upload_audited. rewrite record_audit_events. by eexists. Qed.

(** Every call appends one audit event when it is [audited] and none
    otherwise. *)
Lemma perform_audit c w :
  exists e,
    audit_events (db (do_call c w).2) =
    if audited c (do_call c w).1 then audit_events (db w) ++ [e]
    else audit_events (db w).
Proof.
  pose (e0 := {| audit_id := 0; audit_contract_id := None; audit_action := "";
                 audit_actor := ""; audit_created_at := ""; audit_details := "" |}).
  destruct c as [now now' fault cid req|filename|now now' req|now' vid req
                |now now' req|now now' cid req|now now' cid req|cid names
                |now cid action actor details].
  - unfold perform.
    destruct (document_new_cases BASE_DIR ascii_nfkd now now' fault cid req w)
      as [(file & _ & _ & _ & ->)|[(file & _ & _ & ->)|(r & w' & -> & Hr & _ & Hdb & _)]].
    + destruct (audit_events_uploaded now now' cid req file (db w)) as (e & E & _).
      by exists e.
    + by exists e0.
    + exists e0. cbn [fst snd audited]. rewrite Hdb.
      unfold upload_refusals in Hr.
      repeat (apply elem_of_cons in Hr as [->|Hr]; [done|]).
      by apply elem_of_nil in Hr.
  - exists e0. unfold perform, document_download.
    destruct (Werkzeug.safe_join _ _); [|done]. by destruct (_ !! _).
  - unfold perform, on_db, vendor_new.
    destruct (req_method req); [by exists e0|].
    destruct (_ !! "name"); [|by exists e0]. by eexists.
  - unfold perform, on_db, vendor_edit.
    destruct (head _); [|by exists e0].
    destruct (req_method req); [by exists e0|].
    destruct (_ !! "name"); [|by exists e0]. by eexists.
  - unfold perform, on_db, contract_new.
    destruct (req_method req); [by exists e0|].
    destruct (contract_of_form _ _ _ _); by exists e0.
  - unfold perform, on_db, contract_edit.
    destruct (get_contract _ _); [|by exists e0].
    destruct (req_method req); [by exists e0|].
    destruct (contract_of_form _ _ _ _); by exists e0.
  - unfold perform, on_db, extraction_new.
    destruct (get_contract _ _); [|by exists e0].
    destruct (req_method req); [by exists e0|].
    destruct (_ !! "extracted_fields"); [|by exists e0].
    destruct (_ !! "status"); [|by exists e0]. by eexists.
  - unfold perform.
    destruct (upsert_tags _ _ _ _ _) as [d'|] eqn:E; [|by exists e0].
    apply upsert_tags_other_tables in E as (E & _). by exists e0.
  - by eexists.
Qed.

(** The audit table is append-only, and a run of calls appends as many
    events as it has audited calls. *)
Lemma run_cons c calls w : do_run (c :: calls) w = do_run calls (do_call c w).2.
Proof. done. Qed.

Lemma count_cons c calls w :
  count (c :: calls) w =
  ((if audited c (do_call c w).1 then 1 else 0) + count calls (do_call c w).2)%nat.
Proof. simpl. by destruct (perform _ _ _ _ _). Qed.

Lemma run_audit calls w :
  exists more,
    audit_events (db (do_run calls w)) = audit_events (db w) ++ more
    /\ length more = count calls w.
Proof.
  revert w. induction calls as [|c calls IH]; intros w.
  - exists []. by rewrite app_nil_r.
  - rewrite run_cons, count_cons.
    destruct (IH (do_call c w).2) as (more & -> & <-).
    destruct (perform_audit c w) as [e ->].
    destruct (audited _ _).
    + exists (e :: more). by rewrite <- app_assoc.
    + by exists more.
Qed.
End CallProofs.

(** ** Stored bytes and recorded hashes *)

Lemma string_length_app a b : String.length (a +:+ b) = (String.length a + String.length b)%nat.
Proof. induction a as [|c a IH]; [done|]. rewrite append_cons. simpl. by rewrite IH. Qed.

Lemma hex8_length w : String.length (SHA256.hex8 w) = 8%nat.
Proof. done. Qed.

Lemma hexdigest_length data : String.length (SHA256.hexdigest data) = 64%nat.
Proof.
  unfold SHA256.hexdigest, SHA256.hex.
  by rewrite !string_length_app, !hex8_length.
Qed.

Section StoreProofs.
Variable BASE_DIR : string.
Variable ascii_nfkd : string -> string.
Variable bump : bool.

Abbreviation UPLOAD := (UPLOAD_DIR BASE_DIR).
Abbreviation do_call' := (perform BASE_DIR ascii_nfkd bump).
Abbreviation do_run' := (run BASE_DIR ascii_nfkd bump).

Lemma UPLOAD_DIR_nonempty : UPLOAD <> "".
Proof.
  unfold UPLOAD_DIR, PosixPath.join. simpl.
  intros E. assert (H : "u"%char ∈ chars "") by
    (rewrite <- E; destruct (_ || _); rewrite !chars_app, !elem_of_app;
       [right|right; right]; by left).
  by apply elem_of_nil in H.
Qed.

Lemma root_of_UPLOAD : root_of UPLOAD = UPLOAD.
Proof. unfold root_of. rewrite bool_decide_eq_false_2; [done|apply UPLOAD_DIR_nonempty]. Qed.

Lemma join_UPLOAD s :
  PosixPath.isabs s = false -> PosixPath.join UPLOAD s = under UPLOAD [s].
Proof.
  intros H. rewrite <- root_of_UPLOAD at 1. by rewrite join_relative.
Qed.

Lemma isabs_component s : "/"%char ∉ chars s -> PosixPath.isabs s = false.
Proof.
  intros Hs. destruct (PosixPath.isabs s) eqn:E; [|done]. exfalso. apply Hs.
  apply (startswith_chars _ _ _ E). by left.
Qed.

Lemma join_UPLOAD_inj s s' :
  "/"%char ∉ chars s -> "/"%char ∉ chars s' ->
  PosixPath.join UPLOAD s = PosixPath.join UPLOAD s' -> s = s'.
Proof.
  intros Hs Hs'. rewrite !join_UPLOAD by by apply isabs_component.
  unfold under. simpl PyStr.join. by intros E%(inj _)%(inj _).
Qed.

(** The file of a document is served under its storage name. *)
Lemma download_stored cid version f w bytes :
  "/"%char ∉ chars f ->
  files w !! PosixPath.join UPLOAD (stored_name_of cid version f) = Some bytes ->
  document_download BASE_DIR (stored_name_of cid version f) w = SendFile bytes.
Proof.
  intros Hf Hb. destruct (stored_name_component cid version f Hf) as (H0 & H1 & H2 & H3).
  unfold document_download. rewrite safe_join_component by done.
  rewrite <- join_UPLOAD by by apply isabs_component. by rewrite Hb.
Qed.

Lemma stored_intact_download w r :
  stored_intact BASE_DIR w -> r ∈ documents (db w) ->
  exists bytes,
    document_download BASE_DIR (document_storage_path r) w = SendFile bytes
    /\ SHA256.hexdigest bytes = document_sha256 r.
Proof.
  intros Hw Hr. destruct (Hw r Hr) as [(f & Hf & E) (bytes & Hb & Hh)].
  exists bytes. split; [|done]. rewrite E in *. by apply download_stored.
Qed.

(** A new upload to a contract is stored apart from every document the
    database already has. *)
Lemma stored_apart w r cid file bytes :
  stored_intact BASE_DIR w -> r ∈ documents (db w) ->
  <[PosixPath.join UPLOAD (upload_stored_name ascii_nfkd cid file (db w)) := bytes]>
    (files w) !! PosixPath.join UPLOAD (document_storage_path r)
  = files w !! PosixPath.join UPLOAD (document_storage_path r).
Proof.
  intros Hw Hr. destruct (Hw r Hr) as [(f & Hf & E) _].
  apply lookup_insert_ne. rewrite E. unfold upload_stored_name.
  intros Heq. apply join_UPLOAD_inj in Heq;
    [|apply stored_name_component, secure_filename_no_slash
     |by apply stored_name_component].
  apply stored_name_of_inj in Heq as (Hc & Hv & _).
  assert (Hin : document_version r ∈ versions_of cid (db w)).
  { unfold versions_of. apply list_elem_of_fmap_2, list_elem_of_filter. by split. }
  apply next_version_above in Hin. lia.
Qed.

Lemma stored_intact_files w bytes cid file :
  stored_intact BASE_DIR w ->
  stored_intact BASE_DIR
    {| db := db w;
       files := <[PosixPath.join UPLOAD (upload_stored_name ascii_nfkd cid file (db w))
                  := bytes]> (files w) |}.
Proof.
  intros Hw r Hr. destruct (Hw r Hr) as [Hname (b & Hb & Hh)].
  split; [done|]. exists b. split; [|done]. cbn [files].
  by rewrite stored_apart.
Qed.

Lemma stored_intact_db w d :
  documents d = documents (db w) -> stored_intact BASE_DIR w ->
  stored_intact BASE_DIR (put_db d w).
Proof. intros E Hw r Hr. cbn in Hr. rewrite E in Hr. by apply Hw. Qed.

Lemma stored_intact_inserted now cid file w :
  stored_intact BASE_DIR w ->
  stored_intact BASE_DIR
    {| db := upload_inserted ascii_nfkd now cid file (db w);
       files := <[PosixPath.join UPLOAD (upload_stored_name ascii_nfkd cid file (db w))
                  := upload_content file]> (files w) |}.
Proof.
  intros Hw r. cbn [db files]. unfold upload_inserted at 1, insert_document. cbn [documents].
  intros [Hr| ->%list_elem_of_singleton]%elem_of_app.
  - destruct (Hw r Hr) as [Hname (b & Hb & Hh)].
    split; [done|]. exists b. split; [|done]. by rewrite stored_apart.
  - cbn. split.
    + eexists. split; [|done]. apply secure_filename_no_slash.
    + eexists. split; [apply lookup_insert_eq|done].
Qed.

Lemma perform_stored_intact c w :
  stored_intact BASE_DIR w -> stored_intact BASE_DIR (do_call' c w).2.
Proof.
  intros Hw.
  destruct c as [now now' fault cid req|filename|now now' req|now' vid req
                |now now' req|now now' cid req|now now' cid req|cid names
                |now cid action actor details].
  - unfold perform.
    destruct (document_new_cases BASE_DIR ascii_nfkd now now' fault cid req w)
      as [(file & _ & _ & _ & ->)|[(file & _ & _ & ->)
         |(r & w' & -> & _ & _ & Hdb & [Hf|(file & bytes & _ & Hf)])]]; cbn [snd].
    + change (stored_intact BASE_DIR
                (put_db (upload_audited ascii_nfkd now now' cid req file (db w))
                   {| db := upload_inserted ascii_nfkd now cid file (db w);
                      files := <[PosixPath.join UPLOAD
                                   (upload_stored_name ascii_nfkd cid file (db w))
                                 := upload_content file]> (files w) |})).
      apply stored_intact_db; [done|]. by apply stored_intact_inserted.
    + by apply stored_intact_inserted.
    + destruct w'. cbn in *. subst. by destruct w.
    + destruct w'. cbn in *. subst. by apply stored_intact_files.
  - done.
  - unfold perform, on_db, vendor_new.
    destruct (req_method req); [by destruct w|].
    destruct (_ !! "name"); [|by destruct w]. by apply stored_intact_db.
  - unfold perform, on_db, vendor_edit.
    destruct (head _); [|by destruct w].
    destruct (req_method req); [by destruct w|].
    destruct (_ !! "name"); [|by destruct w]. by apply stored_intact_db.
  - unfold perform, on_db, contract_new.
    destruct (req_method req); [by destruct w|].
    destruct (contract_of_form _ _ _ _); by destruct w.
  - unfold perform, on_db, contract_edit.
    destruct (get_contract _ _); [|by destruct w].
    destruct (req_method req); [by destruct w|].
    destruct (contract_of_form _ _ _ _); by destruct w.
  - unfold perform, on_db, extraction_new.
    destruct (get_contract _ _); [|by destruct w].
    destruct (req_method req); [by destruct w|].
    destruct (_ !! "extracted_fields"); [|by destruct w].
    destruct (_ !! "status"); [|by destruct w]. by apply stored_intact_db.
  - unfold perform.
    destruct (upsert_tags _ _ _ _ _) as [d'|] eqn:E; [|done].
    apply upsert_tags_other_tables in E as (_ & _ & E & _). by apply stored_intact_db.
  - by apply stored_intact_db.
Qed.

Lemma run_stored_intact calls w :
  stored_intact BASE_DIR w -> stored_intact BASE_DIR (do_run' calls w).
Proof.
  revert w. induction calls as [|c calls IH]; intros w Hw; [done|].
  apply IH. by apply perform_stored_intact.
Qed.

Lemma stored_intact_empty w : documents (db w) = [] -> stored_intact BASE_DIR w.
Proof. intros E r Hr. rewrite E in Hr. by apply elem_of_nil in Hr. Qed.
End StoreProofs.

(** The constants and two digests of FIPS 180-4. *)
Example sha256_constants :
  length SHA256.K = 64%nat
  /\ nth 0 SHA256.K 0 = 0x428a2f98 /\ nth 63 SHA256.K 0 = 0xc67178f2
  /\ SHA256.ha SHA256.initial = 0x6a09e667 /\ SHA256.hh SHA256.initial = 0x5be0cd19.
Proof. by vm_compute. Qed.

Example sha256_abc :
  SHA256.hexdigest (bytes_of "abc")
  = "ba7816bf8f01cfea414140de5dae2223b00361a396177a9cb410ff61f20015ad".
Proof. by vm_compute. Qed.

Example sha256_two_blocks :
  SHA256.hexdigest (bytes_of "abcdbcdecdefdefgefghfghighijhijkijkljklmklmnlmnomnopnopq")
  = "248d6a61d20638b8e5c026930c3e6039a33ce45964ff2167f6ecedd419db06c1".
Proof. by vm_compute. Qed.

(** ** The constraints hold in every database the application reaches *)

Lemma init_db_wf : db_wf init_db.
Proof. repeat split; constructor. Qed.

Lemma db_wf_same d d' :
  tags d' = tags d -> contract_tags d' = contract_tags d ->
  contracts d' = contracts d -> audit_events d' = audit_events d ->
  db_wf d -> db_wf d'.
Proof.
  unfold db_wf, tags_wf, contracts_wf, audit_ids_ascending.
  by intros -> -> -> ->.
Qed.

Lemma record_audit_wf now cid action actor details d :
  db_wf d -> db_wf (record_audit now cid action actor details d).
Proof.
  intros (Ht & Hc & Ha). split; [done|]. split; [done|].
  by apply record_audit_ascending.
Qed.

Section WfProofs.
Variable BASE_DIR : string.
Variable ascii_nfkd : string -> string.
Variable bump : bool.

Lemma perform_db_wf c w :
db_wf (db w) -> db_wf (db (perform BASE_DIR ascii_nfkd bump c w).2).
Proof.
intros Hw.
destruct c as [now now' fault cid req|filename|now now' req|now' vid req
              |now now' req|now now' cid req|now now' cid req|cid names
              |now cid action actor details].
- unfold perform.
  destruct (document_new_cases BASE_DIR ascii_nfkd now now' fault cid req w)
    as [(file & _ & _ & _ & ->)|[(file & _ & _ & ->)
       |(r & w' & -> & _ & _ & Hdb & _)]]; cbn [snd db].
  + apply record_audit_wf. by apply (db_wf_same (db w)).
  + by apply (db_wf_same (db w)).
  + by rewrite Hdb.
- done.
- unfold perform, on_db, vendor_new.
  destruct (req_method req); [done|].
  destruct (_ !! "name"); [|done].
  apply record_audit_wf. by apply (db_wf_same (db w)).
- unfold perform, on_db, vendor_edit.
  destruct (head _); [|done].
  destruct (req_method req); [done|].
  destruct (_ !! "name"); [|done].
  apply record_audit_wf. by apply (db_wf_same (db w)).
- unfold perform, on_db, contract_new.
  destruct (req_method req); [done|].
  by destruct (contract_of_form _ _ _ _).
- unfold perform, on_db, contract_edit.
  destruct (get_contract _ _); [|done].
  destruct (req_method req); [done|].
  by destruct (contract_of_form _ _ _ _).
- unfold perform, on_db, extraction_new.
  destruct (get_contract _ _); [|done].
  destruct (req_method req); [done|].
  destruct (_ !! "extracted_fields"); [|done].
  destruct (_ !! "status"); [|done].
  apply record_audit_wf. by apply (db_wf_same (db w)).
- unfold perform.
  destruct (upsert_tags _ _ _ _ _) as [d'|] eqn:E; [|done].
  destruct Hw as (Ht & Hc & Ha).
  pose proof (upsert_tags_wf bump cid names (db w) d' Ht E) as Ht'.
  apply upsert_tags_other_tables in E as (Ea & _ & _ & _ & Ec & _).
  cbn [snd db put_db]. split; [done|]. unfold contracts_wf, audit_ids_ascending.
  by rewrite Ec, Ea.
- by apply record_audit_wf.
Qed.

Lemma run_db_wf calls w :
db_wf (db w) -> db_wf (db (run BASE_DIR ascii_nfkd bump calls w)).
Proof.
revert w. induction calls as [|c calls IH]; intros w Hw; [done|].
apply IH. by apply perform_db_wf.
Qed.
End WfProofs.

(** * What the specification says of the application *)

(** C1. For a contract that starts with no documents, [N] uploads made one
    after the other, each answered as a successful upload, leave the contract
    with the versions [1..N] in upload order: the i-th upload gets version
    [i], with no gap and no duplicate, whatever the file names are. *)
Theorem sequential_uploads_number_versions
    (BASE_DIR : string) (ascii_nfkd : string -> string) (cid : Z)
    (us : list upload) (w w' : world) :
  versions_of cid (db w) = [] ->
  upload_all BASE_DIR ascii_nfkd cid us w = Some w' ->
  versions_of cid (db w') = Z.of_nat <$> seq 1 (length us).
Proof.
  intros Hempty Hrun.
  apply (upload_all_versions BASE_DIR ascii_nfkd cid us w w' 0); [|done].
  by rewrite Hempty.
Qed.

(** Two uploads of the same file name to contract 1 get the versions 1 and 2. *)
Lemma sequential_uploads_witness :
  versions_of 1 (db Example.w0) = []
  /\ exists w',
       upload_all Example.base_dir id 1
         [Example.upload "msa.pdf" "abc"; Example.upload "msa.pdf" "other bytes"]
         Example.w0 = Some w'
       /\ versions_of 1 (db w') = [1; 2].
Proof.
  split; [reflexivity|].
  destruct (upload_all Example.base_dir id 1
              [Example.upload "msa.pdf" "abc"; Example.upload "msa.pdf" "other bytes"]
              Example.w0) as [w'|] eqn:E; [|by vm_compute in E].
  exists w'. split; [reflexivity|].
  exact (sequential_uploads_number_versions Example.base_dir id 1 _ Example.w0 w'
           eq_refl E).
Defined.

(** C2, as the code has it.  Two uploads to the same contract get different
    versions when one caller has made its insert before the other runs its
    version query, whatever the schedule of the remaining steps: the versions
    of the contract stay free of duplicates.  So it is, in particular, when
    the first call has taken its six steps before the second starts.  Nothing
    serialises the query and the insert, so the guarantee does not reach
    callers that both run the query before either inserts. *)
Theorem serialized_uploads_get_distinct_versions
    (BASE_DIR : string) (ascii_nfkd : string -> string) (a b : caller) (cid : Z)
    (schedule : list bool) (pa pb : upload_pc) (w : world) :
  caller_contract a = cid -> caller_contract b = cid ->
  NoDup (versions_of cid (db w)) ->
  ((past_insert pa /\ before_read pb) \/ (past_insert pb /\ before_read pa) ->
   NoDup (versions_of cid
            (db (interleave BASE_DIR ascii_nfkd a b schedule (pa, pb, w)).2)))
  /\ NoDup (versions_of cid
              (db (interleave BASE_DIR ascii_nfkd a b (replicate 6 true ++ schedule)
                     (AtStart, AtStart, w)).2)).
Proof.
  intros Ha Hb Hn. split.
  - intros [[Hpa Hpb]|[Hpb Hpa]].
    + apply (serialized_versions _ _ a b cid); auto using before_read_fresh.
    + apply (serialized_versions_sym _ _ a b cid); auto using before_read_fresh.
  - by apply one_after_the_other.
Qed.

(** The second caller starts after the first upload was answered. *)
Lemma serialized_uploads_witness :
  past_insert (Finished (uploaded 1)) /\ before_read AtStart
  /\ NoDup (versions_of 1 (db Example.w1))
  /\ NoDup (versions_of 1
              (db (interleave Example.base_dir id
                     (Example.caller "msa.pdf" "abc") (Example.caller "msa.pdf" "xyz")
                     [false; false; false; true; false; false; false]
                     (Finished (uploaded 1), AtStart, Example.w1)).2)).
Proof.
  assert (Hn : NoDup (versions_of 1 (db Example.w1))).
  { change (NoDup [1]). apply NoDup_singleton. }
  split; [exact I|]. split; [exact I|]. split; [exact Hn|].
  apply (serialized_uploads_get_distinct_versions _ _ _ _ 1); [reflexivity..|exact Hn|].
  left. split; exact I.
Defined.

(** C2, as stated, fails: when both callers run the version query before
    either inserts, both uploads are answered as successful and both
    documents carry version 1. *)
Lemma interleaved_uploads_share_a_version :
  (interleave Example.base_dir id
     (Example.caller "msa.pdf" "abc") (Example.caller "msa.pdf" "xyz")
     Example.racing_schedule (AtStart, AtStart, Example.w0)).1
  = (Finished (uploaded 1), Finished (uploaded 1))
  /\ versions_of 1
       (db (interleave Example.base_dir id
              (Example.caller "msa.pdf" "abc") (Example.caller "msa.pdf" "xyz")
              Example.racing_schedule (AtStart, AtStart, Example.w0)).2)
     = [1; 1].
Proof. split; by vm_compute. Qed.

(** C3, as the code has it.  In every world reached from one without
    documents by calls made one after the other, each document row records
    the SHA-256 digest of the bytes stored under its storage name:
    downloading that name returns bytes whose digest, 64 hexadecimal
    characters, is the recorded one.  The digest is a function of the bytes
    alone: the row of a successful upload records the digest of the uploaded
    content, whatever the file name and the time.  Uploads that run
    interleaved and come to share a storage name are not covered. *)
Theorem recorded_hash_is_digest_of_stored_bytes
    (BASE_DIR : string) (ascii_nfkd : string -> string) (bump : bool)
    (calls : list call) (w0 : world) (r : document_row) :
  documents (db w0) = [] ->
  r ∈ documents (db (run BASE_DIR ascii_nfkd bump calls w0)) ->
  (exists bytes,
      document_download BASE_DIR (document_storage_path r)
        (run BASE_DIR ascii_nfkd bump calls w0) = SendFile bytes
      /\ SHA256.hexdigest bytes = document_sha256 r)
  /\ String.length (document_sha256 r) = 64%nat
  /\ (forall now now' fault cid req w w',
        document_new BASE_DIR ascii_nfkd now now' fault cid req w = (uploaded cid, w') ->
        exists file row,
          req_files req !! "document" = Some file
          /\ documents (db w') = documents (db w) ++ [row]
          /\ document_sha256 row = SHA256.hexdigest (upload_content file)).
Proof.
  intros Hempty Hr.
  pose proof (run_stored_intact BASE_DIR ascii_nfkd bump calls w0
                (stored_intact_empty BASE_DIR w0 Hempty)) as Hw.
  destruct (stored_intact_download BASE_DIR _ r Hw Hr) as (bytes & Hd & Hh).
  split; [by exists bytes|]. split; [rewrite <- Hh; apply hexdigest_length|].
  intros now now' fault cid req w w' (file & Hf & _ & ->)%document_new_uploaded.
  exists file. eexists. split; [done|]. split; reflexivity.
Qed.

(** The scenario of the specification: [msa.pdf] with the bytes [abc]. *)
Lemma recorded_hash_witness :
  documents (db Example.w0) = []
  /\ exists r,
       r ∈ documents (db Example.w1)
       /\ document_sha256 r
          = "ba7816bf8f01cfea414140de5dae2223b00361a396177a9cb410ff61f20015ad"
       /\ exists bytes,
            document_download Example.base_dir (document_storage_path r) Example.w1
            = SendFile bytes
            /\ SHA256.hexdigest bytes = document_sha256 r.
Proof.
  split; [reflexivity|].
  destruct (documents (db Example.w1)) as [|r rest] eqn:E; [by vm_compute in E|].
  exists r. split; [by left|]. split; [by vm_compute in E; injection E as <- _|].
  refine (proj1 (recorded_hash_is_digest_of_stored_bytes Example.base_dir id false
            [DocumentNew "2024-05-02T10:00:00" "2024-05-02T10:00:00" None 1
               (Example.post "msa.pdf" "abc")]
            Example.w0 r eq_refl _)).
  change (r ∈ documents (db Example.w1)). rewrite E. by left.
Defined.

(** C3, as stated, fails: two uploads of [msa.pdf] to contract 1 that both
    run the version query before either inserts are both answered as
    successful and share the storage name [1_1_msa.pdf].  The second write
    replaces the bytes of the first, so the row of the first upload records
    the digest of [abc] while a download of its storage name returns [xyz],
    whose digest is another one. *)
Lemma overwritten_upload_keeps_its_hash :
  let out := interleave Example.base_dir id
               (Example.caller "msa.pdf" "abc") (Example.caller "msa.pdf" "xyz")
               Example.racing_schedule (AtStart, AtStart, Example.w0) in
  out.1 = (Finished (uploaded 1), Finished (uploaded 1))
  /\ exists r,
       head (documents (db out.2)) = Some r
       /\ document_storage_path r = "1_1_msa.pdf"
       /\ document_sha256 r = SHA256.hexdigest (bytes_of "abc")
       /\ document_sha256 r
          = "ba7816bf8f01cfea414140de5dae2223b00361a396177a9cb410ff61f20015ad"
       /\ document_download Example.base_dir (document_storage_path r) out.2
          = SendFile (bytes_of "xyz")
       /\ SHA256.hexdigest (bytes_of "xyz") <> document_sha256 r.
Proof.
  cbv zeta. split; [by vm_compute|].
  destruct (head (documents (db (interleave Example.base_dir id
               (Example.caller "msa.pdf" "abc") (Example.caller "msa.pdf" "xyz")
               Example.racing_schedule (AtStart, AtStart, Example.w0)).2)))
    as [r|] eqn:E; [|by vm_compute in E].
  exists r. split; [done|].
  vm_compute in E. injection E as <-.
  repeat split; try by vm_compute.
Qed.

(** C4, as the code has it.  An upload ends in one of three ways.  Answered
    as successful, it has appended one document row and one "Uploaded
    document" event for the contract.  Failed at the insert of the audit
    event, it has appended the document row and no event: the two inserts are
    separate transactions.  Failed or refused anywhere before (the request
    checks, the version query, the file write, the read for the hash, the
    document insert), it has left the database as it was. *)
Theorem upload_effects
    (BASE_DIR : string) (ascii_nfkd : string -> string) (now now' : string)
    (fault : option fault_point) (cid : Z) (req : request) (w : world) :
  let r := (document_new BASE_DIR ascii_nfkd now now' fault cid req w).1 in
  let w' := (document_new BASE_DIR ascii_nfkd now now' fault cid req w).2 in
  (r = uploaded cid /\ fault = None
   /\ exists doc ev,
        documents (db w') = documents (db w) ++ [doc]
        /\ audit_events (db w') = audit_events (db w) ++ [ev]
        /\ document_contract_id doc = cid
        /\ document_version doc = next_version cid (db w)
        /\ audit_contract_id ev = Some cid
        /\ audit_action ev = "Uploaded document")
  \/ (r = InternalServerError OperationalError /\ fault = Some FailAudit
      /\ exists doc,
           documents (db w') = documents (db w) ++ [doc]
           /\ audit_events (db w') = audit_events (db w))
  \/ (r ∈ upload_refusals /\ r <> uploaded cid /\ db w' = db w).
Proof.
  intros r w'. subst r w'.
  destruct (document_new_cases BASE_DIR ascii_nfkd now now' fault cid req w)
    as [(file & _ & _ & Hnone & ->)|[(file & _ & Hf & ->)|(r & w' & -> & Hr & Hne & Hdb & _)]].
  - left. repeat split; [done|]. by eexists _, _.
  - right; left. repeat split; [done|]. by eexists.
  - right; right. by repeat split.
Qed.

(** C4, as stated, fails: an upload whose audit insert fails is answered with
    an error, yet its document row is in the database, without any audit
    event. *)
Lemma upload_without_audit_event :
  let out := document_new Example.base_dir id "2024-05-02T10:00:00" "2024-05-02T10:00:00"
               (Some FailAudit) 1 (Example.post "msa.pdf" "abc") Example.w0 in
  out.1 = InternalServerError OperationalError
  /\ documents (db Example.w0) = []
  /\ document_storage_path <$> documents (db out.2) = ["1_1_msa.pdf"]
  /\ audit_events (db out.2) = [].
Proof. by vm_compute. Qed.

(** C5, as the code has it.  A download only ever sends a file that lies
    under the upload directory: [upload dir/c1/.../cn], where no component is
    [..] or holds a separator.  The answer depends on no other file.  A name
    that is absolute, or whose normal form is [..] or begins with [../], is
    answered with "not found".  A name that holds separators is not refused
    for that: it is normalised and looked up under the upload directory. *)
Theorem download_stays_under_upload_dir
    (BASE_DIR : string) (filename : string) (w : world) :
  (forall bytes,
      document_download BASE_DIR filename w = SendFile bytes ->
      exists comps,
        comps <> [] /\ Forall stays_inside comps
        /\ files w !! under (UPLOAD_DIR BASE_DIR) comps = Some bytes)
  /\ (forall w',
        (forall comps, Forall stays_inside comps ->
                       files w' !! under (UPLOAD_DIR BASE_DIR) comps
                       = files w !! under (UPLOAD_DIR BASE_DIR) comps) ->
        document_download BASE_DIR filename w' = document_download BASE_DIR filename w)
  /\ (filename <> "" ->
      PosixPath.isabs (PosixPath.normpath filename) = true
      \/ PosixPath.normpath filename = ".."
      \/ PyStr.startswith "../" (PosixPath.normpath filename) = true ->
      document_download BASE_DIR filename w = NotFound).
Proof.
  unfold document_download. repeat split.
  - intros bytes.
    destruct (Werkzeug.safe_join _ _) as [path|] eqn:E; [|done].
    apply safe_join_under in E as (comps & Hne & Hin & ->).
    destruct (files w !! _) as [b|] eqn:Hb; [|done]. intros [= <-]. by exists comps.
  - intros w' Hsame.
    destruct (Werkzeug.safe_join _ _) as [path|] eqn:E; [|done].
    apply safe_join_under in E as (comps & Hne & Hin & ->). by rewrite Hsame.
  - intros Hne H. unfold Werkzeug.safe_join.
    rewrite bool_decide_eq_true_2 by done.
    destruct H as [->|[->| ->]]; [done|by rewrite orb_true_r|by rewrite orb_true_r].
Qed.

(** The file uploaded as [msa.pdf] is served from the upload directory, and
    a name that climbs out of it is not. *)
Lemma download_witness :
  (exists comps,
      comps <> [] /\ Forall stays_inside comps
      /\ files Example.w1 !! under (UPLOAD_DIR Example.base_dir) comps
         = Some (bytes_of "abc"))
  /\ document_download Example.base_dir "../contract_mgmt.db" Example.w1 = NotFound.
Proof.
  split.
  - apply (proj1 (download_stays_under_upload_dir Example.base_dir "1_1_msa.pdf"
                    Example.w1)).
    by vm_compute.
  - apply (proj2 (proj2 (download_stays_under_upload_dir Example.base_dir
                           "../contract_mgmt.db" Example.w1))).
    + discriminate.
    + right; right. by vm_compute.
Defined.

(** C5, as stated, fails: a name that holds separators, and even a [../]
    sequence, is served when it resolves inside the upload directory. *)
Lemma download_accepts_separators :
  "/"%char ∈ chars "docs/../1_1_msa.pdf"
  /\ document_download Example.base_dir "docs/../1_1_msa.pdf" Example.w1
     = SendFile (bytes_of "abc").
Proof.
  split; [|by vm_compute].
  unfold chars. simpl. do 4 right. by left.
Qed.

(** C6. [upsert_tags] replaces the tags of the contract: after a call with
    [L1] and then one with [L2], the contract has exactly the cleaned names
    of [L2], each once, listed in the order of the names; the cleaned names
    of [L1] are still in the vocabulary, and those not in [L2] are no longer
    tags of the contract. *)
Theorem setTags_replaces
    (bump : bool) (cid : Z) (L1 L2 : list string) (d : database) :
  tags_wf d ->
  exists d1 d2,
    upsert_tags bump false cid L1 d = Ok d1
    /\ upsert_tags bump false cid L2 d1 = Ok d2
    /\ (forall n, n ∈ get_contract_tags cid d2 <-> n ∈ cleaned_names L2)
    /\ NoDup (get_contract_tags cid d2)
    /\ Sorted String.le (get_contract_tags cid d2)
    /\ (forall n, n ∈ cleaned_names L1 -> n ∈ vocabulary d2)
    /\ (forall n, n ∈ cleaned_names L1 -> n ∉ cleaned_names L2 ->
                  n ∉ get_contract_tags cid d2).
Proof.
  intros Hwf.
  destruct (upsert_tags_replaces bump cid L1 d Hwf) as (d1 & E1 & Hwf1 & _ & Hv1 & _).
  destruct (upsert_tags_replaces bump cid L2 d1 Hwf1) as (d2 & E2 & Hwf2 & Hm & _ & Hv2).
  exists d1, d2. repeat split; try done.
  - by apply Hm.
  - by apply Hm.
  - by apply NoDup_get_contract_tags.
  - apply get_contract_tags_sorted.
  - intros n Hn. by apply Hv2, Hv1.
  - intros n _ Hn Hin. by apply Hn, Hm.
Qed.

(** [X] after [A, B]: the contract has the tag [X] alone, and [A] and [B]
    remain in the vocabulary. *)
Lemma setTags_replaces_witness :
  tags_wf Example.db0
  /\ exists d1 d2,
       upsert_tags false false 1 ["A"; "B"] Example.db0 = Ok d1
       /\ upsert_tags false false 1 ["X"] d1 = Ok d2
       /\ get_contract_tags 1 d2 = ["X"]
       /\ "A" ∈ vocabulary d2 /\ "B" ∈ vocabulary d2.
Proof.
  assert (Hwf : tags_wf Example.db0) by (repeat split; constructor).
  split; [exact Hwf|].
  destruct (setTags_replaces false 1 ["A"; "B"] ["X"] Example.db0 Hwf)
    as (d1 & d2 & E1 & E2 & _ & _ & _ & Hv & _).
  exists d1, d2. split; [exact E1|]. split; [exact E2|].
  split; [|split; apply Hv; by vm_compute; repeat constructor].
  vm_compute in E1. injection E1 as <-. vm_compute in E2. injection E2 as <-.
  reflexivity.
Defined.

(** C7. [upsert_tags] trims each name, drops those that are empty once
    trimmed, and tells names apart by case: after a call with
    ["A"; " a "; ""; "B"] the contract has the tags [A], [B] and [a] and no
    other; in general it has the trimmed, non-empty names of the list, the
    trimmed name being the given one without the white space at its two
    ends. *)
Theorem setTags_normalizes (bump : bool) (cid : Z) (d : database) :
  tags_wf d ->
  (exists d',
      upsert_tags bump false cid ["A"; " a "; ""; "B"] d = Ok d'
      /\ get_contract_tags cid d' = ["A"; "B"; "a"])
  /\ (forall names,
        exists d',
          upsert_tags bump false cid names d = Ok d'
          /\ forall n, n ∈ get_contract_tags cid d' <->
                       n <> "" /\ exists raw, raw ∈ names /\ n = PyStr.strip raw)
  /\ (forall raw,
        exists l r,
          raw = l +:+ PyStr.strip raw +:+ r
          /\ Forall (fun c => PyStr.isspace c = true) (chars l)
          /\ Forall (fun c => PyStr.isspace c = true) (chars r)
          /\ (forall c, head (chars (PyStr.strip raw)) = Some c -> PyStr.isspace c = false)
          /\ (forall c, last (chars (PyStr.strip raw)) = Some c -> PyStr.isspace c = false)).
Proof.
  intros Hwf. split; [|split].
  - destruct (upsert_tags_replaces bump cid ["A"; " a "; ""; "B"] d Hwf)
      as (d' & E & Hwf' & Hm & _).
    exists d'. split; [done|].
    apply get_contract_tags_eq; [done| | |].
    + repeat constructor.
    + apply (bool_decide_unpack _). by vm_compute.
    + intros n. rewrite Hm.
      change (cleaned_names ["A"; " a "; ""; "B"]) with ["A"; "a"; "B"].
      rewrite !elem_of_cons, !elem_of_nil. tauto.
  - intros names.
    destruct (upsert_tags_replaces bump cid names d Hwf) as (d' & E & _ & Hm & _).
    exists d'. split; [done|]. intros n. rewrite Hm. unfold cleaned_names.
    rewrite list_elem_of_filter, list_elem_of_fmap.
    split; (intros [Hn (raw & Hraw & Hin)]; split; [done|by exists raw]).
  - apply strip_spec.
Qed.

Lemma setTags_normalizes_witness :
  tags_wf init_db
  /\ exists d',
       upsert_tags true false 7 ["A"; " a "; ""; "B"] init_db = Ok d'
       /\ get_contract_tags 7 d' = ["A"; "B"; "a"].
Proof.
  assert (Hwf : tags_wf init_db) by (repeat split; constructor).
  split; [exact Hwf|]. exact (proj1 (setTags_normalizes true 7 init_db Hwf)).
Defined.

(** C8, as the code has it.  A call appends exactly one audit event when it
    is a request answered with a success message (document uploaded, vendor
    or contract created or updated, extraction logged) or [record_audit]
    itself, and none otherwise; [upsert_tags] appends none, the tags of a
    contract being covered by the event of the contract request that sets
    them.  Events are only ever appended, a run of calls appends as many as
    it has such calls, and the audit log lists every event there is, so never
    fewer than that. *)
Theorem audit_event_per_audited_call
    (BASE_DIR : string) (ascii_nfkd : string -> string) (bump : bool) :
  (forall c w,
      exists e,
        audit_events (db (perform BASE_DIR ascii_nfkd bump c w).2) =
        if audited c (perform BASE_DIR ascii_nfkd bump c w).1
        then audit_events (db w) ++ [e]
        else audit_events (db w))
  /\ (forall busy cid names d d',
        upsert_tags bump busy cid names d = Ok d' -> audit_events d' = audit_events d)
  /\ (forall calls w,
        exists more,
          audit_events (db (run BASE_DIR ascii_nfkd bump calls w))
          = audit_events (db w) ++ more
          /\ length more = count_audited BASE_DIR ascii_nfkd bump calls w)
  /\ (forall calls w,
        (count_audited BASE_DIR ascii_nfkd bump calls w
         <= length (audit_log (db (run BASE_DIR ascii_nfkd bump calls w))))%nat)
  /\ (forall d, contracts_wf d -> fst <$> audit_log d ≡ₚ audit_events d).
Proof.
  repeat split.
  - apply perform_audit.
  - intros busy cid names d d' H. by apply upsert_tags_other_tables in H as [? _].
  - apply run_audit.
  - intros calls w. destruct (run_audit BASE_DIR ascii_nfkd bump calls w) as (more & E & <-).
    etrans; [|apply length_audit_log]. rewrite E, length_app. lia.
  - apply audit_log_events.
Qed.

(** An upload, a new vendor and a tag edit: two events, both listed. *)
Lemma audit_event_witness :
  contracts_wf Example.db0
  /\ fst <$> audit_log Example.db0 ≡ₚ audit_events Example.db0
  /\ exists calls,
       count_audited Example.base_dir id false calls Example.w0 = 2%nat
       /\ (count_audited Example.base_dir id false calls Example.w0
           <= length (audit_log (db (run Example.base_dir id false calls Example.w0))))%nat.
Proof.
  assert (Hwf : contracts_wf Example.db0).
  { apply NoDup_singleton. }
  destruct (audit_event_per_audited_call Example.base_dir id false)
    as (_ & _ & _ & Hcount & Hlog).
  split; [exact Hwf|]. split; [exact (Hlog _ Hwf)|].
  exists [DocumentNew "2024-05-02T10:00:00" "2024-05-02T10:00:00" None 1
            (Example.post "msa.pdf" "abc");
          VendorNew "2024-05-02T10:01:00" "2024-05-02T10:01:00"
            {| req_method := POST; req_form := {["name" := "Acme"]}; req_files := ∅ |};
          UpsertTags 1 ["legal"; "msa"]].
  split; [by vm_compute|]. apply Hcount.
Defined.

(** C8, as stated, fails: [upsert_tags] changes the tags of contract 1 and
    leaves no audit event. *)
Lemma setTags_leaves_no_audit_event :
  exists d',
    upsert_tags false false 1 ["A"; "B"] Example.db0 = Ok d'
    /\ get_contract_tags 1 Example.db0 = []
    /\ get_contract_tags 1 d' = ["A"; "B"]
    /\ audit_events d' = audit_events Example.db0.
Proof. eexists. by vm_compute. Qed.

(** C9, as the code has it.  Both audit listings, the one of a contract and
    the audit log, hold the events they are asked for in the order of
    [listed_before]: [created_at] never grows from one row to the next, and
    rows with the same [created_at] come in the order of their ids, the
    earlier insert first, which is the order the rows were scanned in: the
    queries sort by [created_at] alone. *)
Theorem audit_listings_order (cid : Z) (d : database) :
  audit_ids_ascending d -> contracts_wf d ->
  Sorted listed_before (contract_audits cid d)
  /\ Sorted listed_before (fst <$> audit_log d)
  /\ (forall a, a ∈ contract_audits cid d <->
                a ∈ audit_events d /\ audit_contract_id a = Some cid)
  /\ fst <$> audit_log d ≡ₚ audit_events d.
Proof.
  intros Hasc Hwf.
  split; [by apply contract_audits_listed|].
  split; [by apply audit_log_listed|].
  split; [intros a; apply elem_of_contract_audits|by apply audit_log_events].
Qed.

Lemma audit_listings_witness :
  audit_ids_ascending Example.two_events /\ contracts_wf Example.two_events
  /\ Sorted listed_before (contract_audits 1 Example.two_events)
  /\ Sorted listed_before (fst <$> audit_log Example.two_events).
Proof.
  assert (Hasc : audit_ids_ascending Example.two_events).
  { do 2 apply record_audit_ascending. constructor. }
  assert (Hwf : contracts_wf Example.two_events).
  { apply NoDup_singleton. }
  split; [exact Hasc|]. split; [exact Hwf|].
  destruct (audit_listings_order 1 Example.two_events Hasc Hwf) as (H1 & H2 & _).
  by split.
Defined.

(** C9, as stated, fails: of two events of the same second the older one
    (id 1) is listed before the newer one (id 2), in both listings. *)
Lemma audit_ties_oldest_first :
  audit_created_at <$> audit_events Example.two_events
  = ["2024-05-02T10:00:00"; "2024-05-02T10:00:00"]
  /\ audit_id <$> contract_audits 1 Example.two_events = [1; 2]
  /\ audit_id <$> (fst <$> audit_log Example.two_events) = [1; 2]
  /\ ~ Sorted newer (contract_audits 1 Example.two_events)
  /\ ~ Sorted newer (fst <$> audit_log Example.two_events).
Proof.
  split; [by vm_compute|]. split; [by vm_compute|]. split; [by vm_compute|].
  split.
  - destruct (contract_audits 1 Example.two_events) as [|a [|b rest]] eqn:E;
      [by vm_compute in E..|].
    vm_compute in E. injection E as <- <- <-. by apply ties_not_newer.
  - destruct (fst <$> audit_log Example.two_events) as [|a [|b rest]] eqn:E;
      [by vm_compute in E..|].
    vm_compute in E. injection E as <- <- <-. by apply ties_not_newer.
Qed.



(** * Further properties of the application *)

(** ** What a call does to each table *)

Lemma run_invariant (BASE_DIR : string) (ascii_nfkd : string -> string) (bump : bool)
    (P : world -> Prop) :
  (forall c w, P w -> P (perform BASE_DIR ascii_nfkd bump c w).2) ->
  forall calls w, P w -> P (run BASE_DIR ascii_nfkd bump calls w).
Proof.
  intros Hstep calls. induction calls as [|c calls IH]; intros w Hw; [done|].
  apply IH. by apply Hstep.
Qed.

Lemma perform_documents (BASE_DIR : string) (ascii_nfkd : string -> string) (bump : bool)
    (c : call) (w : world) :
  documents (db (perform BASE_DIR ascii_nfkd bump c w).2) = documents (db w)
  \/ exists now cid file,
       documents (db (perform BASE_DIR ascii_nfkd bump c w).2)
       = documents (upload_inserted ascii_nfkd now cid file (db w)).
Proof.
  destruct c as [now now' fault cid req|filename|now now' req|now' vid req
                |now now' req|now now' cid req|now now' cid req|cid names
                |now cid action actor details].
  - unfold perform.
    destruct (document_new_cases BASE_DIR ascii_nfkd now now' fault cid req w)
      as [(file & _ & _ & _ & ->)|[(file & _ & _ & ->)|(r & w' & -> & _ & _ & Hdb & _)]];
      cbn [snd db]; [right; by exists now, cid, file..|left; by rewrite Hdb].
  - by left.
  - left. unfold perform, on_db, vendor_new. by repeat (case_match; simplify_eq/=).
  - left. unfold perform, on_db, vendor_edit. by repeat (case_match; simplify_eq/=).
  - left. unfold perform, on_db, contract_new. by repeat (case_match; simplify_eq/=).
  - left. unfold perform, on_db, contract_edit. by repeat (case_match; simplify_eq/=).
  - left. unfold perform, on_db, extraction_new. by repeat (case_match; simplify_eq/=).
  - left. unfold perform.
    destruct (upsert_tags _ _ _ _ _) as [d'|] eqn:E; [|done].
    by apply upsert_tags_other_tables in E as (_ & _ & E & _).
  - by left.
Qed.

Lemma versions_of_documents (cid : Z) (d d' : database) :
  documents d' = documents d -> versions_of cid d' = versions_of cid d.
Proof. unfold versions_of. by intros ->. Qed.

Lemma versions_of_inserted (ascii_nfkd : string -> string) (now : string)
    (cid cid' : Z) (file : file_storage) (d : database) :
  versions_of cid' (upload_inserted ascii_nfkd now cid file d) =
  versions_of cid' d ++ (if bool_decide (cid = cid') then [next_version cid d] else []).
Proof. apply versions_of_insert. Qed.

(** ** Uploads among other calls *)

(** X1. A successful upload can be read back: the row it adds carries the
    sanitised file name and the storage name made of the contract, the next
    version and that file name, and a download of that storage name returns
    the uploaded bytes. *)
Theorem uploaded_bytes_are_served
    (BASE_DIR : string) (ascii_nfkd : string -> string) (now now' : string)
    (fault : option fault_point) (cid : Z) (req : request) (w w' : world) :
  document_new BASE_DIR ascii_nfkd now now' fault cid req w = (uploaded cid, w') ->
  exists file row,
    req_files req !! "document" = Some file
    /\ documents (db w') = documents (db w) ++ [row]
    /\ document_contract_id row = cid
    /\ document_filename row = secure_filename ascii_nfkd (upload_filename file)
    /\ document_storage_path row
       = stored_name_of cid (next_version cid (db w)) (document_filename row)
    /\ document_download BASE_DIR (document_storage_path row) w'
       = SendFile (upload_content file).
Proof.
  intros (file & Hf & _ & ->)%document_new_uploaded.
  exists file. eexists. split; [done|]. split; [reflexivity|].
  cbn [document_contract_id document_filename document_storage_path].
  split; [done|]. split; [done|]. split; [done|].
  apply download_stored; [apply secure_filename_no_slash|].
  cbn [files]. apply lookup_insert_eq.
Qed.

Lemma uploaded_bytes_are_served_witness :
  exists row,
    documents (db Example.w1) = [row]
    /\ document_storage_path row = "1_1_msa.pdf"
    /\ document_download Example.base_dir (document_storage_path row) Example.w1
       = SendFile (bytes_of "abc").
Proof.
  destruct (uploaded_bytes_are_served Example.base_dir id
              "2024-05-02T10:00:00" "2024-05-02T10:00:00" None 1
              (Example.post "msa.pdf" "abc") Example.w0 Example.w1 eq_refl)
    as (file & row & Hf & Hrows & _ & _ & Hpath & Hget).
  vm_compute in Hf. injection Hf as <-.
  exists row. split; [exact Hrows|]. split; [|exact Hget].
  rewrite Hpath.
  vm_compute in Hrows. injection Hrows as <-. reflexivity.
Defined.

(** X2. The versions of a contract stay [1..n], in upload order, under every
    sequence of calls made one after the other: requests of every kind,
    uploads to other contracts, and uploads that are refused or fail, the one
    that fails at its audit event included. *)
Theorem versions_stay_sequential
    (BASE_DIR : string) (ascii_nfkd : string -> string) (bump : bool)
    (calls : list call) (w : world) (cid : Z) :
  versions_sequential cid (db w) ->
  versions_sequential cid (db (run BASE_DIR ascii_nfkd bump calls w)).
Proof.
  revert w.
  apply (run_invariant BASE_DIR ascii_nfkd bump
           (fun w => versions_sequential cid (db w))).
  intros c w Hw. unfold versions_sequential in *.
  destruct (perform_documents BASE_DIR ascii_nfkd bump c w)
    as [E|(now & cid' & file & E)].
  - by rewrite (versions_of_documents cid _ _ E).
  - rewrite (versions_of_documents cid _ _ E), versions_of_inserted.
    case_bool_decide as Hc; [subst cid'|by rewrite app_nil_r].
    rewrite (next_version_seq cid (db w) _ Hw), length_app, Nat.add_comm.
    cbn [length Nat.add]. rewrite seq_S, fmap_app, <- Hw. cbn.
    do 2 f_equal. lia.
Qed.

Lemma versions_stay_sequential_witness :
  versions_sequential 1 (db Example.w0)
  /\ versions_of 1
       (db (run Example.base_dir id false
              [DocumentNew "2024-05-02T10:00:00" "2024-05-02T10:00:00" None 1
                 (Example.post "msa.pdf" "abc");
               VendorNew "2024-05-02T10:01:00" "2024-05-02T10:01:00"
                 {| req_method := POST; req_form := {["name" := "Acme"]}; req_files := ∅ |};
               DocumentNew "2024-05-02T10:02:00" "2024-05-02T10:02:00" (Some FailAudit) 1
                 (Example.post "msa.pdf" "second");
               DocumentNew "2024-05-02T10:03:00" "2024-05-02T10:03:00" (Some FailInsert) 1
                 (Example.post "msa.pdf" "lost");
               DocumentNew "2024-05-02T10:04:00" "2024-05-02T10:04:00" None 1
                 (Example.post "sow.pdf" "third")]
              Example.w0))
     = [1; 2; 3].
Proof.
  assert (H0 : versions_sequential 1 (db Example.w0)) by reflexivity.
  split; [exact H0|].
  pose proof (versions_stay_sequential Example.base_dir id false
    [DocumentNew "2024-05-02T10:00:00" "2024-05-02T10:00:00" None 1
       (Example.post "msa.pdf" "abc");
     VendorNew "2024-05-02T10:01:00" "2024-05-02T10:01:00"
       {| req_method := POST; req_form := {["name" := "Acme"]}; req_files := ∅ |};
     DocumentNew "2024-05-02T10:02:00" "2024-05-02T10:02:00" (Some FailAudit) 1
       (Example.post "msa.pdf" "second");
     DocumentNew "2024-05-02T10:03:00" "2024-05-02T10:03:00" (Some FailInsert) 1
       (Example.post "msa.pdf" "lost");
     DocumentNew "2024-05-02T10:04:00" "2024-05-02T10:04:00" None 1
       (Example.post "sow.pdf" "third")]
    Example.w0 1 H0) as H.
  unfold versions_sequential in H. rewrite H.
  by vm_compute.
Defined.

Lemma documents_apart_step (BASE_DIR : string) (ascii_nfkd : string -> string)
    (bump : bool) (c : call) (w : world) :
  documents_apart BASE_DIR w ->
  documents_apart BASE_DIR (perform BASE_DIR ascii_nfkd bump c w).2.
Proof.
  intros (Hs & Hi & Hp).
  split; [by apply perform_stored_intact|].
  destruct (perform_documents BASE_DIR ascii_nfkd bump c w)
    as [->|(now & cid & file & ->)]; [done|].
  unfold upload_inserted, insert_document. cbn [documents put_documents].
  rewrite !fmap_app. cbn [fmap list_fmap document_id document_contract_id document_version].
  split; apply NoDup_app; (split; [done|]); (split; [|apply NoDup_singleton]).
  - intros x Hx ->%list_elem_of_singleton. by apply next_rowid_fresh in Hx.
  - intros x (r & -> & Hr)%list_elem_of_fmap [= Hc Hv]%list_elem_of_singleton.
    assert (document_version r ∈ versions_of cid (db w)) as Hin.
    { unfold versions_of. apply list_elem_of_fmap. exists r. split; [done|].
      by apply list_elem_of_filter. }
    apply next_version_above in Hin. lia.
Qed.

(** X3. No two documents share a storage name: starting without documents,
    every sequence of calls made one after the other leaves document rows
    with distinct ids, distinct pairs of contract and version, and distinct
    storage names, so that no upload overwrites the file of another. *)
Theorem stored_names_are_unique
    (BASE_DIR : string) (ascii_nfkd : string -> string) (bump : bool)
    (calls : list call) (w : world) :
  documents (db w) = [] ->
  NoDup (document_id <$> documents (db (run BASE_DIR ascii_nfkd bump calls w)))
  /\ NoDup ((fun r => (document_contract_id r, document_version r))
              <$> documents (db (run BASE_DIR ascii_nfkd bump calls w)))
  /\ NoDup (document_storage_path <$> documents (db (run BASE_DIR ascii_nfkd bump calls w))).
Proof.
  intros Hempty.
  assert (documents_apart BASE_DIR (run BASE_DIR ascii_nfkd bump calls w))
    as (Hs & Hi & Hp).
  { apply (run_invariant BASE_DIR ascii_nfkd bump (documents_apart BASE_DIR));
      [apply documents_apart_step|].
    split; [by apply stored_intact_empty|]. rewrite Hempty. split; constructor. }
  split; [done|]. split; [done|].
  apply NoDup_fmap_2_strong; [|by apply NoDup_fmap_1 in Hi].
  intros r r' Hr Hr' E.
  destruct (Hs r Hr) as [(f & _ & Ef) _]. destruct (Hs r' Hr') as [(f' & _ & Ef') _].
  rewrite Ef, Ef' in E. apply stored_name_of_inj in E as (Ec & Ev & _).
  apply (NoDup_fmap_eq _ _ r r' Hp Hr Hr'). by rewrite Ec, Ev.
Qed.

Lemma stored_names_are_unique_witness :
  documents (db Example.w0) = []
  /\ NoDup (document_storage_path
              <$> documents
                    (db (run Example.base_dir id false
                           [DocumentNew "2024-05-02T10:00:00" "2024-05-02T10:00:00" None 1
                              (Example.post "msa.pdf" "abc");
                            DocumentNew "2024-05-02T10:00:00" "2024-05-02T10:00:00" None 1
                              (Example.post "msa.pdf" "abc")]
                           Example.w0)))
  /\ document_storage_path
       <$> documents
             (db (run Example.base_dir id false
                    [DocumentNew "2024-05-02T10:00:00" "2024-05-02T10:00:00" None 1
                       (Example.post "msa.pdf" "abc");
                     DocumentNew "2024-05-02T10:00:00" "2024-05-02T10:00:00" None 1
                       (Example.post "msa.pdf" "abc")]
                    Example.w0))
     = ["1_1_msa.pdf"; "1_2_msa.pdf"].
Proof.
  split; [reflexivity|]. split; [|by vm_compute].
  apply (stored_names_are_unique Example.base_dir id false _ Example.w0 eq_refl).
Defined.

(** ** Tags *)

Lemma lstrip_fixed (p : ascii -> bool) (s : string) :
  (forall c, head (chars s) = Some c -> p c = false) -> PyStr.lstrip_with p s = s.
Proof.
  destruct s as [|c s]; [done|]. intros H. simpl.
  by rewrite (H c) by (by rewrite chars_cons).
Qed.

Lemma rstrip_fixed (p : ascii -> bool) (s : string) :
  (forall c, last (chars s) = Some c -> p c = false) -> PyStr.rstrip_with p s = s.
Proof.
  induction s as [|c s IH]; [done|]. intros H. simpl.
  destruct s as [|c' s].
  - simpl. by rewrite (H c) by (by rewrite chars_cons).
  - rewrite IH; [done|]. intros x Hx. apply H.
    rewrite chars_cons. rewrite chars_cons in Hx |- *. done.
Qed.

Lemma strip_idempotent (s : string) : PyStr.strip (PyStr.strip s) = PyStr.strip s.
Proof.
  destruct (strip_spec s) as (l & r & _ & _ & _ & Hhead & Hlast).
  unfold PyStr.strip at 1. unfold PyStr.strip_with.
  fold (PyStr.strip s). by rewrite lstrip_fixed, rstrip_fixed.
Qed.

Lemma loop_invariant (bump : bool) (cid : Z) (P : database -> Prop)
    (names : list string) (d d' : database) :
  (forall n d, clean_name n -> P d -> P (iteration bump cid n d)) ->
  P d -> upsert_tags_loop bump cid names d = Ok d' -> P d'.
Proof.
  intros Hstep. revert d. induction names as [|name rest IH]; intros d Hd.
  - by intros [= <-].
  - rewrite loop_cons. destruct (negb _) eqn:E; [by apply IH|].
    apply IH, Hstep; [|done]. split; [|apply strip_idempotent].
    intros Hn. apply truthy_false in Hn. congruence.
Qed.

Lemma iteration_other_tables (bump : bool) (cid : Z) (n : string) (d : database) :
  vendors (iteration bump cid n d) = vendors d
  /\ extractions (iteration bump cid n d) = extractions d.
Proof.
  unfold iteration. destruct (select_tag_id _ _); [|done].
  unfold insert_or_ignore_contract_tag, insert_or_ignore_tag.
  by repeat case_bool_decide.
Qed.

Lemma upsert_tags_extractions (bump busy : bool) (cid : Z) (names : list string)
    (d d' : database) :
  upsert_tags bump busy cid names d = Ok d' -> extractions d' = extractions d.
Proof.
  unfold upsert_tags. destruct busy; [done|].
  apply (loop_invariant bump cid (fun x => extractions x = extractions d)); [|done].
  intros n x _ <-. apply iteration_other_tables.
Qed.

Lemma upsert_tags_other_links (bump : bool) (cid : Z) (names : list string)
    (d d' : database) (r : contract_tag_row) :
  ct_contract_id r <> cid ->
  upsert_tags bump false cid names d = Ok d' ->
  r ∈ contract_tags d' <-> r ∈ contract_tags d.
Proof.
  intros Hr. unfold upsert_tags.
  intros H. transitivity (r ∈ contract_tags (delete_contract_tags cid d)).
  - revert H.
    apply (loop_invariant bump cid
             (fun x => r ∈ contract_tags x <-> r ∈ contract_tags (delete_contract_tags cid d)));
      [|done].
    intros n x _ <-.
    destruct (iteration_rows bump cid n x) as (tid & _ & _ & ->).
    rewrite elem_of_link_after. split; [|by left].
    intros [?| ->]; [done|]. by destruct Hr.
  - unfold delete_contract_tags. cbn [contract_tags put_contract_tags].
    rewrite list_elem_of_filter. tauto.
Qed.

Lemma upsert_tags_prefix (bump : bool) (cid : Z) (names : list string) (d d' : database) :
  upsert_tags bump false cid names d = Ok d' -> tags d `prefix_of` tags d'.
Proof. unfold upsert_tags. by intros H%loop_vocabulary. Qed.

(** X4. [upsert_tags] touches the tags of one contract only: the tags that
    [get_contract_tags] returns for every other contract are the same
    before and after the call, whatever names the call brings in. *)
Theorem setTags_leaves_other_contracts
    (bump : bool) (cid cid' : Z) (names : list string) (d d' : database) :
  tags_wf d -> tags_referenced d -> cid' <> cid ->
  upsert_tags bump false cid names d = Ok d' ->
  get_contract_tags cid' d' = get_contract_tags cid' d.
Proof.
  intros Hwf Href Hne E.
  pose proof (upsert_tags_wf bump cid names d d' Hwf E) as Hwf'.
  destruct (upsert_tags_prefix bump cid names d d' E) as [more Hmore].
  apply get_contract_tags_eq;
    [done|apply get_contract_tags_sorted|by apply NoDup_get_contract_tags|].
  intros n. rewrite !elem_of_get_contract_tags.
  split; intros (t & Ht & Hn & Hl); exists t.
  - apply (upsert_tags_other_links bump cid names d d') in Hl; [|done..].
    split; [|done].
    apply Href, list_elem_of_fmap in Hl as (t0 & E0 & Ht0). cbn in E0.
    assert (t0 ∈ tags d') as Ht0' by (rewrite Hmore, elem_of_app; by left).
    destruct Hwf' as (Hids & _).
    by rewrite (NoDup_fmap_eq tag_id (tags d') t t0 Hids Ht Ht0' E0).
  - split; [rewrite Hmore, elem_of_app; by left|]. split; [done|].
    by apply (upsert_tags_other_links bump cid names d d').
Qed.

Lemma setTags_leaves_other_contracts_witness :
  exists d d',
    tags_wf d /\ tags_referenced d
    /\ upsert_tags false false 2 ["B"; "C"] d = Ok d'
    /\ get_contract_tags 1 d = ["A"; "B"]
    /\ get_contract_tags 2 d' = ["B"; "C"]
    /\ get_contract_tags 1 d' = get_contract_tags 1 d.
Proof.
  destruct (upsert_tags false false 1 ["A"; "B"] init_db) as [d|] eqn:Ed;
    [|by vm_compute in Ed].
  destruct (upsert_tags false false 2 ["B"; "C"] d) as [d'|] eqn:Ed';
    [|vm_compute in Ed; injection Ed as <-; by vm_compute in Ed'].
  assert (Hwf : tags_wf d).
  { apply (upsert_tags_wf false 1 ["A"; "B"] init_db d); [|done].
    repeat split; constructor. }
  assert (Href : tags_referenced d).
  { vm_compute in Ed. injection Ed as <-. intros ct Hct.
    cbn in Hct. rewrite !elem_of_cons, elem_of_nil in Hct.
    destruct Hct as [->|[->|[]]]; cbn; rewrite !elem_of_cons; tauto. }
  exists d, d'. split; [exact Hwf|]. split; [exact Href|]. split; [exact Ed'|].
  split; [vm_compute in Ed; injection Ed as <-; reflexivity|].
  split; [vm_compute in Ed; injection Ed as <-; vm_compute in Ed';
          injection Ed' as <-; reflexivity|].
  apply (setTags_leaves_other_contracts false 2 1 ["B"; "C"] d d' Hwf Href); [lia|done].
Defined.

(** X5. A list without a name (the empty list, or names that are all white
    space) takes every tag off the contract and changes nothing else: the
    vocabulary keeps its rows and the associations of the other contracts
    stay in place. *)
Theorem setTags_with_no_name_clears
    (bump : bool) (cid : Z) (names : list string) (d : database) :
  (forall n, n ∈ names -> PyStr.strip n = "") ->
  exists d',
    upsert_tags bump false cid names d = Ok d'
    /\ get_contract_tags cid d' = []
    /\ tags d' = tags d
    /\ contract_tags d' = filter (fun r => ct_contract_id r <> cid) (contract_tags d).
Proof.
  intros Hblank. unfold upsert_tags.
  destruct (loop_noop bump cid names (delete_contract_tags cid d)) as (d' & E & Ht & Hc).
  { intros n. unfold cleaned_names.
    rewrite list_elem_of_filter, list_elem_of_fmap.
    intros (Hn & raw & -> & Hraw). by destruct Hn; apply Hblank. }
  exists d'. split; [done|]. split; [|by split].
  apply elem_of_nil_inv. intros n (t & _ & _ & Hl)%elem_of_get_contract_tags.
  rewrite Hc in Hl. cbn in Hl. by apply list_elem_of_filter in Hl as [Hl _].
Qed.

Lemma setTags_with_no_name_clears_witness :
  exists d d',
    get_contract_tags 1 d = ["A"; "B"]
    /\ upsert_tags false false 1 [" "; ""] d = Ok d'
    /\ get_contract_tags 1 d' = []
    /\ vocabulary d' = ["A"; "B"].
Proof.
  destruct (upsert_tags false false 1 ["A"; "B"] init_db) as [d|] eqn:Ed;
    [|by vm_compute in Ed].
  destruct (setTags_with_no_name_clears false 1 [" "; ""] d) as (d' & E & Hnone & Ht & _).
  { intros n. rewrite !elem_of_cons, elem_of_nil. by intros [->|[->|[]]]. }
  exists d, d'. vm_compute in Ed. injection Ed as <-.
  split; [reflexivity|]. split; [exact E|]. split; [exact Hnone|].
  unfold vocabulary. rewrite Ht. reflexivity.
Defined.

(** ** What the calls keep *)

Lemma perform_frame (BASE_DIR : string) (ascii_nfkd : string -> string) (bump : bool)
    (c : call) (w : world) :
  contracts (db (perform BASE_DIR ascii_nfkd bump c w).2) = contracts (db w)
  /\ match c with
     | UpsertTags _ _ => True
     | _ => tags (db (perform BASE_DIR ascii_nfkd bump c w).2) = tags (db w)
            /\ contract_tags (db (perform BASE_DIR ascii_nfkd bump c w).2)
               = contract_tags (db w)
     end
  /\ match c with
     | VendorNew _ _ _ | VendorEdit _ _ _ => True
     | _ => vendors (db (perform BASE_DIR ascii_nfkd bump c w).2) = vendors (db w)
     end
  /\ match c with
     | ExtractionNew _ _ _ _ => True
     | _ => extractions (db (perform BASE_DIR ascii_nfkd bump c w).2) = extractions (db w)
     end.
Proof.
  destruct c as [now now' fault cid req|filename|now now' req|now' vid req
                |now now' req|now now' cid req|now now' cid req|cid names
                |now cid action actor details].
  - unfold perform.
    destruct (document_new_cases BASE_DIR ascii_nfkd now now' fault cid req w)
      as [(file & _ & _ & _ & ->)|[(file & _ & _ & ->)|(r & w' & -> & _ & _ & Hdb & _)]];
      cbn [snd db]; [done..|by rewrite Hdb].
  - done.
  - unfold perform, on_db, vendor_new. by repeat (case_match; simplify_eq/=).
  - unfold perform, on_db, vendor_edit. by repeat (case_match; simplify_eq/=).
  - unfold perform, on_db, contract_new. by repeat (case_match; simplify_eq/=).
  - unfold perform, on_db, contract_edit. by repeat (case_match; simplify_eq/=).
  - unfold perform, on_db, extraction_new. by repeat (case_match; simplify_eq/=).
  - unfold perform.
    destruct (upsert_tags _ _ _ _ _) as [d'|] eqn:E; [|done]. cbn [snd db put_db].
    pose proof (upsert_tags_extractions _ _ _ _ _ _ E).
    by apply upsert_tags_other_tables in E as (_ & _ & _ & _ & ? & ?).
  - done.
Qed.

Lemma perform_vendors_wf (BASE_DIR : string) (ascii_nfkd : string -> string) (bump : bool)
    (c : call) (w : world) :
  vendors_wf (db w) -> vendors_wf (db (perform BASE_DIR ascii_nfkd bump c w).2).
Proof.
  unfold vendors_wf. intros Hw.
  destruct (perform_frame BASE_DIR ascii_nfkd bump c w) as (_ & _ & Hv & _).
  destruct c as [now now' fault cid req|filename|now now' req|now' vid req
                |now now' req|now now' cid req|now now' cid req|cid names
                |now cid action actor details]; try by rewrite Hv.
  - unfold perform, on_db, vendor_new.
    destruct (req_method req); [done|]. destruct (_ !! "name"); [|done].
    cbn. rewrite fmap_app. apply NoDup_app. split; [done|].
    split; [|apply NoDup_singleton].
    intros x Hx ->%list_elem_of_singleton. by apply next_rowid_fresh in Hx.
  - unfold perform, on_db, vendor_edit.
    destruct (head _); [|done]. destruct (req_method req); [done|].
    destruct (_ !! "name"); [|done]. cbn.
    rewrite <- list_fmap_compose.
    erewrite list_fmap_ext; [exact Hw|].
    intros i u _. cbn. by case_bool_decide.
Qed.

Lemma iteration_referenced (bump : bool) (cid : Z) (n : string) (d : database) :
  tags_referenced d -> tags_referenced (iteration bump cid n d).
Proof.
  intros Hd ct. destruct (iteration_rows bump cid n d) as (tid & Hid & -> & ->).
  rewrite elem_of_link_after. intros [Hct| ->].
  - apply Hd in Hct. destruct (tags_after_prefix n (tags d) (tags_seq d)) as [more ->].
    rewrite fmap_app, elem_of_app. by left.
  - apply first_id_elem in Hid as (t & Ht & _ & <-). cbn.
    apply list_elem_of_fmap. by exists t.
Qed.

Lemma iteration_clean (bump : bool) (cid : Z) (n : string) (d : database) :
  clean_name n ->
  (forall m, m ∈ vocabulary d -> clean_name m) ->
  forall m, m ∈ vocabulary (iteration bump cid n d) -> clean_name m.
Proof.
  intros Hn Hd m. unfold vocabulary.
  destruct (iteration_rows bump cid n d) as (tid & _ & -> & _).
  unfold tags_after. case_bool_decide; [apply Hd|].
  rewrite fmap_app, elem_of_app. intros [?| ->%list_elem_of_singleton]; [by apply Hd|done].
Qed.

Lemma upsert_tags_referenced (bump : bool) (cid : Z) (names : list string)
    (d d' : database) :
  tags_referenced d -> (forall m, m ∈ vocabulary d -> clean_name m) ->
  upsert_tags bump false cid names d = Ok d' ->
  tags_referenced d' /\ (forall m, m ∈ vocabulary d' -> clean_name m).
Proof.
  intros Href Hclean. unfold upsert_tags.
  apply (loop_invariant bump cid
           (fun x => tags_referenced x /\ (forall m, m ∈ vocabulary x -> clean_name m))).
  - intros n x Hn [Hx Hx']. split; [by apply iteration_referenced|by apply iteration_clean].
  - split; [|done]. intros ct. unfold delete_contract_tags.
    cbn [contract_tags tags put_contract_tags].
    intros [_ Hct]%list_elem_of_filter. by apply Href.
Qed.

(** X6. The constraints that the schema declares and the code relies on
    hold after every call when they held before it: the ids of vendors,
    contracts and tags are unique, tag names are unique, every association
    of a contract with a tag occurs once and names a tag of the vocabulary,
    the ids of the audit events grow with their order, and every tag name is
    trimmed and not empty.  They hold in the database of [init_db]. *)
Theorem schema_constraints_are_kept
    (BASE_DIR : string) (ascii_nfkd : string -> string) (bump : bool)
    (calls : list call) (w : world) :
  schema_kept (db w) -> schema_kept (db (run BASE_DIR ascii_nfkd bump calls w)).
Proof.
  revert w.
  apply (run_invariant BASE_DIR ascii_nfkd bump (fun w => schema_kept (db w))).
  intros c w (Hwf & Hv & Href & Hclean).
  split; [by apply perform_db_wf|]. split; [by apply perform_vendors_wf|].
  destruct (perform_frame BASE_DIR ascii_nfkd bump c w) as (_ & Ht & _).
  unfold tags_referenced, vocabulary in *.
  destruct c as [now now' fault cid req|filename|now now' req|now' vid req
                |now now' req|now now' cid req|now now' cid req|cid names
                |now cid action actor details];
    [destruct Ht as [Et Ec]; rewrite Et, Ec; by split..|
    |destruct Ht as [Et Ec]; rewrite Et, Ec; by split].
  unfold perform. destruct (upsert_tags _ _ _ _ _) as [d'|] eqn:E; [|by split].
  by apply (upsert_tags_referenced bump cid names (db w) d').
Qed.

Lemma schema_constraints_are_kept_witness :
  schema_kept (db fresh_world)
  /\ schema_kept
       (db (run Example.base_dir id true
              [VendorNew "2024-05-02T10:01:00" "2024-05-02T10:01:00"
                 {| req_method := POST; req_form := {["name" := "Acme"]}; req_files := ∅ |};
               UpsertTags 1 ["legal"; " msa "; "legal"];
               UpsertTags 2 ["msa"]]
              fresh_world)).
Proof.
  assert (H0 : schema_kept (db fresh_world)).
  { split; [apply init_db_wf|]. split; [constructor|].
    split; [intros ct Hct; by apply elem_of_nil in Hct|].
    intros n Hn. by apply elem_of_nil in Hn. }
  split; [exact H0|].
  by apply schema_constraints_are_kept.
Defined.

(** ** Contracts *)

Lemma sql_bind_unfold {A B} (m : sql A) (k : A -> sql B) (f : db_file) :
  (m ≫= k) f
  = match m f with
    | (Ok a, f') => k a f'
    | (Raised e, f') => (Raised e, f')
    end.
Proof. reflexivity. Qed.

Lemma execute_holding (conn : nat) (stmt : database -> result database)
    (d : database) (f : db_file) :
  Conn.execute conn stmt (Conn.hold conn d f)
  = match stmt d with
    | Ok d' => (Ok tt, Conn.hold conn d' f)
    | Raised e => (Raised e, Conn.hold conn d f)
    end.
Proof.
  unfold Conn.execute, Conn.locked_out, Conn.view. cbn [uncommitted Conn.hold].
  rewrite bool_decide_eq_false_2 by (intros H; by destruct H).
  rewrite bool_decide_eq_true_2 by done. by destruct (stmt d).
Qed.

Lemma query_holding {A} (conn : nat) (q : database -> A) (d : database) (f : db_file) :
  Conn.query conn q (Conn.hold conn d f) = (Ok (q d), Conn.hold conn d f).
Proof.
  unfold Conn.query, Conn.view. cbn [uncommitted Conn.hold].
  by rewrite bool_decide_eq_true_2.
Qed.

Lemma upsert_tags_loop_holding (bump : bool) (conn : nat) (cid : Z)
    (names : list string) (d : database) (f : db_file) :
  match upsert_tags_loop bump cid names d with
  | Ok d' =>
      Conn.upsert_tags_loop bump conn cid names (Conn.hold conn d f)
      = (Ok tt, Conn.hold conn d' f)
  | Raised e =>
      exists d',
        Conn.upsert_tags_loop bump conn cid names (Conn.hold conn d f)
        = (Raised e, Conn.hold conn d' f)
  end.
Proof.
  revert d. induction names as [|name rest IH]; intros d; [done|].
  cbn [upsert_tags_loop Conn.upsert_tags_loop].
  destruct (negb (PyStr.truthy (PyStr.strip name))); [apply IH|].
  rewrite sql_bind_unfold, execute_holding, sql_bind_unfold, query_holding.
  destruct (select_tag_id _ _) as [tid|]; [|by eexists].
  rewrite sql_bind_unfold, execute_holding. apply IH.
Qed.

Lemma upsert_tags_unlocked (bump : bool) (cid : Z) (names : list string) (f : db_file) :
  uncommitted f = None ->
  Conn.upsert_tags bump cid names f
  = match upsert_tags bump false cid names (committed f) with
    | Ok d' => (Ok tt, Conn.at_rest d' (S (connections f)))
    | Raised e => (Raised e, Conn.at_rest (committed f) (S (connections f)))
    end.
Proof.
  destruct f as [d u n]. cbn [uncommitted committed connections]. intros ->.
  unfold Conn.upsert_tags, upsert_tags.
  rewrite sql_bind_unfold. cbn [Conn.get_db committed uncommitted connections].
  unfold Conn.within. rewrite sql_bind_unfold.
  unfold Conn.execute at 1, Conn.locked_out, Conn.view. cbn [uncommitted committed].
  pose proof (upsert_tags_loop_holding bump n cid names (delete_contract_tags cid d)
                {| committed := d; uncommitted := None; connections := S n |}) as H.
  destruct (upsert_tags_loop bump cid names (delete_contract_tags cid d)) as [d'|e].
  - rewrite H. unfold Conn.commit. cbn [uncommitted Conn.hold].
    by rewrite bool_decide_eq_true_2.
  - destruct H as [d' ->]. unfold Conn.rollback. cbn [uncommitted Conn.hold].
    by rewrite bool_decide_eq_true_2.
Qed.

Lemma upsert_tags_locked (bump : bool) (cid : Z) (names : list string)
    (holder : nat) (d : database) (f : db_file) :
  uncommitted f = Some (holder, d) -> (holder < connections f)%nat ->
  Conn.upsert_tags bump cid names f
  = (Raised OperationalError,
     {| committed := committed f; uncommitted := uncommitted f;
        connections := S (connections f) |}).
Proof.
  destruct f as [d0 u n]. cbn [uncommitted committed connections]. intros -> Hlt.
  unfold Conn.upsert_tags.
  rewrite sql_bind_unfold. cbn [Conn.get_db committed uncommitted connections].
  unfold Conn.within. rewrite sql_bind_unfold.
  unfold Conn.execute at 1, Conn.locked_out. cbn [uncommitted].
  rewrite bool_decide_eq_true_2 by lia.
  unfold Conn.rollback. cbn [uncommitted].
  rewrite bool_decide_eq_false_2 by lia. done.
Qed.

Lemma perform_contracts_run (BASE_DIR : string) (ascii_nfkd : string -> string)
    (bump : bool) (calls : list call) (w : world) :
  contracts (db (run BASE_DIR ascii_nfkd bump calls w)) = contracts (db w).
Proof.
  revert w. induction calls as [|c calls IH]; intros w; [done|].
  rewrite run_cons, IH. apply perform_frame.
Qed.

Lemma read_at_rest {A} (q : database -> A) (d : database) (n : nat) :
  (conn ← Conn.get_db; Conn.within conn (Conn.query conn q)) (Conn.at_rest d n)
  = (Ok (q d), Conn.at_rest d (S n)).
Proof. reflexivity. Qed.

Lemma contract_new_served (bump : bool) (now now' : string) (req : request)
    (d : database) (n : nat) :
  exists n',
    Conn.serve (Conn.contract_new bump now now' req) (Conn.at_rest d n)
    = ((contract_new bump now now' req d).1,
       Conn.at_rest (contract_new bump now now' req d).2 n').
Proof.
  unfold Conn.contract_new, contract_new, Conn.serve.
  rewrite sql_bind_unfold. unfold Conn.list_vendors. rewrite read_at_rest.
  destruct (req_method req); [by eexists|].
  rewrite sql_bind_unfold. cbn [Conn.get_db Conn.at_rest committed uncommitted connections].
  rewrite sql_bind_unfold. unfold Conn.within. rewrite sql_bind_unfold.
  unfold Conn.execute at 1, Conn.locked_out, Conn.view. cbn [uncommitted committed].
  destruct (contract_of_form _ _ _ _) as [row|].
  - rewrite sql_bind_unfold, query_holding, sql_bind_unfold.
    erewrite upsert_tags_locked; [|reflexivity|cbn; lia].
    unfold Conn.rollback. cbn. rewrite bool_decide_eq_true_2 by done. by eexists.
  - unfold Conn.rollback. cbn. rewrite bool_decide_eq_true_2 by done. by eexists.
Qed.

Lemma contract_edit_served (bump : bool) (now now' : string) (cid : Z) (req : request)
    (d : database) (n : nat) :
  exists n',
    Conn.serve (Conn.contract_edit bump now now' cid req) (Conn.at_rest d n)
    = ((contract_edit bump now now' cid req d).1,
       Conn.at_rest (contract_edit bump now now' cid req d).2 n').
Proof.
  unfold Conn.contract_edit, contract_edit, Conn.serve.
  rewrite sql_bind_unfold. unfold Conn.get_contract. rewrite read_at_rest.
  destruct (get_contract cid d) as [contract|]; [|by eexists].
  rewrite sql_bind_unfold. unfold Conn.list_vendors. rewrite read_at_rest.
  destruct (req_method req).
  { rewrite sql_bind_unfold. unfold Conn.get_contract_tags. rewrite read_at_rest.
    by eexists. }
  rewrite sql_bind_unfold. cbn [Conn.get_db Conn.at_rest committed uncommitted connections].
  rewrite sql_bind_unfold. unfold Conn.within. rewrite sql_bind_unfold.
  unfold Conn.execute at 1, Conn.locked_out, Conn.view. cbn [uncommitted committed].
  destruct (contract_of_form _ _ _ _) as [row|].
  - erewrite upsert_tags_locked; [|reflexivity|cbn; lia].
    unfold Conn.rollback. cbn. rewrite bool_decide_eq_true_2 by done. by eexists.
  - unfold Conn.rollback. cbn. rewrite bool_decide_eq_true_2 by done. by eexists.
Qed.

(** X7. A POST to [contract_new], or to [contract_edit] for a contract that
    exists, is never answered as successful.  The handler writes on its own
    connection and, before that is committed, calls [upsert_tags], which
    writes on a second one: unless the constraint error of a missing title,
    owner or state ends the request first, [upsert_tags] finds the database
    locked, and the exception rolls the write of the handler back.  The
    file is left as it was, with no transaction open.  Called on its own,
    [upsert_tags] is not hindered.  So no sequence of calls adds, changes or
    removes a row of [contracts]. *)
Theorem contract_posts_fail (bump : bool) (f : db_file) :
  uncommitted f = None ->
  (forall now now' req,
      req_method req = POST ->
      exists n,
        Conn.serve (Conn.contract_new bump now now' req) f
        = (InternalServerError
             match contract_of_form (req_form req)
                     (next_rowid (contracts_seq (committed f))
                        (contract_id <$> contracts (committed f))) now now
             with Some _ => OperationalError | None => IntegrityError end,
           Conn.at_rest (committed f) n))
  /\ (forall now now' cid req row,
        req_method req = POST -> get_contract cid (committed f) = Some row ->
        exists n,
          Conn.serve (Conn.contract_edit bump now now' cid req) f
          = (InternalServerError
               match contract_of_form (req_form req) cid (contract_created_at row) now
               with Some _ => OperationalError | None => IntegrityError end,
             Conn.at_rest (committed f) n))
  /\ (forall cid names,
        exists n,
          Conn.upsert_tags bump cid names f
          = match upsert_tags bump false cid names (committed f) with
            | Ok d => (Ok tt, Conn.at_rest d n)
            | Raised e => (Raised e, Conn.at_rest (committed f) n)
            end)
  /\ (forall now now' req,
        exists n,
          Conn.serve (Conn.contract_new bump now now' req) f
          = ((contract_new bump now now' req (committed f)).1,
             Conn.at_rest (contract_new bump now now' req (committed f)).2 n))
  /\ (forall now now' cid req,
        exists n,
          Conn.serve (Conn.contract_edit bump now now' cid req) f
          = ((contract_edit bump now now' cid req (committed f)).1,
             Conn.at_rest (contract_edit bump now now' cid req (committed f)).2 n))
  /\ (forall BASE_DIR ascii_nfkd calls w,
        contracts (db (run BASE_DIR ascii_nfkd bump calls w)) = contracts (db w)).
Proof.
  destruct f as [d u n]. cbn [uncommitted committed]. intros ->.
  change {| committed := d; uncommitted := None; connections := n |}
    with (Conn.at_rest d n).
  split; [|split; [|split; [|split; [|split]]]].
  - intros now now' req Hm.
    destruct (contract_new_served bump now now' req d n) as [n' ->].
    exists n'. unfold contract_new. rewrite Hm.
    by destruct (contract_of_form _ _ _ _).
  - intros now now' cid req row Hm Hrow.
    destruct (contract_edit_served bump now now' cid req d n) as [n' ->].
    exists n'. unfold contract_edit. rewrite Hrow, Hm.
    by destruct (contract_of_form _ _ _ _).
  - intros cid names. exists (S n). by rewrite upsert_tags_unlocked.
  - intros now now' req. apply contract_new_served.
  - intros now now' cid req. apply contract_edit_served.
  - intros BASE_DIR ascii_nfkd calls w. apply perform_contracts_run.
Qed.

Lemma contract_posts_fail_witness :
  uncommitted (Conn.at_rest Example.db0 0) = None
  /\ Conn.serve
       (Conn.contract_new false "2024-05-02T10:02:00" "2024-05-02T10:02:00"
          {| req_method := POST;
             req_form := {["title" := "Statement of work"; "owner" := "legal";
                           "state" := "Draft"; "tags" := "sow, legal"]};
             req_files := ∅ |})
       (Conn.at_rest Example.db0 0)
     = (InternalServerError OperationalError, Conn.at_rest Example.db0 3)
  /\ Conn.serve
       (Conn.contract_edit false "2024-05-02T10:02:00" "2024-05-02T10:02:00" 1
          {| req_method := POST; req_form := {["title" := "Renamed"]};
             req_files := ∅ |})
       (Conn.at_rest Example.db0 0)
     = (InternalServerError IntegrityError, Conn.at_rest Example.db0 3)
  /\ exists d,
       Conn.upsert_tags false 1 ["sow"; " legal"] (Conn.at_rest Example.db0 0)
       = (Ok tt, Conn.at_rest d 1)
       /\ get_contract_tags 1 d = ["legal"; "sow"].
Proof.
  split; [reflexivity|].
  destruct (contract_posts_fail false (Conn.at_rest Example.db0 0) eq_refl)
    as (Hnew & Hedit & _).
  split; [|split].
  - destruct (Hnew "2024-05-02T10:02:00" "2024-05-02T10:02:00"
                {| req_method := POST;
                   req_form := {["title" := "Statement of work"; "owner" := "legal";
                                 "state" := "Draft"; "tags" := "sow, legal"]};
                   req_files := ∅ |} eq_refl) as [n E].
    rewrite E. apply (f_equal (fun out => connections out.2)) in E.
    vm_compute in E. by subst n.
  - destruct (Hedit "2024-05-02T10:02:00" "2024-05-02T10:02:00" 1
                {| req_method := POST; req_form := {["title" := "Renamed"]};
                   req_files := ∅ |} Example.contract eq_refl eq_refl) as [n E].
    rewrite E. apply (f_equal (fun out => connections out.2)) in E.
    vm_compute in E. by subst n.
  - eexists. split; by vm_compute.
Defined.

(** ** Requests that only read *)

(** X8. A GET changes nothing: a GET request to any of the handlers, and every
    download, leaves the database and the upload directory as they were. *)
Theorem get_requests_change_nothing
    (BASE_DIR : string) (ascii_nfkd : string -> string) (bump : bool)
    (c : call) (w : world) :
  call_method c = Some GET ->
  (perform BASE_DIR ascii_nfkd bump c w).2 = w.
Proof.
  destruct c as [now now' fault cid req|filename|now now' req|now' vid req
                |now now' req|now now' cid req|now now' cid req|cid names
                |now cid action actor details]; cbn [call_method]; intros Hm;
    try discriminate; try injection Hm as Hm; unfold perform, on_db.
  - unfold document_new. rewrite Hm. by destruct (get_contract _ _).
  - done.
  - unfold vendor_new. rewrite Hm. by destruct w.
  - unfold vendor_edit. rewrite Hm. destruct (head _); by destruct w.
  - unfold contract_new. rewrite Hm. by destruct w.
  - unfold contract_edit. rewrite Hm. destruct (get_contract _ _); by destruct w.
  - unfold extraction_new. rewrite Hm. destruct (get_contract _ _); by destruct w.
Qed.

Lemma get_requests_change_nothing_witness :
  (perform Example.base_dir id false
     (DocumentNew "2024-05-02T10:00:00" "2024-05-02T10:00:00" None 1
        {| req_method := GET; req_form := ∅; req_files := ∅ |}) Example.w1).1
  = Responded (Render "document_form.html")
  /\ (perform Example.base_dir id false
        (DocumentNew "2024-05-02T10:00:00" "2024-05-02T10:00:00" None 1
           {| req_method := GET; req_form := ∅; req_files := ∅ |}) Example.w1).2
     = Example.w1.
Proof.
  split; [by vm_compute|].
  by apply get_requests_change_nothing.
Defined.



(** ** The contract page *)

Lemma insert_by_last {A} (le : A -> A -> bool) (x : A) (l : list A) :
  Forall (fun y => le x y = false) l -> insert_by le x l = l ++ [x].
Proof.
  induction 1 as [|y l Hy _ IH]; [done|]. simpl. by rewrite Hy, IH.
Qed.

Lemma order_by_rev {A} (le : A -> A -> bool) (l : list A) :
  StronglySorted (fun x y => le x y = false) l -> order_by le l = reverse l.
Proof.
  induction 1 as [|x l _ IH Hx]; [done|].
  change (order_by le (x :: l)) with (insert_by le x (order_by le l)).
  rewrite IH, reverse_cons. apply insert_by_last. by apply Forall_reverse.
Qed.

Lemma StronglySorted_of_fmap {A B} (R : B -> B -> Prop) (f : A -> B) (l : list A) :
  StronglySorted R (f <$> l) -> StronglySorted (fun x y => R (f x) (f y)) l.
Proof.
  induction l as [|x l IH]; [constructor|].
  rewrite fmap_cons. intros [H1 H2]%StronglySorted_inv.
  constructor; [by apply IH|]. by apply (Forall_fmap _ (R (f x))).
Qed.

Lemma StronglySorted_seq (s k : nat) : StronglySorted lt (seq s k).
Proof.
  revert s. induction k as [|k IH]; intros s; [constructor|].
  constructor; [apply IH|]. apply Forall_forall. intros x Hx%elem_of_seq. lia.
Qed.

(** X10. The contract page lists the documents of the contract, and only
    those, from the highest version down; when the versions of the contract
    are [1..n], as the uploads leave them, the page shows [n, ..., 1]: one
    row for each version, the newest first. *)
Theorem contract_page_lists_versions_downwards (cid : Z) (d : database) :
  versions_sequential cid d ->
  (forall r, r ∈ contract_documents cid d <->
             r ∈ documents d /\ document_contract_id r = cid)
  /\ Sorted (fun a b => document_version b <= document_version a)
       (contract_documents cid d)
  /\ document_version <$> contract_documents cid d
     = Z.of_nat <$> reverse (seq 1 (length (versions_of cid d))).
Proof.
  intros Hseq. split; [|split].
  - intros r. unfold contract_documents.
    rewrite elem_of_order_by, list_elem_of_filter. tauto.
  - apply (Sorted_impl (fun a b => desc_int document_version a b = true)).
    + intros a b H. by apply Z.leb_le in H.
    + apply order_by_sorted. unfold desc_int. intros a b H.
      apply Z.leb_gt in H. apply Z.leb_le. lia.
  - unfold contract_documents. rewrite order_by_rev.
    + rewrite fmap_reverse. fold (versions_of cid d).
      rewrite Hseq at 1. by rewrite fmap_reverse.
    + apply (StronglySorted_of_fmap (fun x y => (y <=? x) = false) document_version).
      fold (versions_of cid d). rewrite Hseq.
      apply (StronglySorted_fmap _ lt); [|apply StronglySorted_seq].
      intros x y Hxy. apply Z.leb_gt. lia.
Qed.

Lemma contract_page_lists_versions_downwards_witness :
  exists w,
    upload_all Example.base_dir id 1
      [Example.upload "msa.pdf" "abc"; Example.upload "msa.pdf" "other bytes";
       Example.upload "sow.pdf" "more"] Example.w0 = Some w
    /\ versions_sequential 1 (db w)
    /\ document_storage_path <$> contract_documents 1 (db w)
       = ["1_3_sow.pdf"; "1_2_msa.pdf"; "1_1_msa.pdf"]
    /\ document_version <$> contract_documents 1 (db w) = [3; 2; 1].
Proof.
  destruct (upload_all Example.base_dir id 1
              [Example.upload "msa.pdf" "abc"; Example.upload "msa.pdf" "other bytes";
               Example.upload "sow.pdf" "more"] Example.w0) as [w|] eqn:E;
    [|by vm_compute in E].
  assert (Hseq : versions_sequential 1 (db w)).
  { vm_compute in E. injection E as <-. reflexivity. }
  exists w. split; [reflexivity|]. split; [exact Hseq|].
  split; [vm_compute in E; injection E as <-; reflexivity|].
  destruct (contract_page_lists_versions_downwards 1 (db w) Hseq) as (_ & _ & ->).
  vm_compute in E. injection E as <-. reflexivity.
Defined.

(** ** Vendors *)

Lemma next_rowid_above (seq : Z) (ids : list Z) (x : Z) :
  x ∈ ids -> x < next_rowid seq ids.
Proof. intros Hx%max_id_ge. unfold next_rowid. lia. Qed.

(** X11. A POST to [vendor_new] without a name ends in the constraint error
    and changes nothing.  With a name it adds one vendor, under an id above
    every id of the table, with the name of the form and the time of the
    request, and one audit event that names that id in its details and
    belongs to no contract; the other vendors stay as they were. *)
Theorem vendor_new_adds_one_vendor (now now' : string) (req : request) (d : database) :
  req_method req = POST ->
  match req_form req !! "name" with
  | None => vendor_new now now' req d = (InternalServerError IntegrityError, d)
  | Some name =>
      exists v e d',
        vendor_new now now' req d = (Redirect "Vendor created." VendorList, d')
        /\ vendors d' = vendors d ++ [v]
        /\ (forall u, u ∈ vendors d -> vendor_id u < vendor_id v)
        /\ vendor_name v = name /\ vendor_created_at v = now
        /\ audit_events d' = audit_events d ++ [e]
        /\ audit_contract_id e = None /\ audit_action e = "Created vendor"
        /\ audit_details e = "Vendor " +:+ PyStr.str_of_int (vendor_id v)
        /\ audit_created_at e = now'
  end.
Proof.
  intros Hm. unfold vendor_new. rewrite Hm.
  destruct (req_form req !! "name") as [name|]; [|done].
  eexists _, _, _. split; [reflexivity|]. split; [reflexivity|].
  split; [|by repeat split].
  intros u Hu. cbn. apply next_rowid_above, list_elem_of_fmap. by exists u.
Qed.

Lemma vendor_new_adds_one_vendor_witness :
  exists d',
    vendor_new "2024-05-02T10:01:00" "2024-05-02T10:01:02"
      {| req_method := POST; req_form := {["name" := "Acme"; "status" := ""]};
         req_files := ∅ |} Example.db0
    = (Redirect "Vendor created." VendorList, d')
    /\ vendor_id <$> vendors d' = [1]
    /\ vendor_status <$> vendors d' = [None]
    /\ audit_details <$> audit_events d' = ["Vendor 1"].
Proof.
  pose proof (vendor_new_adds_one_vendor "2024-05-02T10:01:00" "2024-05-02T10:01:02"
                {| req_method := POST; req_form := {["name" := "Acme"; "status" := ""]};
                   req_files := ∅ |} Example.db0 eq_refl) as H.
  change (req_form _ !! "name") with (Some "Acme") in H.
  destruct H as (v & e & d' & E & _).
  exists d'. split; [exact E|].
  vm_compute in E. injection E as <-. by vm_compute.
Defined.



(** X13. The vendor list holds every vendor once, in the order of their
    names. *)
Theorem vendor_list_is_sorted (d : database) :
  list_vendors d ≡ₚ vendors d
  /\ Sorted (fun a b => String.leb (vendor_name a) (vendor_name b) = true)
       (list_vendors d).
Proof.
  split; [apply order_by_perm|].
  apply (order_by_sorted (asc vendor_name)). intros a b. apply leb_total_bool.
Qed.

(** ** The dashboard *)

Lemma sum_permutation (l l' : list Z) :
  l ≡ₚ l' -> foldr Z.add 0 l = foldr Z.add 0 l'.
Proof. induction 1; simpl; lia. Qed.

Lemma filter_Forall {A} (P : A -> Prop) `{forall x, Decision (P x)} (l : list A) :
  Forall P l -> filter P l = l.
Proof.
  induction 1 as [|x l Hx _ IH]; [done|]. by rewrite filter_cons_True, IH.
Qed.

Lemma count_by_key {A} (f : A -> string) (keys : list string) (l : list A) :
  NoDup keys ->
  foldr Z.add 0
    ((fun k => Z.of_nat (length (filter (fun x => f x = k) l))) <$> keys)
  = Z.of_nat (length (filter (fun x => f x ∈ keys) l)).
Proof.
  induction 1 as [|k keys Hk _ IH].
  - cbn. induction l as [|x l IHl]; [done|].
    rewrite filter_cons. destruct (decide _) as [Hx|_]; [|done].
    by apply elem_of_nil in Hx.
  - cbn [fmap list_fmap foldr]. rewrite IH. clear IH.
    induction l as [|x l IHl]; [done|].
    rewrite !filter_cons.
    destruct (decide (f x = k)) as [E|E], (decide (f x ∈ keys)) as [Hin|Hin],
             (decide (f x ∈ k :: keys)) as [Hc|Hc]; cbn [length];
      rewrite ?elem_of_cons in Hc; try lia; try (subst; tauto).
    all: destruct Hc; tauto.
Qed.

(** X14. The dashboard counts the contracts by state: it has one row for
    each state that some contract is in, in the order of the states, with
    the number of the contracts in that state, which is never zero; the
    numbers add up to the number of contracts. *)
Theorem dashboard_counts_contracts_by_state (d : database) :
  (forall s n,
      (s, n) ∈ index_stats d <->
      s ∈ contract_state <$> contracts d
      /\ n = Z.of_nat (length (filter (fun c => contract_state c = s) (contracts d))))
  /\ NoDup (fst <$> index_stats d)
  /\ Sorted (fun a b => String.leb a b = true) (fst <$> index_stats d)
  /\ (forall s n, (s, n) ∈ index_stats d -> 1 <= n)
  /\ foldr Z.add 0 (snd <$> index_stats d) = Z.of_nat (length (contracts d)).
Proof.
  assert (forall s n,
      (s, n) ∈ index_stats d <->
      s ∈ contract_state <$> contracts d
      /\ n = Z.of_nat (length (filter (fun c => contract_state c = s) (contracts d))))
    as Hrows.
  { intros s n. unfold index_stats. rewrite elem_of_order_by, list_elem_of_fmap.
    split.
    - intros (k & [= -> ->] & Hk). rewrite elem_of_remove_dups in Hk. by split.
    - intros [Hs ->]. exists s. split; [done|]. by apply elem_of_remove_dups. }
  split; [exact Hrows|]. split; [|split; [|split]].
  - unfold index_stats. rewrite order_by_perm, <- list_fmap_compose.
    rewrite (list_fmap_ext _ id (remove_dups (contract_state <$> contracts d)))
      by done.
    rewrite list_fmap_id. apply NoDup_remove_dups.
  - apply (Sorted_fmap _ (fun x y => asc fst x y = true)); [done|].
    apply order_by_sorted. intros x y. apply leb_total_bool.
  - intros s n [(c & -> & Hc)%list_elem_of_fmap ->]%Hrows.
    assert (c ∈ filter (fun c' => contract_state c' = contract_state c) (contracts d))
      as Hin by by apply list_elem_of_filter.
    destruct (filter _ _); [by apply elem_of_nil in Hin|]. cbn [length]. lia.
  - unfold index_stats.
    rewrite (sum_permutation _ _ (fmap_Permutation snd _ _ (order_by_perm _ _))).
    rewrite <- list_fmap_compose.
    rewrite (list_fmap_ext _
               (fun k => Z.of_nat (length (filter (fun c => contract_state c = k)
                                             (contracts d))))
               (remove_dups (contract_state <$> contracts d))) by done.
    rewrite count_by_key by apply NoDup_remove_dups.
    rewrite filter_Forall; [done|].
    apply Forall_forall. intros c Hc. apply elem_of_remove_dups, list_elem_of_fmap.
    by exists c.
Qed.

(** ** Extractions *)

(** X15. A POST to [extraction_new] for a contract that exists ends in the
    constraint error, with nothing changed, when the form lacks the
    extracted fields or the status.  Otherwise it adds one extraction to the
    contract, which the page of that contract then lists, leaves what the
    pages of the other contracts list as it was, and adds one audit event
    for the contract. *)
Theorem extraction_new_logs_one_extraction
    (now now' : string) (cid : Z) (req : request) (d : database) :
  req_method req = POST -> cid ∈ contract_id <$> contracts d ->
  match req_form req !! "extracted_fields", req_form req !! "status" with
  | Some fields, Some status =>
      exists x e d',
        extraction_new now now' cid req d
        = (Redirect "Extraction logged." (ContractDetail cid), d')
        /\ extractions d' = extractions d ++ [x]
        /\ extraction_contract_id x = cid
        /\ extraction_extracted_fields x = fields /\ extraction_status x = status
        /\ x ∈ contract_extractions cid d'
        /\ (forall cid', cid' <> cid ->
                         contract_extractions cid' d' = contract_extractions cid' d)
        /\ audit_events d' = audit_events d ++ [e]
        /\ audit_contract_id e = Some cid /\ audit_action e = "Logged extraction"
  | _, _ => extraction_new now now' cid req d = (InternalServerError IntegrityError, d)
  end.
Proof.
  intros Hm (c & -> & Hc)%list_elem_of_fmap. unfold extraction_new.
  assert (exists row, get_contract (contract_id c) d = Some row) as [row ->].
  { unfold get_contract.
    assert (c ∈ filter (fun c' => contract_id c' = contract_id c) (contracts d)) as Hin
      by by apply list_elem_of_filter.
    destruct (filter _ _) as [|row rest]; [by apply elem_of_nil in Hin|]. by exists row. }
  rewrite Hm.
  destruct (req_form req !! "extracted_fields") as [fields|]; [|done].
  destruct (req_form req !! "status") as [status|]; [|done].
  eexists _, _, _. split; [reflexivity|]. split; [reflexivity|].
  cbn [extraction_contract_id extraction_extracted_fields extraction_status].
  split; [done|]. split; [done|]. split; [done|].
  split; [|split; [|by repeat split]].
  - unfold contract_extractions. rewrite elem_of_order_by, list_elem_of_filter.
    split; [done|]. cbn. rewrite elem_of_app, list_elem_of_singleton. by right.
  - intros cid' Hne. unfold contract_extractions. cbn.
    rewrite filter_app, filter_cons, filter_nil.
    cbn [extraction_contract_id]. destruct (decide _); [congruence|].
    by rewrite app_nil_r.
Qed.

Lemma extraction_new_logs_one_extraction_witness :
  exists d',
    extraction_new "2024-05-02T11:00:00" "2024-05-02T11:00:00" 1
      {| req_method := POST;
         req_form := {["extracted_fields" := "term: 12 months"; "status" := "Pending"]};
         req_files := ∅ |} Example.db0
    = (Redirect "Extraction logged." (ContractDetail 1), d')
    /\ extraction_status <$> contract_extractions 1 d' = ["Pending"]
    /\ contract_extractions 2 d' = [].
Proof.
  pose proof (extraction_new_logs_one_extraction
                "2024-05-02T11:00:00" "2024-05-02T11:00:00" 1
                {| req_method := POST;
                   req_form := {["extracted_fields" := "term: 12 months";
                                 "status" := "Pending"]};
                   req_files := ∅ |} Example.db0 eq_refl) as H.
  change (req_form _ !! "extracted_fields") with (Some "term: 12 months") in H.
  change (req_form _ !! "status") with (Some "Pending") in H.
  destruct H as (x & e & d' & E & _).
  { apply (bool_decide_unpack _). by vm_compute. }
  exists d'. split; [exact E|].
  vm_compute in E. injection E as <-. by vm_compute.
Defined.

(** ** The audit log *)

(** X16. The audit log shows every event once, each beside the title of the
    contract it belongs to; an event of no contract, or of a contract that
    does not exist, is shown without a title. *)
Theorem audit_log_shows_contract_titles (d : database) :
  contracts_wf d ->
  (forall a t, (a, t) ∈ audit_log d <-> a ∈ audit_events d /\ t = contract_title_of a d)
  /\ length (audit_log d) = length (audit_events d).
Proof.
  intros Hwf. split.
  - intros a t. unfold audit_log. rewrite elem_of_order_by, list_elem_of_bind.
    assert (forall a0,
        match filter (fun c => Some (contract_id c) = audit_contract_id a0) (contracts d) with
        | [] => [(a0, None)]
        | c :: cs => (fun c => (a0, Some (contract_title c))) <$> c :: cs
        end = [(a0, contract_title_of a0 d)]) as Hrow.
    { intros a0. unfold contract_title_of, get_contract.
      destruct (audit_contract_id a0) as [cid|]; cbn.
      - rewrite (list_filter_iff _ (fun c => contract_id c = cid)) by (intros c; naive_solver).
        by destruct (filter_key contract_id cid (contracts d) Hwf) as [->|[c ->]].
      - rewrite (list_filter_iff _ (fun _ => False)) by (intros c; naive_solver).
        by induction (contracts d). }
    split.
    + intros (a0 & Hin & Ha0). rewrite Hrow in Hin.
      by apply list_elem_of_singleton in Hin as [= -> ->].
    + intros [Ha ->]. exists a. rewrite Hrow. split; [by left|done].
  - rewrite <- (length_fmap fst). apply Permutation_length. by apply audit_log_events.
Qed.

Lemma audit_log_shows_contract_titles_witness :
  contracts_wf Example.two_events
  /\ snd <$> audit_log Example.two_events
     = [Some "Master services agreement"; Some "Master services agreement"]
  /\ length (audit_log Example.two_events) = 2%nat.
Proof.
  assert (Hwf : contracts_wf Example.two_events) by apply NoDup_singleton.
  split; [exact Hwf|]. split; [by vm_compute|].
  by rewrite (proj2 (audit_log_shows_contract_titles Example.two_events Hwf)).
Defined.

(** ** The tag field of the contract form *)

Lemma split_app_sep (sep : ascii) (a rest : string) :
  sep ∉ chars a ->
  PyStr.split sep (a +:+ String sep rest) = a :: PyStr.split sep rest.
Proof.
  induction a as [|c a IH]; intros Ha.
  - simpl. by rewrite Ascii.eqb_refl.
  - rewrite chars_cons, not_elem_of_cons in Ha. destruct Ha as [Hc Ha].
    simpl. rewrite (proj2 (Ascii.eqb_neq c sep)) by congruence.
    by rewrite IH.
Qed.

Lemma split_join_comma (names : list string) :
  Forall (fun n => ","%char ∉ chars n) names ->
  PyStr.split "," (PyStr.join ", " names) =
  match names with
  | [] => [""]
  | n :: rest => n :: (String " " <$> rest)
  end.
Proof.
  induction 1 as [|n rest Hn _ IH]; [done|].
  destruct rest as [|m rest].
  - by apply split_no_sep.
  - change (PyStr.join ", " (n :: m :: rest))
      with (n +:+ String "," (String " " (PyStr.join ", " (m :: rest)))).
    rewrite split_app_sep by done.
    change (PyStr.split "," (String " " (PyStr.join ", " (m :: rest))))
      with (match PyStr.split "," (PyStr.join ", " (m :: rest)) with
            | [] => [String " " ""]
            | part :: parts => String " " part :: parts
            end).
    by rewrite IH.
Qed.

Lemma cleaned_names_filter (l : list string) :
  cleaned_names (filter (fun tag => PyStr.truthy (PyStr.strip tag) = true) l)
  = cleaned_names l.
Proof.
  induction l as [|name rest IH]; [done|].
  rewrite filter_cons, (cleaned_names_cons name rest).
  destruct (decide _) as [E|E].
  - by rewrite cleaned_names_cons, E, IH.
  - apply not_true_is_false in E. by rewrite E.
Qed.

Lemma cleaned_names_clean (names : list string) :
  Forall clean_name names -> cleaned_names names = names.
Proof.
  induction 1 as [|n rest [Hne Hn] _ IH]; [done|].
  rewrite cleaned_names_cons, Hn, IH.
  destruct (PyStr.truthy n) eqn:E; [done|].
  destruct Hne. apply truthy_false. by rewrite E.
Qed.

(** X17. The tag field that the edit form shows reads back as the tags of
    the contract: when no tag of the contract holds a comma, the field that
    [contract_edit] renders, split and trimmed as a posted form is, gives
    the same names, and [upsert_tags] with them leaves the contract with the
    tags it had. *)
Theorem edit_form_reads_back_the_tags
    (bump : bool) (cid : Z) (d : database) (form : gmap string string) :
  tags_wf d ->
  (forall n, n ∈ get_contract_tags cid d -> clean_name n /\ ","%char ∉ chars n) ->
  form !! "tags" = Some (contract_edit_tags cid d) ->
  cleaned_names (form_tags form) = get_contract_tags cid d
  /\ exists d',
       upsert_tags bump false cid (form_tags form) d = Ok d'
       /\ get_contract_tags cid d' = get_contract_tags cid d.
Proof.
  intros Hwf Hnames Hform.
  assert (cleaned_names (form_tags form) = get_contract_tags cid d) as Hsame.
  { unfold form_tags, contract_edit_tags in *. rewrite Hform.
    change (default "" (Some (PyStr.join ", " (get_contract_tags cid d))))
      with (PyStr.join ", " (get_contract_tags cid d)).
    rewrite cleaned_names_filter, split_join_comma
      by (apply Forall_forall; intros n Hn; by apply Hnames).
    assert (Forall clean_name (get_contract_tags cid d)) as Hclean
      by (apply Forall_forall; intros n Hn; by apply Hnames).
    destruct (get_contract_tags cid d) as [|n rest]; [done|].
    rewrite cleaned_names_cons.
    apply Forall_cons in Hclean as [[Hne Hn] Hrest]. rewrite Hn.
    destruct (PyStr.truthy n) eqn:E;
      [|destruct Hne; apply truthy_false; by rewrite E].
    cbn [negb]. f_equal.
    rewrite <- (cleaned_names_clean rest Hrest) at 2.
    unfold cleaned_names. f_equal. rewrite <- list_fmap_compose.
    by apply list_fmap_ext. }
  split; [done|].
  destruct (upsert_tags_replaces bump cid (form_tags form) d Hwf)
    as (d' & E & Hwf' & Hm & _).
  exists d'. split; [done|].
  apply get_contract_tags_eq;
    [done|apply get_contract_tags_sorted|by apply NoDup_get_contract_tags|].
  intros n. by rewrite Hm, Hsame.
Qed.

Lemma edit_form_reads_back_the_tags_witness :
  exists d,
    upsert_tags false false 1 [" msa"; "legal "] Example.db0 = Ok d
    /\ contract_edit_tags 1 d = "legal, msa"
    /\ cleaned_names (form_tags {["tags" := "legal, msa"]}) = get_contract_tags 1 d.
Proof.
  destruct (upsert_tags false false 1 [" msa"; "legal "] Example.db0) as [d|] eqn:Ed;
    [|by vm_compute in Ed].
  assert (Hwf : tags_wf d).
  { apply (upsert_tags_wf false 1 [" msa"; "legal "] Example.db0 d); [|done].
    repeat split; constructor. }
  assert (Hfield : contract_edit_tags 1 d = "legal, msa").
  { vm_compute in Ed. injection Ed as <-. reflexivity. }
  exists d. split; [reflexivity|]. split; [exact Hfield|].
  apply (edit_form_reads_back_the_tags false 1 d {["tags" := "legal, msa"]} Hwf).
  - vm_compute in Ed. injection Ed as <-. intros n Hn.
    change (n ∈ ["legal"; "msa"]) in Hn.
    rewrite !elem_of_cons, elem_of_nil in Hn.
    destruct Hn as [->|[->|[]]]; (split; [by split|]);
      apply (bool_decide_unpack _); by vm_compute.
  - by rewrite Hfield.
Defined.

(** ** File names *)

(** X18. The file name that [secure_filename] returns holds letters, digits,
    dots, underscores and hyphens only, neither begins nor ends with a dot
    or an underscore, and so is neither [.] nor [..]; the storage name made
    of a contract, a version and such a name is one path component, which
    [safe_join] puts right under the directory. *)
Theorem sanitised_names_are_plain_components
    (ascii_nfkd : string -> string) (filename directory : string) (cid version : Z) :
  (forall c, c ∈ chars (secure_filename ascii_nfkd filename) ->
             Werkzeug.filename_char c = true)
  /\ (forall c, head (chars (secure_filename ascii_nfkd filename)) = Some c ->
                Werkzeug.dot_or_underscore c = false)
  /\ (forall c, last (chars (secure_filename ascii_nfkd filename)) = Some c ->
                Werkzeug.dot_or_underscore c = false)
  /\ secure_filename ascii_nfkd filename <> "."
  /\ secure_filename ascii_nfkd filename <> ".."
  /\ Werkzeug.safe_join directory
       (stored_name_of cid version (secure_filename ascii_nfkd filename))
     = Some (under directory
               [stored_name_of cid version (secure_filename ascii_nfkd filename)]).
Proof.
  assert (forall c, head (chars (secure_filename ascii_nfkd filename)) = Some c ->
                    Werkzeug.dot_or_underscore c = false) as Hhead.
  { unfold secure_filename, Werkzeug.secure_filename, PyStr.strip_with.
    intros c Hc.
    destruct (rstrip_spec Werkzeug.dot_or_underscore
                (PyStr.lstrip_with Werkzeug.dot_or_underscore
                   (PyStr.keep Werkzeug.filename_char
                      (PyStr.join "_"
                         (PyStr.words (PyStr.replace "/" " " (ascii_nfkd filename)))))))
      as (r & _ & _ & _ & Hkeep).
    apply Hkeep in Hc.
    destruct (lstrip_spec Werkzeug.dot_or_underscore
                (PyStr.keep Werkzeug.filename_char
                   (PyStr.join "_"
                      (PyStr.words (PyStr.replace "/" " " (ascii_nfkd filename))))))
      as (l & _ & _ & Hl).
    by apply Hl. }
  split; [apply secure_filename_chars|]. split; [exact Hhead|]. split; [|split; [|split]].
  - unfold secure_filename, Werkzeug.secure_filename, PyStr.strip_with.
    intros c Hc.
    destruct (rstrip_spec Werkzeug.dot_or_underscore
                (PyStr.lstrip_with Werkzeug.dot_or_underscore
                   (PyStr.keep Werkzeug.filename_char
                      (PyStr.join "_"
                         (PyStr.words (PyStr.replace "/" " " (ascii_nfkd filename)))))))
      as (r & _ & _ & Hlast & _).
    by apply Hlast.
  - intros E. rewrite E in Hhead. by specialize (Hhead "."%char eq_refl).
  - intros E. rewrite E in Hhead. by specialize (Hhead "."%char eq_refl).
  - destruct (stored_name_component cid version (secure_filename ascii_nfkd filename))
      as (H1 & H2 & H3 & H4); [apply secure_filename_no_slash|].
    by apply safe_join_component.
Qed.

(** ** Hashes *)

Lemma hex_digit_chars (n : Z) :
  0 <= n < 16 -> SHA256.hex_digit n ∈ chars "0123456789abcdef".
Proof.
  intros Hn.
  assert (n ∈ seqZ 0 16) as Hin by (apply elem_of_seqZ; lia).
  clear Hn. revert n Hin. apply Forall_forall.
  apply (bool_decide_unpack _). by vm_compute.
Qed.

Lemma hex8_chars (w : Z) (c : ascii) :
  c ∈ chars (SHA256.hex8 w) -> c ∈ chars "0123456789abcdef".
Proof.
  unfold SHA256.hex8, chars. rewrite list_ascii_of_string_of_list_ascii.
  intros (i & -> & _)%list_elem_of_fmap. apply hex_digit_chars.
  change 15 with (Z.ones 4). rewrite Z.land_ones by lia.
  apply Z.mod_pos_bound. lia.
Qed.

(** X19. The hash that an upload records is written in lower-case
    hexadecimal digits: every one of its characters is one of [0-9a-f]. *)
Theorem recorded_hash_is_lowercase_hex (data : list byte) (c : ascii) :
  c ∈ chars (SHA256.hexdigest data) -> c ∈ chars "0123456789abcdef".
Proof.
  unfold SHA256.hexdigest, SHA256.hex. rewrite !chars_app, !elem_of_app.
  intros [H|[H|[H|[H|[H|[H|[H|H]]]]]]]; by apply hex8_chars in H.
Qed.

Lemma recorded_hash_is_lowercase_hex_witness :
  "b"%char ∈ chars (SHA256.hexdigest (bytes_of "abc"))
  /\ "b"%char ∈ chars "0123456789abcdef".
Proof.
  assert (H : "b"%char ∈ chars (SHA256.hexdigest (bytes_of "abc"))).
  { rewrite sha256_abc. rewrite chars_cons. by left. }
  split; [exact H|]. exact (recorded_hash_is_lowercase_hex _ _ H).
Defined.

(** ** Time stamps *)

Lemma zero_padded_2 (n : Z) : 0 <= n < 100 -> zero_padded 2 n = fixed_digits 2 n.
Proof.
  intros Hn. assert (n ∈ seqZ 0 100) as Hin by (apply elem_of_seqZ; lia).
  clear Hn. revert n Hin. apply Forall_forall.
  apply (bool_decide_unpack _). by vm_compute.
Qed.

Lemma zero_padded_4 (n : Z) : 0 <= n < 10000 -> zero_padded 4 n = fixed_digits 4 n.
Proof.
  intros Hn. assert (n ∈ seqZ 0 10000) as Hin by (apply elem_of_seqZ; lia).
  clear Hn. revert n Hin. apply Forall_forall.
  apply (bool_decide_unpack _). by vm_compute.
Qed.

Lemma length_fixed_digits (w : nat) (n : Z) : String.length (fixed_digits w n) = w.
Proof.
  revert n. induction w as [|w IH]; intros n; [done|].
  cbn [fixed_digits]. rewrite string_length_app, IH. cbn. lia.
Qed.

Lemma compare_app_same_length (u u' s s' : string) :
  String.length u = String.length u' ->
  String.compare (u +:+ s) (u' +:+ s')
  = then_by (String.compare u u') (String.compare s s').
Proof.
  revert u'. induction u as [|c u IH]; intros [|c' u']; try done.
  intros [= Hlen]. rewrite !append_cons. cbn.
  destruct (Ascii.compare c c'); [by apply IH|done..].
Qed.

Lemma compare_digit (a b : Z) :
  0 <= a < 10 -> 0 <= b < 10 -> Ascii.compare (digit a) (digit b) = (a ?= b).
Proof.
  intros Ha Hb. unfold Ascii.compare, digit.
  rewrite !N_ascii_embedding by lia.
  rewrite Z2N.inj_compare by lia. apply Z.add_compare_mono_l.
Qed.

Lemma compare_by_last_digit (x y : Z) :
  (x ?= y) = then_by (x / 10 ?= y / 10) (x mod 10 ?= y mod 10).
Proof.
  pose proof (Z.div_mod x 10). pose proof (Z.div_mod y 10).
  pose proof (Z.mod_pos_bound x 10). pose proof (Z.mod_pos_bound y 10).
  destruct (Z.compare_spec (x / 10) (y / 10)); cbn [then_by].
  - destruct (Z.compare_spec (x mod 10) (y mod 10));
      [apply Z.compare_eq_iff|apply Z.compare_lt_iff|apply Z.compare_gt_iff]; lia.
  - apply Z.compare_lt_iff. lia.
  - apply Z.compare_gt_iff. lia.
Qed.

Lemma compare_fixed_digits (w : nat) (x y : Z) :
  0 <= x < 10 ^ Z.of_nat w -> 0 <= y < 10 ^ Z.of_nat w ->
  String.compare (fixed_digits w x) (fixed_digits w y) = (x ?= y).
Proof.
  revert x y. induction w as [|w IH]; intros x y Hx Hy.
  - cbn in *. symmetry. apply Z.compare_eq_iff. lia.
  - rewrite Nat2Z.inj_succ, Z.pow_succ_r in Hx, Hy by lia.
    cbn [fixed_digits].
    rewrite compare_app_same_length by by rewrite !length_fixed_digits.
    rewrite IH by (split; [apply Z.div_pos|apply Z.div_lt_upper_bound]; lia).
    rewrite (compare_by_last_digit x y). f_equal. cbn.
    rewrite compare_digit by (apply Z.mod_pos_bound; lia).
    by destruct (x mod 10 ?= y mod 10).
Qed.

Lemma compare_after (c : ascii) (s s' : string) :
  String.compare (String c "" +:+ s) (String c "" +:+ s') = String.compare s s'.
Proof.
  rewrite !append_cons, !append_nil. cbn.
  replace (Ascii.compare c c) with Eq; [done|].
  symmetry. unfold Ascii.compare. apply N.compare_refl.
Qed.

Lemma isoformat_fixed (t : datetime) :
  datetime_ok t ->
  now_ts t =
  fixed_digits 4 (year t) +:+ "-" +:+ fixed_digits 2 (month t) +:+ "-"
  +:+ fixed_digits 2 (day t) +:+ "T" +:+ fixed_digits 2 (hour t) +:+ ":"
  +:+ fixed_digits 2 (minute t) +:+ ":" +:+ fixed_digits 2 (second t).
Proof.
  intros (Hy & Hm & Hd & Hh & Hmin & Hs). unfold now_ts, isoformat_seconds.
  by rewrite zero_padded_4, !zero_padded_2 by lia.
Qed.

Lemma compare_now_ts (a b : datetime) :
  datetime_ok a -> datetime_ok b ->
  String.compare (now_ts a) (now_ts b) = compare_datetime a b.
Proof.
  intros Ha Hb. rewrite (isoformat_fixed a Ha), (isoformat_fixed b Hb).
  destruct Ha as (Hy & Hm & Hd & Hh & Hmin & Hs).
  destruct Hb as (Hy' & Hm' & Hd' & Hh' & Hmin' & Hs').
  unfold compare_datetime.
  repeat (rewrite compare_app_same_length by (by rewrite !length_fixed_digits);
          rewrite compare_after).
  by rewrite !compare_fixed_digits by (cbn; lia).
Qed.

Lemma compare_datetime_lt (a b : datetime) :
  compare_datetime a b = Lt <-> earlier a b.
Proof.
  unfold compare_datetime, earlier.
  repeat (match goal with
          | |- context [?x ?= ?y] => destruct (Z.compare_spec x y)
          end; cbn [then_by];
          try (split; intros; (discriminate || lia || done))).
Qed.

Lemma compare_datetime_eq (a b : datetime) :
  compare_datetime a b = Eq <-> a = b.
Proof.
  split.
  - unfold compare_datetime. destruct a, b. cbn.
    repeat (match goal with
            | |- context [?x ?= ?y] => destruct (Z.compare_spec x y)
            end; cbn [then_by]; try discriminate).
    intros _. by subst.
  - intros ->. unfold compare_datetime. by rewrite !Z.compare_refl.
Qed.

(** X20. The time stamps of [now_ts] sort as the clock runs: a time stamp has
    19 characters, one reading of the clock gives a smaller time stamp than
    another, in the order of strings, exactly when it is the earlier one, and
    two readings give the same time stamp only when they are the same
    second. *)
Theorem time_stamps_sort_chronologically (a b : datetime) :
  datetime_ok a -> datetime_ok b ->
  String.length (now_ts a) = 19%nat
  /\ (String.ltb (now_ts a) (now_ts b) = true <-> earlier a b)
  /\ (now_ts a = now_ts b <-> a = b).
Proof.
  intros Ha Hb. split; [|split].
  - rewrite (isoformat_fixed a Ha).
    by rewrite !string_length_app, !length_fixed_digits.
  - rewrite <- compare_datetime_lt, <- (compare_now_ts a b Ha Hb).
    unfold String.ltb. by destruct (String.compare _ _).
  - rewrite <- compare_datetime_eq, <- (compare_now_ts a b Ha Hb). split.
    + intros ->. rewrite (compare_now_ts b b Hb Hb). by apply compare_datetime_eq.
    + intros H. by apply String.compare_eq_iff.
Qed.

Lemma time_stamps_sort_chronologically_witness :
  now_ts {| year := 2024; month := 5; day := 2; hour := 9; minute := 59; second := 7 |}
  = "2024-05-02T09:59:07"
  /\ String.ltb
       (now_ts {| year := 2024; month := 5; day := 2;
                  hour := 9; minute := 59; second := 7 |})
       (now_ts {| year := 2024; month := 5; day := 2;
                  hour := 10; minute := 0; second := 0 |}) = true.
Proof.
  split; [reflexivity|].
  apply (time_stamps_sort_chronologically
           {| year := 2024; month := 5; day := 2; hour := 9; minute := 59; second := 7 |}
           {| year := 2024; month := 5; day := 2; hour := 10; minute := 0; second := 0 |}).
  - unfold datetime_ok. cbn. lia.
  - unfold datetime_ok. cbn. lia.
  - unfold earlier. cbn. lia.
Defined.

(** ** Interleaved uploads to different contracts *)

Lemma step_other_contract (BASE_DIR : string) (ascii_nfkd : string -> string)
    (c : caller) (pc : upload_pc) (w : world) (cid : Z) :
  caller_contract c <> cid ->
  versions_of cid (db (caller_step BASE_DIR ascii_nfkd c pc w).2) = versions_of cid (db w).
Proof.
  intros Hc. destruct c as [now now' fault cid' req]. unfold caller_step. cbn in *.
  destruct pc; cbn; repeat case_match; simplify_eq/=; try done.
  all: by rewrite versions_of_insert, bool_decide_eq_false_2, app_nil_r.
Qed.

Lemma next_version_of_versions (cid : Z) (d d' : database) :
  versions_of cid d' = versions_of cid d -> next_version cid d' = next_version cid d.
Proof. intros E. by rewrite !next_version_versions, E. Qed.

Lemma holds_next_version_same (cid : Z) (pc : upload_pc) (d d' : database) :
  versions_of cid d' = versions_of cid d ->
  holds_next_version cid pc d -> holds_next_version cid pc d'.
Proof.
  intros E%next_version_of_versions. destruct pc; cbn; by rewrite ?E.
Qed.

Lemma sequential_next (cid : Z) (d d' : database) :
  versions_sequential cid d ->
  versions_of cid d' = versions_of cid d ++ [next_version cid d] ->
  versions_sequential cid d'.
Proof.
  unfold versions_sequential. intros Hd ->.
  rewrite (next_version_seq cid d _ Hd), length_app, Nat.add_comm.
  cbn [length Nat.add]. rewrite seq_S, fmap_app, <- Hd. cbn.
  do 2 f_equal. lia.
Qed.

Lemma step_own_contract (BASE_DIR : string) (ascii_nfkd : string -> string)
    (c : caller) (pc : upload_pc) (w : world) (cid : Z) :
  caller_contract c = cid ->
  holds_next_version cid pc (db w) -> versions_sequential cid (db w) ->
  holds_next_version cid (caller_step BASE_DIR ascii_nfkd c pc w).1
    (db (caller_step BASE_DIR ascii_nfkd c pc w).2)
  /\ versions_sequential cid (db (caller_step BASE_DIR ascii_nfkd c pc w).2).
Proof.
  intros Hc Hv Hs.
  pose proof (step_versions BASE_DIR ascii_nfkd c pc w cid Hc) as E. subst cid.
  destruct c as [now now' fault cid req]. unfold caller_step in *. cbn in *.
  destruct pc; cbn in *; repeat case_match; simplify_eq/=; try done.
  split; [done|]. by apply (sequential_next cid (db w)).
Qed.

(** X21. Uploads to different contracts do not disturb each other: whatever
    the order in which the steps of two callers are taken, when the callers
    upload to different contracts the versions of both contracts stay
    [1..n], each caller adding at most the next version of its own
    contract. *)
Theorem uploads_to_different_contracts_keep_their_versions
    (BASE_DIR : string) (ascii_nfkd : string -> string) (a b : caller)
    (schedule : list bool) (w : world) :
  caller_contract a <> caller_contract b ->
  versions_sequential (caller_contract a) (db w) ->
  versions_sequential (caller_contract b) (db w) ->
  versions_sequential (caller_contract a)
    (db (interleave BASE_DIR ascii_nfkd a b schedule (AtStart, AtStart, w)).2)
  /\ versions_sequential (caller_contract b)
       (db (interleave BASE_DIR ascii_nfkd a b schedule (AtStart, AtStart, w)).2).
Proof.
  intros Hne Ha Hb.
  assert (forall pa pb w0,
      holds_next_version (caller_contract a) pa (db w0) ->
      holds_next_version (caller_contract b) pb (db w0) ->
      versions_sequential (caller_contract a) (db w0) ->
      versions_sequential (caller_contract b) (db w0) ->
      versions_sequential (caller_contract a)
        (db (interleave BASE_DIR ascii_nfkd a b schedule (pa, pb, w0)).2)
      /\ versions_sequential (caller_contract b)
           (db (interleave BASE_DIR ascii_nfkd a b schedule (pa, pb, w0)).2)) as Hall.
  { induction schedule as [|turn rest IH]; intros pa pb w0 Hpa Hpb Hsa Hsb; [done|].
    cbn [interleave]. destruct turn.
    - destruct (step_own_contract BASE_DIR ascii_nfkd a pa w0 _ eq_refl Hpa Hsa)
        as [Hpa' Hsa'].
      pose proof (step_other_contract BASE_DIR ascii_nfkd a pa w0 _ Hne) as E.
      destruct (caller_step BASE_DIR ascii_nfkd a pa w0) as [pa' w']. cbn in *.
      apply IH; [done|by apply (holds_next_version_same _ _ (db w0))|done|].
      unfold versions_sequential. by rewrite E.
    - destruct (step_own_contract BASE_DIR ascii_nfkd b pb w0 _ eq_refl Hpb Hsb)
        as [Hpb' Hsb'].
      assert (caller_contract b <> caller_contract a) as Hne' by congruence.
      pose proof (step_other_contract BASE_DIR ascii_nfkd b pb w0 _ Hne') as E.
      destruct (caller_step BASE_DIR ascii_nfkd b pb w0) as [pb' w']. cbn in *.
      apply IH; [by apply (holds_next_version_same _ _ (db w0))|done| |done].
      unfold versions_sequential. by rewrite E. }
  by apply Hall.
Qed.

Lemma uploads_to_different_contracts_keep_their_versions_witness :
  versions_of 1
    (db (interleave Example.base_dir id
           (Example.caller "msa.pdf" "abc")
           {| caller_now := "2024-05-02T10:00:00"; caller_now' := "2024-05-02T10:00:00";
              caller_fault := None; caller_contract := 2;
              caller_request := Example.post "msa.pdf" "xyz" |}
           Example.racing_schedule (AtStart, AtStart, two_contracts)).2) = [1]
  /\ versions_sequential 2
       (db (interleave Example.base_dir id
              (Example.caller "msa.pdf" "abc")
              {| caller_now := "2024-05-02T10:00:00"; caller_now' := "2024-05-02T10:00:00";
                 caller_fault := None; caller_contract := 2;
                 caller_request := Example.post "msa.pdf" "xyz" |}
              Example.racing_schedule (AtStart, AtStart, two_contracts)).2).
Proof.
  split; [by vm_compute|].
  apply (uploads_to_different_contracts_keep_their_versions Example.base_dir id
           (Example.caller "msa.pdf" "abc")
           {| caller_now := "2024-05-02T10:00:00"; caller_now' := "2024-05-02T10:00:00";
              caller_fault := None; caller_contract := 2;
              caller_request := Example.post "msa.pdf" "xyz" |}
           Example.racing_schedule two_contracts).
  - discriminate.
  - reflexivity.
  - reflexivity.
Defined.

(** ** Tags, once more *)

(** X22. The tags that [upsert_tags] leaves on a contract depend on the set
    of the trimmed names alone: two lists with the same trimmed, non-empty
    names, in whatever order and however often repeated, leave the contract
    with the same tags. *)
Theorem setTags_depends_on_the_names_only
    (bump : bool) (cid : Z) (names names' : list string) (d : database) :
  tags_wf d ->
  (forall n, n ∈ cleaned_names names <-> n ∈ cleaned_names names') ->
  exists d1 d2,
    upsert_tags bump false cid names d = Ok d1
    /\ upsert_tags bump false cid names' d = Ok d2
    /\ get_contract_tags cid d1 = get_contract_tags cid d2.
Proof.
  intros Hwf Hsame.
  destruct (upsert_tags_replaces bump cid names d Hwf) as (d1 & E1 & Hwf1 & Hm1 & _).
  destruct (upsert_tags_replaces bump cid names' d Hwf) as (d2 & E2 & Hwf2 & Hm2 & _).
  exists d1, d2. split; [done|]. split; [done|].
  apply get_contract_tags_eq;
    [done|apply get_contract_tags_sorted|by apply NoDup_get_contract_tags|].
  intros n. by rewrite Hm1, Hm2.
Qed.

Lemma setTags_depends_on_the_names_only_witness :
  exists d1 d2,
    upsert_tags false false 1 ["msa"; " legal"; "msa "] Example.db0 = Ok d1
    /\ upsert_tags false false 1 ["legal"; "msa"] Example.db0 = Ok d2
    /\ vocabulary d1 = ["msa"; "legal"]
    /\ vocabulary d2 = ["legal"; "msa"]
    /\ get_contract_tags 1 d1 = get_contract_tags 1 d2.
Proof.
  destruct (setTags_depends_on_the_names_only false 1
              ["msa"; " legal"; "msa "] ["legal"; "msa"] Example.db0)
    as (d1 & d2 & E1 & E2 & Hsame).
  { repeat split; constructor. }
  { intros n. change (n ∈ ["msa"; "legal"; "msa"] <-> n ∈ ["legal"; "msa"]).
    rewrite !elem_of_cons, !elem_of_nil. tauto. }
  exists d1, d2. split; [exact E1|]. split; [exact E2|].
  split; [vm_compute in E1; injection E1 as <-; reflexivity|].
  split; [vm_compute in E2; injection E2 as <-; reflexivity|].
  exact Hsame.
Defined.

(** ** The actor of an audit event *)

Lemma or_default_system (x : option string) :
  or_default x "system"
  = match x with
    | Some actor => if bool_decide (actor = "") then "system" else actor
    | None => "system"
    end
  /\ or_default x "system" <> "".
Proof.
  unfold or_default, PyStr.truthy. destruct x as [s|]; [|done].
  destruct (String.eqb_spec s "") as [->|Hs]; cbn [negb].
  - done.
  - by rewrite bool_decide_eq_false_2.
Qed.

Lemma appended_event (now : string) (cid : option Z) (action actor details : string)
    (d0 d : database) (e : audit_row) :
  audit_events d = audit_events d0 ->
  e ∈ audit_events (record_audit now cid action actor details d) ->
  e ∉ audit_events d0 -> audit_actor e = actor.
Proof.
  intros E. rewrite record_audit_events, E, elem_of_app, list_elem_of_singleton.
  by intros [?| ->] ?.
Qed.

(** X23. The audit event that a request leaves names an actor: the actor of
    the form, and [system] when the form has none or an empty one; it is
    never the empty string. *)
Theorem requests_record_an_actor
    (BASE_DIR : string) (ascii_nfkd : string -> string) (bump : bool)
    (c : call) (form : gmap string string) (w : world) (e : audit_row) :
  call_form c = Some form ->
  e ∈ audit_events (db (perform BASE_DIR ascii_nfkd bump c w).2) ->
  e ∉ audit_events (db w) ->
  audit_actor e
  = match form !! "actor" with
    | Some actor => if bool_decide (actor = "") then "system" else actor
    | None => "system"
    end
  /\ audit_actor e <> "".
Proof.
  intros Hform Hnew Hold.
  enough (audit_actor e = or_default (form !! "actor") "system") as ->
    by apply or_default_system.
  revert Hform Hnew Hold.
  destruct c as [now now' fault cid req|filename|now now' req|now' vid req
                |now now' req|now now' cid req|now now' cid req|cid names
                |now cid action actor details]; cbn [call_form]; intros Hf;
    try discriminate; injection Hf as <-.
  - unfold perform.
    destruct (document_new_cases BASE_DIR ascii_nfkd now now' fault cid req w)
      as [(file & _ & _ & _ & ->)|[(file & _ & _ & ->)|(r & w' & -> & _ & _ & Hdb & _)]];
      cbn [snd db].
    + unfold upload_audited. by apply appended_event.
    + unfold upload_inserted, insert_document. cbn. intros H Hold. destruct (Hold H).
    + rewrite Hdb. intros H Hold. destruct (Hold H).
  - unfold perform, on_db, vendor_new.
    repeat (case_match; simplify_eq/=); try (intros H Hold; destruct (Hold H)).
    by intros [?| ->%list_elem_of_singleton]%elem_of_app Hold; [destruct Hold|].
  - unfold perform, on_db, vendor_edit.
    repeat (case_match; simplify_eq/=); try (intros H Hold; destruct (Hold H)).
    by intros [?| ->%list_elem_of_singleton]%elem_of_app Hold; [destruct Hold|].
  - unfold perform, on_db, contract_new.
    repeat (case_match; simplify_eq/=); intros H Hold; destruct (Hold H).
  - unfold perform, on_db, contract_edit.
    repeat (case_match; simplify_eq/=); intros H Hold; destruct (Hold H).
  - unfold perform, on_db, extraction_new.
    repeat (case_match; simplify_eq/=); try (intros H Hold; destruct (Hold H)).
    by intros [?| ->%list_elem_of_singleton]%elem_of_app Hold; [destruct Hold|].
Qed.

Lemma requests_record_an_actor_witness :
  exists e e',
    audit_events
      (db (perform Example.base_dir id false
             (DocumentNew "2024-05-02T10:00:00" "2024-05-02T10:00:00" None 1
                {| req_method := POST; req_form := {["actor" := ""]};
                   req_files :=
                     {["document" := {| upload_filename := "msa.pdf";
                                        upload_content := bytes_of "abc" |}]} |})
             Example.w0).2) = [e]
    /\ audit_actor e = "system"
    /\ audit_events
         (db (perform Example.base_dir id false
                (VendorNew "2024-05-02T10:01:00" "2024-05-02T10:01:00"
                   {| req_method := POST;
                      req_form := {["name" := "Acme"; "actor" := "alice"]};
                      req_files := ∅ |})
                Example.w0).2) = [e']
    /\ audit_actor e' = "alice".
Proof.
  destruct (audit_events
              (db (perform Example.base_dir id false
                     (DocumentNew "2024-05-02T10:00:00" "2024-05-02T10:00:00" None 1
                        {| req_method := POST; req_form := {["actor" := ""]};
                           req_files :=
                             {["document" := {| upload_filename := "msa.pdf";
                                                upload_content := bytes_of "abc" |}]} |})
                     Example.w0).2)) as [|e rest] eqn:E; [by vm_compute in E|].
  destruct (audit_events
              (db (perform Example.base_dir id false
                     (VendorNew "2024-05-02T10:01:00" "2024-05-02T10:01:00"
                        {| req_method := POST;
                           req_form := {["name" := "Acme"; "actor" := "alice"]};
                           req_files := ∅ |})
                     Example.w0).2)) as [|e' rest'] eqn:E'; [by vm_compute in E'|].
  exists e, e'.
  assert (rest = []) as -> by (vm_compute in E; by injection E as _ <-).
  assert (rest' = []) as -> by (vm_compute in E'; by injection E' as _ <-).
  split; [reflexivity|]. split; [|split; [reflexivity|]].
  - destruct (requests_record_an_actor Example.base_dir id false
                (DocumentNew "2024-05-02T10:00:00" "2024-05-02T10:00:00" None 1
                   {| req_method := POST; req_form := {["actor" := ""]};
                      req_files :=
                        {["document" := {| upload_filename := "msa.pdf";
                                           upload_content := bytes_of "abc" |}]} |})
                {["actor" := ""]} Example.w0 e) as [H _].
    + reflexivity.
    + rewrite E. by left.
    + change (e ∉ []). apply not_elem_of_nil.
    + exact H.
  - destruct (requests_record_an_actor Example.base_dir id false
                (VendorNew "2024-05-02T10:01:00" "2024-05-02T10:01:00"
                   {| req_method := POST;
                      req_form := {["name" := "Acme"; "actor" := "alice"]};
                      req_files := ∅ |})
                {["name" := "Acme"; "actor" := "alice"]} Example.w0 e') as [H _].
    + reflexivity.
    + rewrite E'. by left.
    + change (e' ∉ []). apply not_elem_of_nil.
    + exact H.
Defined.

(** ** Stored files *)

Lemma perform_keeps_document (BASE_DIR : string) (ascii_nfkd : string -> string)
    (bump : bool) (c : call) (w : world) (r : document_row) :
  stored_intact BASE_DIR w -> r ∈ documents (db w) ->
  r ∈ documents (db (perform BASE_DIR ascii_nfkd bump c w).2)
  /\ files (perform BASE_DIR ascii_nfkd bump c w).2
       !! PosixPath.join (UPLOAD_DIR BASE_DIR) (document_storage_path r)
     = files w !! PosixPath.join (UPLOAD_DIR BASE_DIR) (document_storage_path r).
Proof.
  intros Hw Hr. split.
  - destruct (perform_documents BASE_DIR ascii_nfkd bump c w)
      as [->|(now & cid & file & ->)]; [done|].
    unfold upload_inserted, insert_document. cbn [documents put_documents].
    rewrite elem_of_app. by left.
  - destruct c as [now now' fault cid req|filename|now now' req|now' vid req
                  |now now' req|now now' cid req|now now' cid req|cid names
                  |now cid action actor details];
      try (unfold perform, on_db; by repeat (case_match; simplify_eq/=)).
    unfold perform.
    destruct (document_new_cases BASE_DIR ascii_nfkd now now' fault cid req w)
      as [(file & _ & _ & _ & ->)|[(file & _ & _ & ->)
         |(x & w' & -> & _ & _ & _ & [Hf|(file & bytes & _ & Hf)])]];
      cbn [snd files]; rewrite ?Hf; try done; by apply stored_apart.
Qed.

(** X24. What a document holds does not change: under every sequence of
    calls made one after the other, a document row stays in the table and a
    download of its storage name keeps returning what it returned before,
    whatever is uploaded later, under the same file name or another. *)
Theorem stored_documents_keep_their_bytes
    (BASE_DIR : string) (ascii_nfkd : string -> string) (bump : bool)
    (calls : list call) (w : world) (r : document_row) :
  stored_intact BASE_DIR w -> r ∈ documents (db w) ->
  r ∈ documents (db (run BASE_DIR ascii_nfkd bump calls w))
  /\ document_download BASE_DIR (document_storage_path r)
       (run BASE_DIR ascii_nfkd bump calls w)
     = document_download BASE_DIR (document_storage_path r) w.
Proof.
  intros Hw Hr.
  assert (r ∈ documents (db (run BASE_DIR ascii_nfkd bump calls w))
          /\ files (run BASE_DIR ascii_nfkd bump calls w)
               !! PosixPath.join (UPLOAD_DIR BASE_DIR) (document_storage_path r)
             = files w !! PosixPath.join (UPLOAD_DIR BASE_DIR) (document_storage_path r))
    as [Hr' Hsame].
  { revert w Hw Hr. induction calls as [|c calls IH]; intros w Hw Hr; [done|].
    rewrite run_cons.
    destruct (perform_keeps_document BASE_DIR ascii_nfkd bump c w r Hw Hr) as [Hr1 Hf1].
    destruct (IH (perform BASE_DIR ascii_nfkd bump c w).2) as [Hr2 Hf2];
      [by apply perform_stored_intact|done|].
    split; [done|]. by rewrite Hf2. }
  split; [done|].
  destruct (Hw r Hr) as [(f & Hf & Ename) (bytes & Hbytes & _)].
  rewrite Ename in *.
  rewrite (download_stored BASE_DIR _ _ f w bytes Hf Hbytes).
  apply download_stored; [done|]. by rewrite Hsame.
Qed.

Lemma stored_documents_keep_their_bytes_witness :
  exists r,
    documents (db Example.w1) = [r]
    /\ stored_intact Example.base_dir Example.w1
    /\ document_download Example.base_dir (document_storage_path r)
         (run Example.base_dir id false
            [DocumentNew "2024-05-03T10:00:00" "2024-05-03T10:00:00" None 1
               (Example.post "msa.pdf" "other bytes");
             DocumentNew "2024-05-03T10:05:00" "2024-05-03T10:05:00"
               (Some (FailSave (Some (bytes_of "oth")))) 1
               (Example.post "msa.pdf" "other bytes")]
            Example.w1)
       = SendFile (bytes_of "abc").
Proof.
  assert (Hw : stored_intact Example.base_dir Example.w1).
  { change Example.w1
      with (run Example.base_dir id false
              [DocumentNew "2024-05-02T10:00:00" "2024-05-02T10:00:00" None 1
                 (Example.post "msa.pdf" "abc")] Example.w0).
    apply run_stored_intact. by apply stored_intact_empty. }
  destruct (documents (db Example.w1)) as [|r rest] eqn:E; [by vm_compute in E|].
  assert (rest = []) as -> by (vm_compute in E; by injection E as _ <-).
  exists r. split; [reflexivity|]. split; [exact Hw|].
  assert (Hr : r ∈ documents (db Example.w1)) by (rewrite E; by left).
  rewrite (proj2 (stored_documents_keep_their_bytes Example.base_dir id false _
                    Example.w1 r Hw Hr)).
  vm_compute in E. injection E as <-. by vm_compute.
Defined.
